(** * Booking, ticket and attendance workflow of the event server

    A shallow embedding of the request handlers of [src/server.ts] that
    implement the booking -> ticket -> attendance workflow:

      - [POST /api/organizer/scan]   (server.ts, lines 129-156)
      - [POST /api/auth/guest]       (server.ts, lines 184-190)
      - [POST /api/bookings]         (server.ts, lines 263-285)
      - [GET  /api/organizer/stats]  (server.ts, lines 288-304)

    together with the [authenticateToken] middleware (lines 39-49).

    The persistent store is a record of tables, each a finite map from the
    row's primary key to the row.  A handler is a state-passing computation
    over the store that either continues with a value or stops: with the
    reply it sent, or with the exception that escaped it (no handler of
    [server.ts] has a try/catch). *)

From Stdlib Require Import QArith Qround Qpower Lqa Ascii SpecFloat.
From stdpp Require Import gmap strings list fin_maps pretty.

Open Scope string_scope.

(** ** Rows

    The schema file is not part of the sources: a row has the fields that
    the handlers and the seed script read and write, and every table is
    keyed by [id]. *)

Record User := mkUser {
  user_id : string;
  user_role : string;
  user_phone : option string
}.

Record Student := mkStudent {
  student_id : string;
  student_userId : string
}.

Record Organizer := mkOrganizer {
  organizer_id : string;
  organizer_userId : string;
  organizer_isApproved : bool
}.

Record Event := mkEvent {
  event_id : string;
  event_organizerId : string;
  event_capacity : Z;
  event_price : Z;
  event_status : string
}.

Record Booking := mkBooking {
  booking_id : string;
  booking_studentId : string;
  booking_eventId : string;
  booking_status : string
}.

Record Ticket := mkTicket {
  ticket_id : string;
  ticket_bookingId : string;
  ticket_qrCode : string;
  ticket_isScanned : bool;
  ticket_scannedAt : option N
}.

Record Attendance := mkAttendance {
  attendance_id : string;
  attendance_studentId : string;
  attendance_eventId : string
}.

(** ** The store *)

Record Store := mkStore {
  users : gmap string User;
  students : gmap string Student;
  organizers : gmap string Organizer;
  events : gmap string Event;
  bookings : gmap string Booking;
  tickets : gmap string Ticket;
  attendance : gmap string Attendance
}.

Definition empty_store : Store := mkStore ∅ ∅ ∅ ∅ ∅ ∅ ∅.

Definition set_users (f : gmap string User → gmap string User) (s : Store) : Store :=
  mkStore (f (users s)) (students s) (organizers s) (events s)
          (bookings s) (tickets s) (attendance s).

Definition set_bookings (f : gmap string Booking → gmap string Booking) (s : Store) : Store :=
  mkStore (users s) (students s) (organizers s) (events s)
          (f (bookings s)) (tickets s) (attendance s).

Definition set_tickets (f : gmap string Ticket → gmap string Ticket) (s : Store) : Store :=
  mkStore (users s) (students s) (organizers s) (events s)
          (bookings s) (f (tickets s)) (attendance s).

Definition set_attendance (f : gmap string Attendance → gmap string Attendance) (s : Store) : Store :=
  mkStore (users s) (students s) (organizers s) (events s)
          (bookings s) (tickets s) (f (attendance s)).

(** ** What a request does not control

    The write calls of the handlers, by call site. *)

Inductive Write :=
  | BookingCreate
  | TicketCreate
  | TicketUpdate
  | AttendanceCreate
  | UserCreate.

(** The Prisma schema is not part of the sources, so what the store decides
    on its own is taken as a parameter of each request:
      - [now]: the clock ([Date.now()], [new Date()]), a count of
        milliseconds since the epoch and so a natural number;
      - [newId w]: the primary key the store generates for the row that the
        write [w] creates (no handler passes an [id]);
      - [rejects w]: whether the store rejects the write [w] (a constraint
        the schema declares, such as a foreign key, or an outage);
      - [JWT_SECRET]: [process.env.JWT_SECRET || 'supersecret']. *)

Record Env := mkEnv {
  now : N;
  newId : Write → string;
  rejects : Write → bool;
  JWT_SECRET : string
}.

(** ** Tokens

    [jwt.sign] and [jwt.verify] are modelled symbolically: a token is the
    payload it was signed over, the key that signed it and the [iat] claim
    that [jwt.sign] adds to an object payload when called without
    [noTimestamp], as both calls of [server.ts] are: the clock at signing,
    in whole seconds.  Verification succeeds exactly for the signing key;
    no call sets [expiresIn], so a token never expires.  The handlers read
    [id] and [role] of the decoded payload and nothing else of it. *)

Record Claims := mkClaims {
  claims_id : string;
  claims_role : string
}.

Record Jwt := mkJwt {
  jwt_key : string;
  jwt_payload : Claims;
  jwt_iat : N
}.

Definition jwt_sign (payload : Claims) (secret : string) (ms : N) : Jwt :=
  mkJwt secret payload (ms `div` 1000)%N.

Definition jwt_verify (token : Jwt) (secret : string) : option Claims :=
  if decide (jwt_key token = secret) then Some (jwt_payload token) else None.

(** ** Requests and replies

    [bearer] is [authHeader && authHeader.split(' ')[1]]; [body] is the
    parsed JSON body, an object with string fields. *)

Record Request := mkRequest {
  bearer : option Jwt;
  body : gmap string string
}.

Record BookingIncl := mkBookingIncl {
  bk : Booking;
  bk_student : option Student;
  bk_event : option Event
}.

Record TicketIncl := mkTicketIncl {
  tk : Ticket;
  tk_booking : option BookingIncl
}.

Inductive Body :=
  | ErrorBody (error : string)
  | ScanBody (success : bool) (student : option Student)
  | BookingBody (booking : Booking) (ticket : Ticket)
  | StatsBody (totalEvents totalRegistrations : nat) (totalRevenue : Z)
              (attendanceRate : spec_float)
  | AuthBody (token : Jwt) (user : User).

Inductive Reply :=
  | SendStatus (code : Z)
  | Json (code : Z) (payload : Body).

Inductive Error :=
  | StoreRejected (w : Write)
  | UniqueViolation (w : Write)
  | RecordNotFound (w : Write)
  | ValidationError
  | TypeError.

Inductive Outcome :=
  | Replied (r : Reply)
  | Unhandled (e : Error).

(** ** Handler computations *)

Inductive Step (A : Type) :=
  | Next (a : A)
  | Exit (o : Outcome).
Arguments Next {A} a.
Arguments Exit {A} o.

Definition Handler (A : Type) : Type := Store → Step A * Store.

Definition ret {A} (a : A) : Handler A := λ s, (Next a, s).

Definition bind {A B} (m : Handler A) (k : A → Handler B) : Handler B :=
  λ s, match m s with
       | (Next a, s') => k a s'
       | (Exit o, s') => (Exit o, s')
       end.

Definition send {A} (r : Reply) : Handler A := λ s, (Exit (Replied r), s).

Definition throw {A} (e : Error) : Handler A := λ s, (Exit (Unhandled e), s).

Definition get_store : Handler Store := λ s, (Next s, s).

Definition modify (f : Store → Store) : Handler unit := λ s, (Next tt, f s).

Notation "'let*' x := m 'in' k" := (bind m (λ x, k))
  (at level 10, x name, m at level 100, k at level 200).

Notation "m ;;; k" := (bind m (λ _, k))
  (at level 100, k at level 200, right associativity).

Definition run (h : Handler Reply) (s : Store) : Outcome * Store :=
  match h s with
  | (Next r, s') => (Replied r, s')
  | (Exit o, s') => (o, s')
  end.

(** ** The store's client

    A relation whose target row is missing is loaded as null. *)

Definition include_booking (s : Store) (b : Booking) : BookingIncl :=
  mkBookingIncl b (students s !! booking_studentId b) (events s !! booking_eventId b).

Definition include_ticket (s : Store) (t : Ticket) : TicketIncl :=
  mkTicketIncl t (include_booking s <$> bookings s !! ticket_bookingId t).

Definition findMany {A} (P : A → bool) (table : gmap string A) : list A :=
  filter (λ x, P x = true) (map_to_list table).*2.

(** [prisma.ticket.findUnique({ where: { id }, include: ... })]; an undefined
    [id] is refused by the client. *)
Definition ticket_findUnique (id : option string) : Handler (option TicketIncl) :=
  match id with
  | None => throw ValidationError
  | Some id => let* s := get_store in ret (include_ticket s <$> tickets s !! id)
  end.

(** [prisma.student.findUnique({ where: { userId } })] *)
Definition student_findUnique (userId : string) : Handler (option Student) :=
  let* s := get_store in
  ret (head (findMany (λ st, bool_decide (student_userId st = userId)) (students s))).

(** [prisma.organizer.findUnique({ where: { userId } })] *)
Definition organizer_findUnique (userId : string) : Handler (option Organizer) :=
  let* s := get_store in
  ret (head (findMany (λ o, bool_decide (organizer_userId o = userId)) (organizers s))).

(** [prisma.ticket.update({ where: { id }, data })]; a row that is not there
    cannot be updated. *)
Definition ticket_update (env : Env) (id : option string) (data : Ticket → Ticket)
    : Handler Ticket :=
  match id with
  | None => throw ValidationError
  | Some id =>
      let* s := get_store in
      if rejects env TicketUpdate then throw (StoreRejected TicketUpdate) else
      match tickets s !! id with
      | None => throw (RecordNotFound TicketUpdate)
      | Some t => modify (set_tickets (insert id (data t))) ;;; ret (data t)
      end
  end.

(** A [create] inserts the row under the key the store generated; the key is
    the table's primary key, so a key already present is a violation. *)
Definition create {A} (env : Env) (w : Write) (table : Store → gmap string A)
    (set : (gmap string A → gmap string A) → Store → Store)
    (row : string → A) : Handler A :=
  let* s := get_store in
  if rejects env w then throw (StoreRejected w) else
  match table s !! newId env w with
  | Some _ => throw (UniqueViolation w)
  | None => modify (set (insert (newId env w) (row (newId env w)))) ;;;
            ret (row (newId env w))
  end.

(** [prisma.booking.create({ data: { studentId, eventId, status } })]; the
    event id comes from the body and is a required field of the row. *)
Definition booking_create (env : Env) (studentId : string) (eventId : option string)
    (status : string) : Handler Booking :=
  match eventId with
  | None => throw ValidationError
  | Some eventId =>
      create env BookingCreate bookings set_bookings
        (λ id, mkBooking id studentId eventId status)
  end.

(** Modelled from the spec: the defaults of a new ticket, which the schema
    (missing from the sources) declares: "scanned flag (boolean, default
    false), scan timestamp (nullable)". *)
Definition ticket_create (env : Env) (bookingId qrCode : string) : Handler Ticket :=
  create env TicketCreate tickets set_tickets
    (λ id, mkTicket id bookingId qrCode false None).

(** [prisma.attendance.create({ data: { studentId, eventId } })] *)
Definition attendance_create (env : Env) (studentId eventId : string) : Handler Attendance :=
  create env AttendanceCreate attendance set_attendance
    (λ id, mkAttendance id studentId eventId).

(** [prisma.user.create({ data: { role } })] *)
Definition user_create (env : Env) (role : string) : Handler User :=
  create env UserCreate users set_users (λ id, mkUser id role None).

(** ** Middleware: [authenticateToken] *)

Definition authenticateToken (env : Env) (req : Request) : Handler Claims :=
  match bearer req with
  | None => send (SendStatus 401)
  | Some token =>
      match jwt_verify token (JWT_SECRET env) with
      | None => send (SendStatus 403)
      | Some user => ret user
      end
  end.

(** ** [POST /api/organizer/scan] *)

Definition mark_scanned (env : Env) (t : Ticket) : Ticket :=
  mkTicket (ticket_id t) (ticket_bookingId t) (ticket_qrCode t) true (Some (now env)).

Definition post_organizer_scan (env : Env) (req : Request) : Handler Reply :=
  let* user := authenticateToken env req in
  if bool_decide (claims_role user ≠ "ORGANIZER") then send (SendStatus 403) else
  let ticketId := body req !! "ticketId" in
  let* ticket := ticket_findUnique ticketId in
  match ticket with
  | None => send (Json 404 (ErrorBody "Ticket not found"))
  | Some ticket =>
      if ticket_isScanned (tk ticket)
      then send (Json 400 (ErrorBody "Ticket already scanned"))
      else
        (* Mark as scanned *)
        ticket_update env ticketId (mark_scanned env) ;;;
        (* Record Attendance *)
        match tk_booking ticket with
        | None => throw TypeError
        | Some booking =>
            attendance_create env (booking_studentId (bk booking))
                                  (booking_eventId (bk booking)) ;;;
            ret (Json 200 (ScanBody true (bk_student booking)))
        end
  end.

(** ** [POST /api/auth/guest] *)

Definition post_auth_guest (env : Env) (req : Request) : Handler Reply :=
  let* user := user_create env "GUEST" in
  let token := jwt_sign (mkClaims (user_id user) (user_role user)) (JWT_SECRET env)
                        (now env) in
  ret (Json 200 (AuthBody token user)).

(** ** [POST /api/bookings] *)

Definition qrCode (bookingId : string) (ms : N) : string :=
  "TICKET-" +:+ bookingId +:+ "-" +:+ pretty ms.

Definition post_bookings (env : Env) (req : Request) : Handler Reply :=
  let* user := authenticateToken env req in
  let eventId := body req !! "eventId" in
  let* student := student_findUnique (claims_id user) in
  match student with
  | None => send (Json 400 (ErrorBody "Not a student"))
  | Some student =>
      let* booking := booking_create env (student_id student) eventId "PAID" in
      (* Generate Ticket *)
      let* ticket := ticket_create env (booking_id booking)
                       (qrCode (booking_id booking) (now env)) in
      ret (Json 200 (BookingBody booking ticket))
  end.

(** ** [GET /api/organizer/stats]

    The counts and the revenue are modelled as integers.  The rate is a
    JavaScript number computed with a division and a multiplication, each
    rounded to the nearest binary64 number: it is modelled in IEEE 754
    binary64 (precision 53, [emax] 1024), with the operations of the
    standard library's [SpecFloat].  [b64_of_Z] is the number an integer
    value or literal denotes. *)

Definition b64_of_Z (z : Z) : spec_float := binary_normalize 53 1024 z 0 false.
Definition b64_div : spec_float → spec_float → spec_float := SFdiv 53 1024.
Definition b64_mul : spec_float → spec_float → spec_float := SFmul 53 1024.

Definition attendanceRate (attendance_length bookings_length : nat) : spec_float :=
  if bool_decide (0 < bookings_length)%nat
  then b64_mul (b64_div (b64_of_Z (Z.of_nat attendance_length))
                        (b64_of_Z (Z.of_nat bookings_length)))
               (b64_of_Z 100)
  else b64_of_Z 0.

Definition get_organizer_stats (env : Env) (req : Request) : Handler Reply :=
  let* user := authenticateToken env req in
  let* organizer := organizer_findUnique (claims_id user) in
  match organizer with
  | None => send (SendStatus 403)
  | Some organizer =>
      let* s := get_store in
      let events := findMany (λ e, bool_decide (event_organizerId e = organizer_id organizer))
                             (events s) in
      let eventIds := event_id <$> events in
      let bookings := findMany (λ b, bool_decide (booking_eventId b ∈ eventIds)) (bookings s) in
      let attendance := findMany (λ a, bool_decide (attendance_eventId a ∈ eventIds))
                                 (attendance s) in
      ret (Json 200 (StatsBody
             (length events)
             (length bookings)
             (fold_left (λ acc curr, acc + 100)%Z bookings 0%Z)
             (attendanceRate (length attendance) (length bookings))))
  end.

(** ** Two scans in flight

    The scan handler awaits the store three times: at the lookup, at the
    update and at the insert.  Node runs the code between two awaits without
    interruption, and the store executes each call atomically, so a handler
    in flight advances in three steps, each made of one store call and the
    code that follows it up to the next await. *)

Inductive ScanTask :=
  | Start                           (* before [findUnique] *)
  | Found (ticket : TicketIncl)     (* an unscanned ticket was read; before [update] *)
  | Updated (ticket : TicketIncl)   (* the ticket is marked; before [attendance.create] *)
  | Finished (o : Outcome).

Definition scan_segment (env : Env) (req : Request) (task : ScanTask) : Handler ScanTask :=
  match task with
  | Start =>
      let* user := authenticateToken env req in
      if bool_decide (claims_role user ≠ "ORGANIZER") then send (SendStatus 403) else
      let* ticket := ticket_findUnique (body req !! "ticketId") in
      match ticket with
      | None => send (Json 404 (ErrorBody "Ticket not found"))
      | Some ticket =>
          if ticket_isScanned (tk ticket)
          then send (Json 400 (ErrorBody "Ticket already scanned"))
          else ret (Found ticket)
      end
  | Found ticket =>
      ticket_update env (body req !! "ticketId") (mark_scanned env) ;;;
      ret (Updated ticket)
  | Updated ticket =>
      match tk_booking ticket with
      | None => throw TypeError
      | Some booking =>
          attendance_create env (booking_studentId (bk booking))
                                (booking_eventId (bk booking)) ;;;
          send (Json 200 (ScanBody true (bk_student booking)))
      end
  | Finished o => ret (Finished o)
  end.

Definition scan_advance (env : Env) (req : Request) (task : ScanTask) (s : Store)
    : ScanTask * Store :=
  match scan_segment env req task s with
  | (Next task', s') => (task', s')
  | (Exit o, s') => (Finished o, s')
  end.

Inductive Who := ScanA | ScanB.

Record System := mkSystem {
  taskA : ScanTask;
  taskB : ScanTask;
  store : Store
}.

Definition schedule1 (envA : Env) (reqA : Request) (envB : Env) (reqB : Request)
    (sys : System) (w : Who) : System :=
  match w with
  | ScanA =>
      let '(task, s) := scan_advance envA reqA (taskA sys) (store sys) in
      mkSystem task (taskB sys) s
  | ScanB =>
      let '(task, s) := scan_advance envB reqB (taskB sys) (store sys) in
      mkSystem (taskA sys) task s
  end.

Definition interleave (envA : Env) (reqA : Request) (envB : Env) (reqB : Request)
    (sched : list Who) (s : Store) : System :=
  fold_left (schedule1 envA reqA envB reqB) sched (mkSystem Start Start s).

(** A schedule in which each of the two scans makes its three steps. *)
Definition is_A (w : Who) : bool :=
  match w with ScanA => true | ScanB => false end.

Definition complete (sched : list Who) : bool :=
  bool_decide (length (filter (λ w, is_A w = true) sched) = 3%nat) &&
  bool_decide (length (filter (λ w, is_A w = false) sched) = 3%nat).

(** Both lookups happen before either update: the first two steps are the
    first steps of the two scans. *)
Definition both_read_first (sched : list Who) : bool :=
  match sched with
  | ScanA :: ScanB :: _ | ScanB :: ScanA :: _ => true
  | _ => false
  end.

(** ** The server, one request after another *)

Inductive Route :=
  | OrganizerScan
  | AuthGuest
  | Bookings
  | OrganizerStats.

Definition handle (r : Route) : Env → Request → Handler Reply :=
  match r with
  | OrganizerScan => post_organizer_scan
  | AuthGuest => post_auth_guest
  | Bookings => post_bookings
  | OrganizerStats => get_organizer_stats
  end.

Record Call := mkCall {
  call_route : Route;
  call_env : Env;
  call_req : Request
}.

Definition serve1 (s : Store) (c : Call) : Store :=
  (run (handle (call_route c) (call_env c) (call_req c)) s).2.

Definition serve (calls : list Call) (s : Store) : Store :=
  fold_left serve1 calls s.

(** ** Vocabulary of the statements *)

(** The caller that [authenticateToken] attaches to the request. *)
Definition caller (env : Env) (req : Request) : option Claims :=
  match bearer req with
  | None => None
  | Some token => jwt_verify token (JWT_SECRET env)
  end.

(** A scan request for [ticketId] by a caller whose role is ORGANIZER. *)
Definition organizer_scans (env : Env) (req : Request) (ticketId : string) : Prop :=
  (∃ user, caller env req = Some user ∧ claims_role user = "ORGANIZER") ∧
  body req !! "ticketId" = Some ticketId.

(** A booking request for [eventId] by a caller with the Student profile
    [student]. *)
Definition student_books (env : Env) (req : Request) (s : Store)
    (student : Student) (eventId : string) : Prop :=
  (∃ user, caller env req = Some user ∧
           head (findMany (λ st, bool_decide (student_userId st = claims_id user))
                          (students s)) = Some student) ∧
  body req !! "eventId" = Some eventId.

Definition count {A} (P : A → bool) (table : gmap string A) : nat :=
  length (findMany P table).

Definition indicator (b : bool) : nat := if b then 1 else 0.

Definition AlreadyScanned : Outcome :=
  Replied (Json 400 (ErrorBody "Ticket already scanned")).

Definition TicketNotFound : Outcome :=
  Replied (Json 404 (ErrorBody "Ticket not found")).

Definition Scanned (student : option Student) : Outcome :=
  Replied (Json 200 (ScanBody true student)).

Definition Booked (b : Booking) (t : Ticket) : Outcome :=
  Replied (Json 200 (BookingBody b t)).

(** The rows a successful scan writes. *)
Definition scanned_store (env : Env) (tid : string) (t : Ticket) (s : Store) : Store :=
  set_tickets (insert tid (mark_scanned env t)) s.

Definition attendance_row (env : Env) (b : Booking) : Attendance :=
  mkAttendance (newId env AttendanceCreate) (booking_studentId b) (booking_eventId b).

Definition attended_store (env : Env) (b : Booking) (s : Store) : Store :=
  set_attendance (insert (newId env AttendanceCreate) (attendance_row env b)) s.

(** The rows a successful booking writes. *)
Definition booking_row (env : Env) (student : Student) (eventId : string) : Booking :=
  mkBooking (newId env BookingCreate) (student_id student) eventId "PAID".

Definition ticket_row (env : Env) : Ticket :=
  mkTicket (newId env TicketCreate) (newId env BookingCreate)
           (qrCode (newId env BookingCreate) (now env)) false None.

Definition booked_store (env : Env) (student : Student) (eventId : string) (s : Store) : Store :=
  set_bookings (insert (newId env BookingCreate) (booking_row env student eventId)) s.

Definition ticketed_store (env : Env) (s : Store) : Store :=
  set_tickets (insert (newId env TicketCreate) (ticket_row env)) s.

(** ** Scenario of the specification: an organizer with one event of
    capacity 500, a student, no bookings yet. *)

Definition demo_store : Store :=
  mkStore {[ "u1" := mkUser "u1" "STUDENT" None;
             "u2" := mkUser "u2" "ORGANIZER" None ]}
          {[ "s1" := mkStudent "s1" "u1" ]}
          {[ "o1" := mkOrganizer "o1" "u2" true ]}
          {[ "e1" := mkEvent "e1" "o1" 500 299 "APPROVED" ]}
          ∅ ∅ ∅.

Definition demo_ids (n : string) (w : Write) : string :=
  match w with
  | BookingCreate => "b" +:+ n
  | TicketCreate => "t" +:+ n
  | TicketUpdate => ""
  | AttendanceCreate => "a" +:+ n
  | UserCreate => "g" +:+ n
  end.

Definition demo_env (n : string) : Env :=
  mkEnv 1700000000000 (demo_ids n) (λ _, false) "supersecret".

Definition student_token : Jwt :=
  jwt_sign (mkClaims "u1" "STUDENT") "supersecret" 1690000000000.
Definition organizer_token : Jwt :=
  jwt_sign (mkClaims "u2" "ORGANIZER") "supersecret" 1690000000000.

Definition book_e1 : Request := mkRequest (Some student_token) {[ "eventId" := "e1" ]}.
Definition scan_t1 : Request := mkRequest (Some organizer_token) {[ "ticketId" := "t1" ]}.

(** The store after the student booked [e1]. *)
Definition booked_demo : Store := (run (post_bookings (demo_env "1") book_e1) demo_store).2.

(** ... and after the organizer scanned the ticket. *)
Definition scanned_demo : Store := (run (post_organizer_scan (demo_env "1") scan_t1) booked_demo).2.

(** A store that rejects the insert of a ticket, and one that rejects the
    insert of a booking. *)
Definition ticket_rejecting_env : Env :=
  mkEnv 1700000000000 (demo_ids "1")
        (λ w, match w with TicketCreate => true | _ => false end) "supersecret".

Definition booking_rejecting_env : Env :=
  mkEnv 1700000000000 (demo_ids "1")
        (λ w, match w with BookingCreate => true | _ => false end) "supersecret".

(** A booking request for an event that does not exist. *)
Definition book_missing : Request :=
  mkRequest (Some student_token) {[ "eventId" := "no-such-event" ]}.

(** A scan request that presents the code of ticket [t1] instead of its id. *)
Definition scan_code_t1 : Request :=
  mkRequest (Some organizer_token) {[ "ticketId" := "TICKET-b1-1700000000000" ]}.

Definition stats_o1 : Request := mkRequest (Some organizer_token) ∅.

(** A guest request whose body asks for the ADMIN role. *)
Definition guest_as_admin : Request := mkRequest None {[ "role" := "ADMIN" ]}.

(** Both scans read the ticket before either marks it. *)
Definition reads_first : list Who := [ScanA; ScanB; ScanA; ScanB; ScanA; ScanB].

(** The scenario, then a second booking of the same event that is never
    scanned. *)
Definition demo_calls : list Call :=
  [ mkCall Bookings (demo_env "1") book_e1;
    mkCall OrganizerScan (demo_env "1") scan_t1;
    mkCall OrganizerScan (demo_env "2") scan_t1;
    mkCall Bookings (demo_env "2") book_e1 ].

Definition served_demo : Store := serve demo_calls demo_store.

(** An event of capacity 1 that already has its one booking. *)
Definition full_store : Store :=
  mkStore (users demo_store) (students demo_store) (organizers demo_store)
          {[ "e1" := mkEvent "e1" "o1" 1 299 "APPROVED" ]}
          {[ "b0" := mkBooking "b0" "s1" "e1" "PAID" ]}
          {[ "t0" := mkTicket "t0" "b0" "TICKET-b0-1600000000000" false None ]}
          ∅.

Definition set_events (f : gmap string Event → gmap string Event) (s : Store) : Store :=
  mkStore (users s) (students s) (organizers s) (f (events s))
          (bookings s) (tickets s) (attendance s).

(** ** Consistency of the store

    What the handlers keep true of the tables they write, whatever the
    requests and whatever the store decides. *)

(** The event a ticket admits to: that of its booking. *)
Definition event_of (s : Store) (t : Ticket) : string :=
  from_option booking_eventId "" (bookings s !! ticket_bookingId t).

Record consistent (s : Store) : Prop := mkConsistent {
  (* every ticket belongs to a booking *)
  ticket_has_booking : ∀ k t,
    tickets s !! k = Some t → is_Some (bookings s !! ticket_bookingId t);
  (* a booking has at most one ticket *)
  ticket_per_booking : ∀ k1 k2 t1 t2,
    tickets s !! k1 = Some t1 → tickets s !! k2 = Some t2 →
    ticket_bookingId t1 = ticket_bookingId t2 → k1 = k2;
  (* every code was minted by the booking handler *)
  ticket_code : ∀ k t,
    tickets s !! k = Some t → ∃ ms, ticket_qrCode t = qrCode (ticket_bookingId t) ms;
  (* attendance records are covered by scanned tickets, event by event *)
  attendance_scanned : ∀ P : string → bool,
    (count (λ a, P (attendance_eventId a)) (attendance s)
     ≤ count (λ t, ticket_isScanned t && P (event_of s t)) (tickets s))%nat;
  (* tickets are covered by bookings, event by event *)
  tickets_booked : ∀ P : string → bool,
    (count (λ t, P (event_of s t)) (tickets s)
     ≤ count (λ b, P (booking_eventId b)) (bookings s))%nat
}.

(** Tickets are never deleted, and neither their booking nor their code
    changes. *)
Definition tickets_persist (s s' : Store) : Prop :=
  ∀ k t, tickets s !! k = Some t →
    ∃ t', tickets s' !! k = Some t' ∧
          ticket_id t' = ticket_id t ∧
          ticket_bookingId t' = ticket_bookingId t ∧
          ticket_qrCode t' = ticket_qrCode t.

Fixpoint dash_free (s : string) : bool :=
  match s with
  | EmptyString => true
  | String c s' => negb (bool_decide (c = "-"%char)) && dash_free s'
  end.

(** * The other routes

    [POST /api/auth/otp/send] and [/verify] (server.ts, lines 192-222),
    [GET /api/events], [GET /api/events/:id] and [POST /api/events] (lines
    225-260), and the [chat:message] listener of the socket (lines 310-336).
    They use two more tables and send replies of other shapes, so they run
    over a larger state; the handlers above are lifted into it. *)

Record OTPLog := mkOTPLog {
  oTPLog_id : string;
  oTPLog_phone : string;
  oTPLog_otp : string;
  oTPLog_expiresAt : N;
  oTPLog_createdAt : N
}.

Record ChatMessage := mkChatMessage {
  chatMessage_id : string;
  chatMessage_userId : string;
  chatMessage_message : string;
  chatMessage_role : string
}.

Record Server := mkServer {
  db : Store;
  oTPLog : gmap string OTPLog;
  chatMessage : gmap string ChatMessage
}.

Definition set_db (f : Store → Store) (w : Server) : Server :=
  mkServer (f (db w)) (oTPLog w) (chatMessage w).

Definition set_oTPLog (f : gmap string OTPLog → gmap string OTPLog) (w : Server) : Server :=
  mkServer (db w) (f (oTPLog w)) (chatMessage w).

Definition set_chatMessage (f : gmap string ChatMessage → gmap string ChatMessage)
    (w : Server) : Server :=
  mkServer (db w) (oTPLog w) (f (chatMessage w)).

(** The write calls of these routes, by call site; [prisma.user.create] of
    the verify route is the [UserCreate] of above. *)
Inductive Site :=
  | OTPLogCreate
  | EventCreate
  | ChatUserCreate
  | ChatAssistantCreate.

(** What these routes do not control: the environment of above, the draw of
    [Math.random()] (a number in [0, 1), taken as a rational), the keys the
    store generates, the writes it rejects, and the answer of the model to a
    chat message: an exception, or a response whose [text] may be
    undefined. *)
Record Ambient := mkAmbient {
  amb_env : Env;
  random : Q;
  generated : Site → string;
  refuses : Site → bool;
  generateContent : string → option (option string)
}.

Record OrganizerIncl := mkOrganizerIncl {
  org : Organizer;
  org_user : option User
}.

Record EventIncl := mkEventIncl {
  ev : Event;
  ev_organizer : option OrganizerIncl;
  ev_count_bookings : nat
}.

Inductive Answer :=
  | Plain (r : Reply)
  | EventJson (e : Event)
  | EventsJson (l : list EventIncl)
  | EventOrNull (e : option EventIncl)
  | MessageJson (message : string)
  | Emit (message : string).

Inductive Exn :=
  | CoreError (e : Error)
  | Refused (c : Site)
  | Duplicate (c : Site)
  | Invalid (c : Site)
  | ModelFailure.

Inductive Ending :=
  | Answered (a : Answer)
  | Errored (x : Exn).

Inductive Progress (A : Type) :=
  | Continue (a : A)
  | Done (e : Ending).
Arguments Continue {A} a.
Arguments Done {A} e.

Definition Action (A : Type) : Type := Server → Progress A * Server.

Definition act_ret {A} (a : A) : Action A := λ w, (Continue a, w).

Definition act_bind {A B} (m : Action A) (k : A → Action B) : Action B :=
  λ w, match m w with
       | (Continue a, w') => k a w'
       | (Done e, w') => (Done e, w')
       end.

Definition answer {A} (a : Answer) : Action A := λ w, (Done (Answered a), w).

Definition raise {A} (x : Exn) : Action A := λ w, (Done (Errored x), w).

Definition get_server : Action Server := λ w, (Continue w, w).

Definition update (f : Server → Server) : Action unit := λ w, (Continue tt, f w).

Definition ending_of (o : Outcome) : Ending :=
  match o with
  | Replied r => Answered (Plain r)
  | Unhandled e => Errored (CoreError e)
  end.

(** A computation of the handlers above, run on the [db] component. *)
Definition lift {A} (h : Handler A) : Action A :=
  λ w, match h (db w) with
       | (Next a, s') => (Continue a, set_db (λ _, s') w)
       | (Exit o, s') => (Done (ending_of o), set_db (λ _, s') w)
       end.

Notation "'let+' x := m 'in' k" := (act_bind m (λ x, k))
  (at level 10, x name, m at level 100, k at level 200).

Notation "m ;;+ k" := (act_bind m (λ _, k))
  (at level 100, k at level 200, right associativity).

Definition perform (h : Action Answer) (w : Server) : Ending * Server :=
  match h w with
  | (Continue a, w') => (Answered a, w')
  | (Done e, w') => (e, w')
  end.

(** An insert under a generated key, as [create] above. *)
Definition insert_row {A} (amb : Ambient) (c : Site) (table : Server → gmap string A)
    (set : (gmap string A → gmap string A) → Server → Server)
    (row : string → A) : Action A :=
  let+ w := get_server in
  if refuses amb c then raise (Refused c) else
  match table w !! generated amb c with
  | Some _ => raise (Duplicate c)
  | None => update (set (insert (generated amb c) (row (generated amb c)))) ;;+
            act_ret (row (generated amb c))
  end.

(** ** [POST /api/auth/otp/send]

    [prisma.oTPLog.create({ data: { phone, otp, expiresAt } })]: a row needs
    its phone; [createdAt], which the verify route orders by, is the time of
    the insert. *)
Definition oTPLog_create (amb : Ambient) (phone : option string) (otp : string)
    (expiresAt : N) : Action OTPLog :=
  match phone with
  | None => raise (Invalid OTPLogCreate)
  | Some phone =>
      insert_row amb OTPLogCreate oTPLog set_oTPLog
        (λ id, mkOTPLog id phone otp expiresAt (now (amb_env amb)))
  end.

(** [Math.floor(100000 + Math.random() * 900000).toString()] *)
Definition new_otp (amb : Ambient) : string :=
  pretty (Qfloor (100000 + random amb * 900000)%Q).

Definition post_auth_otp_send (amb : Ambient) (req : Request) : Action Answer :=
  let phone := body req !! "phone" in
  let otp := new_otp amb in
  oTPLog_create amb phone otp (now (amb_env amb) + 5 * 60 * 1000)%N ;;+
  answer (MessageJson "OTP sent").

(** ** [POST /api/auth/otp/verify] *)

(** A field of a [where] that is undefined does not filter. *)
Definition where_equals (filter : option string) (value : string) : bool :=
  match filter with
  | None => true
  | Some f => bool_decide (value = f)
  end.

Definition later_log (l : OTPLog) (best : option OTPLog) : option OTPLog :=
  match best with
  | None => Some l
  | Some b => if (oTPLog_createdAt b <? oTPLog_createdAt l)%N then Some l else Some b
  end.

(** [prisma.oTPLog.findFirst({ where, orderBy: { createdAt: 'desc' } })] *)
Definition oTPLog_findFirst (P : OTPLog → bool) : Action (option OTPLog) :=
  let+ w := get_server in
  act_ret (foldr later_log None (findMany P (oTPLog w))).

(** [prisma.user.findUnique({ where: { phone } })]; an undefined [phone] is
    refused by the client. *)
Definition user_findUnique (phone : option string) : Action (option User) :=
  match phone with
  | None => raise (CoreError ValidationError)
  | Some phone =>
      let+ w := get_server in
      act_ret (head (findMany (λ u, bool_decide (user_phone u = Some phone))
                              (users (db w))))
  end.

Definition post_auth_otp_verify (amb : Ambient) (req : Request) : Action Answer :=
  let phone := body req !! "phone" in
  let otp := body req !! "otp" in
  let+ log := oTPLog_findFirst (λ l,
                where_equals phone (oTPLog_phone l) &&
                where_equals otp (oTPLog_otp l) &&
                (now (amb_env amb) <? oTPLog_expiresAt l)%N) in
  match log with
  | None => answer (Plain (Json 400 (ErrorBody "Invalid or expired OTP")))
  | Some _ =>
      let+ found := user_findUnique phone in
      let+ user :=
        match found with
        | Some user => act_ret user
        | None => lift (create (amb_env amb) UserCreate users set_users
                          (λ id, mkUser id "STUDENT" phone))
        end in
      let token := jwt_sign (mkClaims (user_id user) (user_role user))
                            (JWT_SECRET (amb_env amb)) (now (amb_env amb)) in
      answer (Plain (Json 200 (AuthBody token user)))
  end.

(** ** [GET /api/events] and [GET /api/events/:id] *)

Definition include_organizer (s : Store) (o : Organizer) : OrganizerIncl :=
  mkOrganizerIncl o (users s !! organizer_userId o).

Definition include_event (s : Store) (e : Event) : EventIncl :=
  mkEventIncl e (include_organizer s <$> organizers s !! event_organizerId e)
    (count (λ b, bool_decide (booking_eventId b = event_id e)) (bookings s)).

Definition get_events : Action Answer :=
  let+ w := get_server in
  let events := findMany (λ e, bool_decide (event_status e = "APPROVED")) (events (db w)) in
  answer (EventsJson (include_event (db w) <$> events)).

Definition get_event (id : string) : Action Answer :=
  let+ w := get_server in
  answer (EventOrNull (include_event (db w) <$> events (db w) !! id)).

(** ** [POST /api/events]

    The body of the request.  The handler spreads the whole of it into
    [data], so every field of it reaches Prisma: the scalar fields of the
    row (the row needs its capacity and its price, and takes its [id] from
    the body when the body has one), and the relation fields, which Prisma
    runs as nested writes on the related tables in the transaction of the
    insert, as [admin: { create: ... }] and [organizer: { create: ... }] do
    under [user.create] in [prisma/seed.ts].  The schema is not part of the
    sources, so which relations an event has and which rows a nested write
    under them reaches is not known: [data_relations] is what the relation
    fields of the body do to the tables, as a function of the new row's id,
    and [None] for a body that has scalar fields only. *)
Record EventData := mkEventData {
  data_id : option string;
  data_organizerId : option string;
  data_status : option string;
  data_capacity : option Z;
  data_price : option Z;
  data_relations : option (string → Server → Server)
}.

Definition nested_writes (data : EventData) (id : string) : Server → Server :=
  match data_relations data with
  | Some writes => writes id
  | None => λ w, w
  end.

(** [prisma.event.create({ data: { ...req.body, organizerId, status } })];
    the result is the new row, with its scalar fields. *)
Definition event_create (amb : Ambient) (data : EventData) (organizerId status : string)
    : Action Event :=
  match data_capacity data, data_price data with
  | Some capacity, Some price =>
      let id := default (generated amb EventCreate) (data_id data) in
      let+ w := get_server in
      if refuses amb EventCreate then raise (Refused EventCreate) else
      match events (db w) !! id with
      | Some _ => raise (Duplicate EventCreate)
      | None =>
          let row := mkEvent id organizerId capacity price status in
          update (λ w, nested_writes data id (set_db (set_events (insert id row)) w)) ;;+
          act_ret row
      end
  | _, _ => raise (Invalid EventCreate)
  end.

Definition post_events (amb : Ambient) (req : Request) (data : EventData) : Action Answer :=
  let+ user := lift (authenticateToken (amb_env amb) req) in
  if bool_decide (claims_role user ≠ "ORGANIZER") then answer (Plain (SendStatus 403)) else
  let+ organizer := lift (organizer_findUnique (claims_id user)) in
  match organizer with
  | None => answer (Plain (Json 403 (ErrorBody "Organizer not approved")))
  | Some organizer =>
      if negb (organizer_isApproved organizer)
      then answer (Plain (Json 403 (ErrorBody "Organizer not approved")))
      else
        let+ event := event_create amb data (organizer_id organizer) "PENDING" in
        answer (EventJson event)
  end.

(** ** The [chat:message] listener *)

Record ChatData := mkChatData {
  chat_userId : string;
  chat_message : string
}.

(** [response.text || "I'm sorry, I couldn't process that."]: an undefined
    or empty text is replaced. *)
Definition text_or_apology (text : option string) : string :=
  match text with
  | None | Some "" => "I'm sorry, I couldn't process that."
  | Some t => t
  end.

Definition chatMessage_create (amb : Ambient) (c : Site) (userId message role : string)
    : Action ChatMessage :=
  insert_row amb c chatMessage set_chatMessage
    (λ id, mkChatMessage id userId message role).

Definition models_generateContent (amb : Ambient) (contents : string)
    : Action (option string) :=
  match generateContent amb contents with
  | None => raise ModelFailure
  | Some text => act_ret text
  end.

Definition on_chat_message (amb : Ambient) (data : ChatData) : Action Answer :=
  (* Save user message *)
  chatMessage_create amb ChatUserCreate (chat_userId data) (chat_message data) "user" ;;+
  (* Gemini Response *)
  let+ text := models_generateContent amb (chat_message data) in
  let aiMessage := text_or_apology text in
  (* Save AI message *)
  chatMessage_create amb ChatAssistantCreate (chat_userId data) aiMessage "assistant" ;;+
  answer (Emit aiMessage).

(** The handlers above, over the larger state. *)
Definition serve_core (c : Call) (w : Server) : Ending * Server :=
  perform (let+ r := lift (handle (call_route c) (call_env c) (call_req c)) in
           answer (Plain r)) w.

(** Everything the server can receive, one after another. *)
Inductive Incoming :=
  | Core (c : Call)
  | OtpSend (amb : Ambient) (req : Request)
  | OtpVerify (amb : Ambient) (req : Request)
  | GetEvents
  | GetEvent (id : string)
  | PostEvents (amb : Ambient) (req : Request) (data : EventData)
  | ChatMessageIn (amb : Ambient) (data : ChatData).

Definition receive1 (w : Server) (i : Incoming) : Server :=
  match i with
  | Core c => (serve_core c w).2
  | OtpSend amb req => (perform (post_auth_otp_send amb req) w).2
  | OtpVerify amb req => (perform (post_auth_otp_verify amb req) w).2
  | GetEvents => (perform get_events w).2
  | GetEvent id => (perform (get_event id) w).2
  | PostEvents amb req data => (perform (post_events amb req data) w).2
  | ChatMessageIn amb data => (perform (on_chat_message amb data) w).2
  end.

Definition receive (l : list Incoming) (w : Server) : Server :=
  fold_left receive1 l w.

(** The filter of the verify route. *)
Definition otp_matches (amb : Ambient) (req : Request) (l : OTPLog) : bool :=
  where_equals (body req !! "phone") (oTPLog_phone l) &&
  where_equals (body req !! "otp") (oTPLog_otp l) &&
  (now (amb_env amb) <? oTPLog_expiresAt l)%N.

(** ** Scenario for the other routes *)

Definition demo_server : Server := mkServer demo_store ∅ ∅.

Definition demo_sites (n : string) (c : Site) : string :=
  match c with
  | OTPLogCreate => "otp" +:+ n
  | EventCreate => "e" +:+ n
  | ChatUserCreate => "m" +:+ n
  | ChatAssistantCreate => "r" +:+ n
  end.

(** An ambient whose clock reads [ms], whose draw is 1/2, and whose model
    answers every message with ["Hello"]. *)
Definition demo_ambient (n : string) (ms : N) : Ambient :=
  mkAmbient (mkEnv ms (demo_ids n) (λ _, false) "supersecret")
            (1 # 2) (demo_sites n) (λ _, false) (λ _, Some (Some "Hello")).

Definition otp_send_req : Request := mkRequest None {[ "phone" := "+911234567890" ]}.

Definition otp_verify_req : Request :=
  mkRequest None {[ "phone" := "+911234567890"; "otp" := "550000" ]}.

Definition new_event_data : EventData :=
  mkEventData None (Some "o9") (Some "APPROVED") (Some 50%Z) (Some 0%Z) None.

Definition create_event_req : Request := mkRequest (Some organizer_token) ∅.

Definition chat_hello : ChatData := mkChatData "u1" "Hi".

(** A store that accepts the update of a scan and rejects the insert of
    the Attendance row. *)
Definition attendance_rejecting_env : Env :=
  mkEnv 1700000000000 (demo_ids "1")
        (λ w, match w with AttendanceCreate => true | _ => false end) "supersecret".

(** The student's token with another role in it. *)
Definition student_as_organizer_token : Jwt :=
  jwt_sign (mkClaims "u1" "ORGANIZER") "supersecret" 1690000000000.

Definition scan_t2 : Request := mkRequest (Some organizer_token) {[ "ticketId" := "t2" ]}.

(** The store after two bookings, none scanned. *)
Definition two_tickets_demo : Store :=
  serve [ mkCall Bookings (demo_env "1") book_e1;
          mkCall Bookings (demo_env "2") book_e1 ] demo_store.

(** The server after a password was sent at time 1000. *)
Definition otp_sent_demo : Server :=
  (perform (post_auth_otp_send (demo_ambient "1" 1000) otp_send_req) demo_server).2.

(** An ambient whose model fails. *)
Definition failing_model_ambient : Ambient :=
  mkAmbient (demo_env "1") (1 # 2) (demo_sites "1") (λ _, false) (λ _, None).

Definition demo_incoming : list Incoming :=
  [ Core (mkCall Bookings (demo_env "1") book_e1);
    OtpSend (demo_ambient "1" 1000) otp_send_req;
    OtpVerify (demo_ambient "2" 2000) otp_verify_req;
    PostEvents (demo_ambient "7" 5) create_event_req new_event_data;
    ChatMessageIn (demo_ambient "1" 5) chat_hello;
    Core (mkCall OrganizerScan (demo_env "1") scan_t1);
    GetEvents ].

(** A request that hands no relation fields to Prisma: of the routes, only
    [POST /api/events] passes the fields of its body on. *)
Definition scalar_only (i : Incoming) : Prop :=
  match i with
  | PostEvents _ _ data => data_relations data = None
  | _ => True
  end.

(** ** Binary64 numbers

    The real number that a binary64 datum denotes; an infinity or a NaN
    denotes none, [b64_finite] tells them apart. *)
Definition b64_value (x : spec_float) : Q :=
  match x with
  | S754_finite s m e => ((if s then -1 else 1) * inject_Z (Z.pos m) * 2 ^ e)%Q
  | _ => 0%Q
  end.

Definition b64_finite (x : spec_float) : bool :=
  match x with
  | S754_zero _ | S754_finite _ _ _ => true
  | _ => false
  end.

(** [m * 2^e ≤ c * 2^k], for [e ≤ k]. *)
Definition below (m e c k : Z) : Prop := (e ≤ k ∧ m ≤ c * 2 ^ (k - e))%Z.

(** [x] is [+0] or a positive number that is at most [c * 2^k]. *)
Definition at_most (c k : Z) (x : spec_float) : Prop :=
  match x with
  | S754_zero s => s = false
  | S754_finite s m e => s = false ∧ below (Z.pos m) e c k
  | _ => False
  end.

(** The round and sticky bits of a shifted mantissa: a one was shifted out. *)
Definition inexact (mrs : shr_record) : bool := shr_r mrs || shr_s mrs.

(** [y] is [x] shifted right by [n] bits. *)
Definition shifted (n : Z) (x y : shr_record) : Prop :=
  (0 ≤ shr_m x →
   0 ≤ shr_m y ∧ shr_m y = shr_m x `div` 2 ^ n ∧
   (inexact y = false ↔ inexact x = false ∧ shr_m x = 2 ^ n * shr_m y))%Z.

(** ** A busier scenario

    The student books [e1] twenty-five times and the organizer scans seven
    of the tickets. *)
Definition busy_calls : list Call :=
  ((λ n, mkCall Bookings (demo_env (pretty n)) book_e1) <$> seq 1 25) ++
  ((λ n, mkCall OrganizerScan (demo_env (pretty n))
           (mkRequest (Some organizer_token) {[ "ticketId" := "t" +:+ pretty n ]}))
     <$> seq 1 7).

Definition busy_store : Store := serve busy_calls demo_store.

(** ** Running the handlers *)

Ltac unfold_handler :=
  unfold run, post_organizer_scan, post_bookings, post_auth_guest, get_organizer_stats,
    authenticateToken, ticket_findUnique, ticket_update, attendance_create,
    booking_create, ticket_create, user_create, student_findUnique,
    organizer_findUnique, create, bind, ret, send, throw, get_store, modify.

Lemma organizer_scans_auth env req tid s :
  organizer_scans env req tid →
  ∃ user, authenticateToken env req s = (Next user, s) ∧
          bool_decide (claims_role user ≠ "ORGANIZER") = false.
Proof.
  intros [(user & Hc & Hr) _]. exists user. unfold caller in Hc.
  unfold authenticateToken. destruct (bearer req); [|done].
  rewrite Hc. split; [done|]. rewrite Hr. done.
Qed.

Lemma scan_not_found env req s tid :
  organizer_scans env req tid →
  tickets s !! tid = None →
  run (post_organizer_scan env req) s = (TicketNotFound, s).
Proof.
  intros Hreq Ht. destruct (organizer_scans_auth _ _ _ s Hreq) as (user & Ha & Hr).
  destruct Hreq as [_ Hb].
  unfold run, post_organizer_scan, bind. rewrite Ha, Hr, Hb. simpl.
  unfold_handler. rewrite Ht. done.
Qed.

Lemma scan_scanned env req s tid t :
  organizer_scans env req tid →
  tickets s !! tid = Some t →
  ticket_isScanned t = true →
  run (post_organizer_scan env req) s = (AlreadyScanned, s).
Proof.
  intros Hreq Ht Hs. destruct (organizer_scans_auth _ _ _ s Hreq) as (user & Ha & Hr).
  destruct Hreq as [_ Hb].
  unfold run, post_organizer_scan, bind. rewrite Ha, Hr, Hb. simpl.
  unfold_handler. rewrite Ht. simpl. rewrite Hs. done.
Qed.

Lemma scan_unscanned env req s tid t b :
  organizer_scans env req tid →
  tickets s !! tid = Some t →
  ticket_isScanned t = false →
  bookings s !! ticket_bookingId t = Some b →
  rejects env TicketUpdate = false →
  rejects env AttendanceCreate = false →
  attendance s !! newId env AttendanceCreate = None →
  run (post_organizer_scan env req) s =
    (Scanned (students s !! booking_studentId b),
     attended_store env b (scanned_store env tid t s)).
Proof.
  intros Hreq Ht Hs Hbk Hu Hc Hfresh.
  destruct (organizer_scans_auth _ _ _ s Hreq) as (user & Ha & Hr).
  destruct Hreq as [_ Hb].
  unfold run, post_organizer_scan, bind. rewrite Ha, Hr, Hb. simpl.
  unfold_handler. rewrite Ht. simpl. rewrite Hs, Hu, Ht. simpl.
  rewrite Hbk. simpl. rewrite Hc, Hfresh. done.
Qed.

(** Every way a scan can end, for any request. *)
Lemma scan_cases env req s o s' :
  run (post_organizer_scan env req) s = (o, s') →
  (s' = s ∧ ∀ st, o ≠ Scanned st) ∨
  ∃ tid t,
    organizer_scans env req tid ∧
    tickets s !! tid = Some t ∧ ticket_isScanned t = false ∧
    ((s' = scanned_store env tid t s ∧ ∀ st, o ≠ Scanned st) ∨
     ∃ b, bookings s !! ticket_bookingId t = Some b ∧
          attendance s !! newId env AttendanceCreate = None ∧
          s' = attended_store env b (scanned_store env tid t s) ∧
          o = Scanned (students s !! booking_studentId b)).
Proof.
  unfold run, post_organizer_scan, bind, organizer_scans, caller, authenticateToken.
  destruct (bearer req) as [tok|]; simpl; [|intros [= <- <-]; by left].
  destruct (jwt_verify tok (JWT_SECRET env)) as [user|]; simpl;
    [|intros [= <- <-]; by left].
  case_bool_decide as Hrole; simpl; [intros [= <- <-]; by left|].
  unfold ticket_findUnique.
  destruct (body req !! "ticketId") as [tid|]; simpl; [|intros [= <- <-]; by left].
  unfold_handler.
  destruct (tickets s !! tid) as [t|] eqn:Ht; simpl; [|intros [= <- <-]; by left].
  destruct (ticket_isScanned t) eqn:Hs; simpl; [intros [= <- <-]; by left|].
  destruct (rejects env TicketUpdate); simpl; [intros [= <- <-]; by left|].
  rewrite Ht. simpl.
  intros H. right. exists tid, t. split_and!; eauto.
  destruct (bookings s !! ticket_bookingId t) as [b|] eqn:Hb; simpl in H;
    [|injection H as <- <-; by left].
  destruct (rejects env AttendanceCreate); simpl in H;
    [injection H as <- <-; by left|].
  destruct (attendance s !! newId env AttendanceCreate) eqn:Ha; simpl in H;
    [injection H as <- <-; by left|].
  injection H as <- <-. right. by exists b.
Qed.

Lemma organizer_scans_ticketId env req tid tid' :
  organizer_scans env req tid → organizer_scans env req tid' → tid = tid'.
Proof. intros [_ H] [_ H']. congruence. Qed.

(** A scan of a scanned ticket writes nothing, whoever sends it. *)
Lemma scan_scanned_any_caller env req s tid t o s' :
  body req !! "ticketId" = Some tid →
  tickets s !! tid = Some t →
  ticket_isScanned t = true →
  run (post_organizer_scan env req) s = (o, s') →
  s' = s ∧ ∀ st, o ≠ Scanned st.
Proof.
  intros Hb Ht Hs Hrun.
  destruct (scan_cases _ _ _ _ _ Hrun) as [?|(tid' & t' & [_ Hb'] & Ht' & Hs' & _)]; [done|].
  congruence.
Qed.

(** ** [POST /api/bookings], case by case *)

Lemma student_books_auth env req s student eid :
  student_books env req s student eid →
  ∃ user, authenticateToken env req s = (Next user, s) ∧
          student_findUnique (claims_id user) s = (Next (Some student), s).
Proof.
  intros [(user & Hc & Hst) _]. exists user. unfold caller in Hc.
  unfold authenticateToken. destruct (bearer req); [|done].
  rewrite Hc. split; [done|]. unfold_handler. by rewrite Hst.
Qed.

Lemma books_rejected env req s student eid :
  student_books env req s student eid →
  rejects env BookingCreate = true →
  run (post_bookings env req) s = (Unhandled (StoreRejected BookingCreate), s).
Proof.
  intros Hreq Hrej. destruct (student_books_auth _ _ _ _ _ Hreq) as (user & Ha & Hst).
  destruct Hreq as [_ Hb].
  unfold run, post_bookings, bind. rewrite Ha, Hst, Hb. simpl.
  unfold_handler. by rewrite Hrej.
Qed.

Lemma books_accepted env req s student eid :
  student_books env req s student eid →
  rejects env BookingCreate = false →
  bookings s !! newId env BookingCreate = None →
  rejects env TicketCreate = false →
  tickets s !! newId env TicketCreate = None →
  run (post_bookings env req) s =
    (Booked (booking_row env student eid) (ticket_row env),
     ticketed_store env (booked_store env student eid s)).
Proof.
  intros Hreq Hb1 Hb2 Ht1 Ht2.
  destruct (student_books_auth _ _ _ _ _ Hreq) as (user & Ha & Hst).
  destruct Hreq as [_ Hb].
  unfold run, post_bookings, bind. rewrite Ha, Hst, Hb. simpl.
  unfold_handler. rewrite Hb1, Hb2. simpl. by rewrite Ht1, Ht2.
Qed.

Lemma books_ticket_fails env req s student eid :
  student_books env req s student eid →
  rejects env BookingCreate = false →
  bookings s !! newId env BookingCreate = None →
  rejects env TicketCreate = true ∨ is_Some (tickets s !! newId env TicketCreate) →
  ∃ e, (e = StoreRejected TicketCreate ∨ e = UniqueViolation TicketCreate) ∧
       run (post_bookings env req) s = (Unhandled e, booked_store env student eid s).
Proof.
  intros Hreq Hb1 Hb2 Hfail.
  destruct (student_books_auth _ _ _ _ _ Hreq) as (user & Ha & Hst).
  destruct Hreq as [_ Hb].
  unfold run, post_bookings, bind. rewrite Ha, Hst, Hb. simpl.
  unfold_handler. rewrite Hb1, Hb2. simpl.
  destruct (rejects env TicketCreate) eqn:Hr.
  - exists (StoreRejected TicketCreate). eauto.
  - destruct Hfail as [?|[t Ht]]; [done|]. rewrite Ht.
    exists (UniqueViolation TicketCreate). eauto.
Qed.

(** Every way a booking request can end, for any request. *)
Lemma books_cases env req s o s' :
  run (post_bookings env req) s = (o, s') →
  (s' = s ∧ ∀ b t, o ≠ Booked b t) ∨
  ∃ student eid,
    student_books env req s student eid ∧
    bookings s !! newId env BookingCreate = None ∧
    ((s' = booked_store env student eid s ∧ ∃ e, o = Unhandled e) ∨
     (tickets s !! newId env TicketCreate = None ∧
      s' = ticketed_store env (booked_store env student eid s) ∧
      o = Booked (booking_row env student eid) (ticket_row env))).
Proof.
  unfold run, post_bookings, bind, student_books, caller, authenticateToken.
  destruct (bearer req) as [tok|]; simpl; [|intros [= <- <-]; by left].
  destruct (jwt_verify tok (JWT_SECRET env)) as [user|]; simpl;
    [|intros [= <- <-]; by left].
  unfold student_findUnique, bind, get_store, ret. simpl.
  destruct (head (findMany _ (students s))) as [student|] eqn:Hst; simpl;
    [|intros [= <- <-]; by left].
  unfold booking_create.
  destruct (body req !! "eventId") as [eid|]; simpl; [|intros [= <- <-]; by left].
  unfold_handler.
  destruct (rejects env BookingCreate); simpl; [intros [= <- <-]; by left|].
  destruct (bookings s !! newId env BookingCreate) eqn:Hb; simpl;
    [intros [= <- <-]; by left|].
  intros H. right. exists student, eid. split_and!; eauto.
  destruct (rejects env TicketCreate); simpl in H;
    [injection H as <- <-; left; eauto|].
  destruct (tickets s !! newId env TicketCreate) eqn:Ht; simpl in H;
    [injection H as <- <-; left; eauto|].
  injection H as <- <-. by right.
Qed.

(** ** [POST /api/auth/guest], case by case *)

Lemma guest_cases env req s :
  run (post_auth_guest env req) s =
    if rejects env UserCreate then (Unhandled (StoreRejected UserCreate), s)
    else match users s !! newId env UserCreate with
         | Some _ => (Unhandled (UniqueViolation UserCreate), s)
         | None =>
             (Replied (Json 200 (AuthBody
                (jwt_sign (mkClaims (newId env UserCreate) "GUEST") (JWT_SECRET env) (now env))
                (mkUser (newId env UserCreate) "GUEST" None))),
              set_users (insert (newId env UserCreate)
                                (mkUser (newId env UserCreate) "GUEST" None)) s)
         end.
Proof.
  unfold_handler. destruct (rejects env UserCreate); [done|].
  by destruct (users s !! newId env UserCreate).
Qed.

(** The stats handler only reads. *)
Lemma stats_reads env req s : (run (get_organizer_stats env req) s).2 = s.
Proof.
  unfold_handler. destruct (bearer req); [|done].
  destruct (jwt_verify _ _); [|done]. simpl.
  by destruct (head _).
Qed.

(** ** Counting rows *)

Lemma count_empty {A} (P : A → bool) : count P (∅ : gmap string A) = 0.
Proof. unfold count, findMany. by rewrite map_to_list_empty. Qed.

Lemma count_insert_fresh {A} (P : A → bool) (m : gmap string A) k v :
  m !! k = None → count P (<[k:=v]> m) = indicator (P v) + count P m.
Proof.
  intros Hk. unfold count, findMany.
  rewrite map_to_list_insert by done. rewrite fmap_cons, filter_cons. simpl.
  by destruct (P v).
Qed.

Lemma count_insert_over {A} (P : A → bool) (m : gmap string A) k v v' :
  m !! k = Some v →
  count P (<[k:=v']> m) + indicator (P v) = count P m + indicator (P v').
Proof.
  intros Hk. rewrite <-(insert_delete_id m k v) at 2 by done.
  rewrite <-(insert_delete_eq m k v').
  rewrite !count_insert_fresh by apply lookup_delete_eq. lia.
Qed.

Lemma count_mono {A} (P Q : A → bool) (m : gmap string A) :
  (∀ k v, m !! k = Some v → P v = true → Q v = true) →
  (count P m ≤ count Q m)%nat.
Proof.
  induction m as [|k v m Hk IH] using map_ind; intros HPQ.
  - by rewrite !count_empty.
  - rewrite !count_insert_fresh by done.
    assert (count P m ≤ count Q m)%nat as Hle.
    { apply IH. intros k' v' Hk' HP. apply (HPQ k'); [|done].
      rewrite lookup_insert_ne by congruence. done. }
    assert (P v = true → Q v = true) as Hv.
    { apply (HPQ k). by rewrite lookup_insert_eq. }
    destruct (P v), (Q v); simpl; try lia.
Qed.

Lemma count_ext {A} (P Q : A → bool) (m : gmap string A) :
  (∀ k v, m !! k = Some v → P v = Q v) →
  count P m = count Q m.
Proof.
  intros HPQ. apply Nat.le_antisymm; apply count_mono; intros k v Hk.
  - by rewrite (HPQ k v Hk).
  - by rewrite (HPQ k v Hk).
Qed.

Lemma count_none {A} (P : A → bool) (m : gmap string A) :
  (∀ k v, m !! k = Some v → P v = false) → count P m = 0.
Proof.
  intros HP. rewrite (count_ext P (λ _, false)) by exact HP. clear HP.
  induction m as [|k v m Hk IH] using map_ind.
  - by rewrite count_empty.
  - rewrite count_insert_fresh by done. by rewrite IH.
Qed.

(** Exactly one row satisfies [P] when one does and any two that do share
    their key. *)
Lemma count_unique {A} (P : A → bool) (m : gmap string A) k v :
  m !! k = Some v → P v = true →
  (∀ k' v', m !! k' = Some v' → P v' = true → k' = k) →
  count P m = 1.
Proof.
  intros Hk HP Huniq. rewrite <-(insert_delete_id m k v) by done.
  rewrite count_insert_fresh by apply lookup_delete_eq.
  rewrite HP, count_none; [done|].
  intros k' v' Hk'. destruct (P v') eqn:HP'; [|done].
  apply lookup_delete_Some in Hk' as [Hne Hk'].
  by destruct Hne; symmetry; apply (Huniq k' v').
Qed.

(** ** Ticket codes *)

Lemma pretty_N_go_dash_free x s :
  dash_free s = true → dash_free (pretty_N_go x s) = true.
Proof.
  revert s. induction (N.lt_wf_0 x) as [x _ IH]; intros s Hs.
  assert (x = 0 ∨ 0 < x)%N as [->|?] by lia.
  - by rewrite pretty_N_go_0.
  - rewrite pretty_N_go_step by done. apply IH.
    { by apply N.div_lt. }
    simpl. rewrite Hs. unfold pretty_N_char. by repeat case_match.
Qed.

Lemma pretty_N_dash_free (n : N) : dash_free (pretty n) = true.
Proof.
  unfold pretty, pretty_N. case_decide; [done|].
  by apply pretty_N_go_dash_free.
Qed.

Lemma dash_free_dash x d : dash_free (x +:+ String "-"%char d) = false.
Proof.
  induction x as [|c x IH]; simpl; [done|].
  rewrite IH. apply andb_false_r.
Qed.

(** The booking id is what precedes the last dash. *)
Lemma dash_split x y d e :
  dash_free d = true → dash_free e = true →
  x +:+ "-" +:+ d = y +:+ "-" +:+ e → x = y.
Proof.
  intros Hd He. revert y. induction x as [|c x IH]; intros [|c' y]; simpl.
  - done.
  - intros [= _ Heq]. change ("" +:+ d) with d in Heq. rewrite Heq in Hd.
    change ("-" +:+ e) with (String "-"%char e) in Hd.
    by rewrite dash_free_dash in Hd.
  - intros [= _ Heq]. change ("" +:+ e) with e in Heq. rewrite <-Heq in He.
    change ("-" +:+ d) with (String "-"%char d) in He.
    by rewrite dash_free_dash in He.
  - intros [= -> H]. f_equal. by apply IH.
Qed.

Lemma qrCode_inj b1 b2 ms1 ms2 : qrCode b1 ms1 = qrCode b2 ms2 → b1 = b2.
Proof.
  unfold qrCode. simpl. intros [= H].
  eapply dash_split; [| |exact H]; apply pretty_N_dash_free.
Qed.

(** ** The handlers keep the store consistent *)

Lemma consistent_empty : consistent empty_store.
Proof.
  constructor; simpl; done.
Qed.

Lemma consistent_tables s s' :
  bookings s' = bookings s → tickets s' = tickets s → attendance s' = attendance s →
  consistent s → consistent s'.
Proof.
  destruct s, s'; simpl. intros -> -> -> [H1 H2 H3 H4 H5].
  constructor; [exact H1|exact H2|exact H3|exact H4|exact H5].
Qed.

Lemma event_of_mark_scanned env s t : event_of s (mark_scanned env t) = event_of s t.
Proof. done. Qed.

(** Marking a ticket as scanned adds it to the scanned tickets of its
    event. *)
Lemma count_scanned_store env s tid t (P : string → bool) :
  tickets s !! tid = Some t → ticket_isScanned t = false →
  count (λ t', ticket_isScanned t' && P (event_of s t'))
        (<[tid := mark_scanned env t]> (tickets s))
  = count (λ t', ticket_isScanned t' && P (event_of s t')) (tickets s)
    + indicator (P (event_of s t)).
Proof.
  intros Ht Hs.
  pose proof (count_insert_over (λ t', ticket_isScanned t' && P (event_of s t'))
                (tickets s) tid t (mark_scanned env t) Ht) as H.
  simpl in H. rewrite Hs in H. simpl in H.
  rewrite event_of_mark_scanned in H. lia.
Qed.

Lemma consistent_scanned env s tid t :
  consistent s → tickets s !! tid = Some t → ticket_isScanned t = false →
  consistent (scanned_store env tid t s).
Proof.
  intros [H1 H2 H3 H4 H5] Ht Hs. constructor; simpl.
  - intros k t'. rewrite lookup_insert. case_decide.
    + intros [= <-]. exact (H1 tid t Ht).
    + apply H1.
  - intros k1 k2 t1 t2. rewrite !lookup_insert.
    repeat case_decide; subst; intros; simplify_eq/=; eauto.
  - intros k t'. rewrite lookup_insert. case_decide.
    + intros [= <-]. exact (H3 tid t Ht).
    + apply H3.
  - intros P. change (event_of (scanned_store env tid t s)) with (event_of s).
    rewrite count_scanned_store by done. specialize (H4 P). lia.
  - intros P. change (event_of (scanned_store env tid t s)) with (event_of s).
    pose proof (count_insert_over (λ t', P (event_of s t'))
                  (tickets s) tid t (mark_scanned env t) Ht) as H.
    simpl in H. rewrite event_of_mark_scanned in H. specialize (H5 P). lia.
Qed.

Lemma consistent_attended env s tid t b :
  consistent s → tickets s !! tid = Some t → ticket_isScanned t = false →
  bookings s !! ticket_bookingId t = Some b →
  attendance s !! newId env AttendanceCreate = None →
  consistent (attended_store env b (scanned_store env tid t s)).
Proof.
  intros Hc Ht Hs Hb Ha.
  destruct (consistent_scanned env s tid t Hc Ht Hs) as [H1 H2 H3 _ H5].
  constructor; [exact H1|exact H2|exact H3| |exact H5].
  intros P. simpl.
  change (event_of (attended_store env b (scanned_store env tid t s))) with (event_of s).
  rewrite count_scanned_store, count_insert_fresh by done. simpl.
  assert (event_of s t = booking_eventId b) as -> by (unfold event_of; by rewrite Hb).
  pose proof (attendance_scanned s Hc P). lia.
Qed.

Lemma event_of_booked env s student eid t k :
  consistent s → bookings s !! newId env BookingCreate = None →
  tickets s !! k = Some t →
  event_of (booked_store env student eid s) t = event_of s t.
Proof.
  intros Hc Hb Ht. unfold event_of. simpl.
  destruct (ticket_has_booking s Hc k t Ht) as [b Hbk].
  rewrite lookup_insert_ne; [done|]. congruence.
Qed.

Lemma consistent_booked env s student eid :
  consistent s → bookings s !! newId env BookingCreate = None →
  consistent (booked_store env student eid s).
Proof.
  intros Hc Hb. pose proof Hc as [H1 H2 H3 H4 H5]. constructor; simpl.
  - intros k t Ht. destruct (H1 k t Ht) as [b Hbk].
    exists b. rewrite lookup_insert_ne; [done|]. congruence.
  - exact H2.
  - exact H3.
  - intros P. etrans; [apply H4|]. apply Nat.eq_le_incl, count_ext.
    intros k t Ht. by rewrite (event_of_booked env s student eid t k).
  - intros P. rewrite count_insert_fresh by done.
    rewrite (count_ext _ (λ t, P (event_of s t))).
    { specialize (H5 P). lia. }
    intros k t Ht. by rewrite (event_of_booked env s student eid t k).
Qed.

Lemma consistent_ticketed env s student eid :
  consistent s → bookings s !! newId env BookingCreate = None →
  tickets s !! newId env TicketCreate = None →
  consistent (ticketed_store env (booked_store env student eid s)).
Proof.
  intros Hc Hb Ht.
  set (s1 := booked_store env student eid s).
  pose proof (consistent_booked env s student eid Hc Hb) as [H1 H2 H3 H4 H5].
  fold s1 in H1, H2, H3, H4, H5.
  assert (∀ k t, tickets s !! k = Some t →
                 ticket_bookingId t ≠ newId env BookingCreate) as Hold.
  { intros k t Hk Heq. destruct (ticket_has_booking s Hc k t Hk) as [b Hbk].
    congruence. }
  assert (event_of s1 (ticket_row env) = eid) as Hnew.
  { unfold event_of, s1. simpl. by rewrite lookup_insert_eq. }
  constructor; simpl.
  - intros k t. rewrite lookup_insert. case_decide.
    + intros [= <-]. simpl. rewrite lookup_insert_eq. eauto.
    + apply H1.
  - intros k1 k2 t1 t2. rewrite !lookup_insert. repeat case_decide.
    + intros _ _ _. congruence.
    + intros [= <-] Hk2 Heq. exfalso. by apply (Hold k2 t2 Hk2).
    + intros Hk1 [= <-] Heq. exfalso. by apply (Hold k1 t1 Hk1).
    + apply H2.
  - intros k t. rewrite lookup_insert. case_decide.
    + intros [= <-]. simpl. eauto.
    + apply H3.
  - intros P. change (event_of (ticketed_store env s1)) with (event_of s1).
    rewrite count_insert_fresh by done. simpl. apply H4.
  - intros P. change (event_of (ticketed_store env s1)) with (event_of s1).
    rewrite !count_insert_fresh by done. rewrite Hnew. simpl.
    rewrite (count_ext _ (λ t, P (event_of s t))).
    { pose proof (tickets_booked s Hc P). lia. }
    intros k t Hk. unfold s1. by rewrite (event_of_booked env s student eid t k).
Qed.

Lemma consistent_serve1 c s : consistent s → consistent (serve1 s c).
Proof.
  intros Hc. unfold serve1, handle.
  destruct (call_route c).
  - destruct (run (post_organizer_scan _ _) s) as [o s'] eqn:Hrun. simpl.
    apply scan_cases in Hrun
      as [[-> _]|(tid & t & _ & Ht & Hs & [[-> _]|(b & Hb & Ha & -> & _)])].
    + done.
    + by apply consistent_scanned.
    + by apply consistent_attended.
  - rewrite guest_cases. destruct (rejects _ _); [done|].
    destruct (users s !! _); [done|]. simpl.
    by apply (consistent_tables s).
  - destruct (run (post_bookings _ _) s) as [o s'] eqn:Hrun. simpl.
    apply books_cases in Hrun
      as [[-> _]|(st & eid & _ & Hb & [[-> _]|(Ht & -> & _)])].
    + done.
    + by apply consistent_booked.
    + by apply consistent_ticketed.
  - by rewrite stats_reads.
Qed.

Lemma consistent_serve calls s : consistent s → consistent (serve calls s).
Proof.
  revert s. induction calls as [|c calls IH]; intros s Hc; simpl; [done|].
  by apply IH, consistent_serve1.
Qed.

(** ** Tickets persist *)

Lemma tickets_persist_refl s : tickets_persist s s.
Proof. intros k t Ht. by exists t. Qed.

Lemma tickets_persist_trans s1 s2 s3 :
  tickets_persist s1 s2 → tickets_persist s2 s3 → tickets_persist s1 s3.
Proof.
  intros H12 H23 k t Ht.
  destruct (H12 k t Ht) as (t' & Ht' & Hi & Hb & Hq).
  destruct (H23 k t' Ht') as (t'' & Ht'' & Hi' & Hb' & Hq').
  exists t''. split_and!; congruence.
Qed.

Lemma tickets_persist_serve1 c s : tickets_persist s (serve1 s c).
Proof.
  unfold serve1, handle.
  destruct (call_route c).
  - destruct (run (post_organizer_scan _ _) s) as [o s'] eqn:Hrun. simpl.
    assert (∀ tid t, tickets s !! tid = Some t →
              tickets_persist s (scanned_store (call_env c) tid t s)) as Hscan.
    { intros tid t Ht k t' Hk. simpl. rewrite lookup_insert. case_decide.
      - subst. exists (mark_scanned (call_env c) t). by simplify_eq/=.
      - by exists t'. }
    apply scan_cases in Hrun
      as [[-> _]|(tid & t & _ & Ht & Hs & [[-> _]|(b & Hb & Ha & -> & _)])].
    + apply tickets_persist_refl.
    + by apply Hscan.
    + by apply Hscan.
  - rewrite guest_cases.
    destruct (rejects _ _); [|destruct (users s !! _)]; intros k t Hk; by exists t.
  - destruct (run (post_bookings _ _) s) as [o s'] eqn:Hrun. simpl.
    apply books_cases in Hrun
      as [[-> _]|(st & eid & _ & Hb & [[-> _]|(Ht & -> & _)])].
    + apply tickets_persist_refl.
    + intros k t Hk. by exists t.
    + intros k t Hk. exists t. simpl. rewrite lookup_insert_ne; [done|]. congruence.
  - rewrite stats_reads. apply tickets_persist_refl.
Qed.

Lemma tickets_persist_serve calls s : tickets_persist s (serve calls s).
Proof.
  revert s. induction calls as [|c calls IH]; intros s; simpl.
  - apply tickets_persist_refl.
  - eapply tickets_persist_trans; [apply tickets_persist_serve1|apply IH].
Qed.

(** In a consistent store no two tickets carry the same code. *)
Lemma consistent_codes_distinct s k1 k2 t1 t2 :
  consistent s →
  tickets s !! k1 = Some t1 → tickets s !! k2 = Some t2 →
  ticket_qrCode t1 = ticket_qrCode t2 → k1 = k2.
Proof.
  intros Hc H1 H2 Hq.
  destruct (ticket_code s Hc k1 t1 H1) as [ms1 Hq1].
  destruct (ticket_code s Hc k2 t2 H2) as [ms2 Hq2].
  apply (ticket_per_booking s Hc k1 k2 t1 t2 H1 H2).
  apply (qrCode_inj _ _ ms1 ms2). congruence.
Qed.

(** * The attendance scanner *)

(** C1: a scan of a ticket that is already scanned is answered "Ticket
    already scanned" (status 400) when the caller is an organizer, and
    whoever the caller is it writes nothing: no Attendance row is created and
    the ticket is left as it was.  Hence, when a scan of a ticket succeeds,
    the next scan of the same ticket is rejected with "Ticket already
    scanned" and changes nothing: after the two calls the ticket has been
    marked once, by the first call, and the attendance table has gained
    exactly one row. *)
Theorem scan_exactly_once env req s tid :
  organizer_scans env req tid →
  (∀ t, tickets s !! tid = Some t → ticket_isScanned t = true →
     run (post_organizer_scan env req) s = (AlreadyScanned, s) ∧
     ∀ env' req' o s',
       body req' !! "ticketId" = Some tid →
       run (post_organizer_scan env' req') s = (o, s') →
       s' = s ∧ ∀ st, o ≠ Scanned st) ∧
  (∀ st s1 env2 req2,
     run (post_organizer_scan env req) s = (Scanned st, s1) →
     organizer_scans env2 req2 tid →
     ∃ t b,
       tickets s !! tid = Some t ∧ ticket_isScanned t = false ∧
       bookings s !! ticket_bookingId t = Some b ∧
       attendance s !! newId env AttendanceCreate = None ∧
       run (post_organizer_scan env2 req2) s1 = (AlreadyScanned, s1) ∧
       tickets s1 = <[tid := mark_scanned env t]> (tickets s) ∧
       attendance s1 =
         <[newId env AttendanceCreate := attendance_row env b]> (attendance s) ∧
       size (attendance s1) = S (size (attendance s))).
Proof.
  intros Hreq. split.
  - intros t Ht Hs. split; [by apply (scan_scanned env req s tid t)|].
    intros env' req' o s' Hb Hrun.
    by apply (scan_scanned_any_caller env' req' s tid t o s').
  - intros st s1 env2 req2 Hrun Hreq2.
    apply scan_cases in Hrun
      as [[_ Hne]|(tid' & t & Hreq' & Ht & Hs & [[_ Hne]|(b & Hb & Ha & -> & _)])].
    + by destruct (Hne st).
    + by destruct (Hne st).
    + rewrite <-(organizer_scans_ticketId env req tid tid' Hreq Hreq') in *.
      exists t, b. split_and!; try done.
      * apply (scan_scanned env2 req2 _ tid (mark_scanned env t)); [done| |done].
        simpl. by rewrite lookup_insert_eq.
      * simpl. by apply map_size_insert_None.
Qed.

(** C2: for a ticket that exists and is not yet scanned, whose booking
    exists, a scan by a caller with the ORGANIZER role succeeds when the
    store accepts the two writes: the ticket's flag is set to true and its
    timestamp to the clock, exactly one Attendance row is added, carrying
    the studentId and the eventId of the ticket's booking, and the reply is
    success with the student of the booking. *)
Theorem scan_unscanned_succeeds env req s tid t b :
  organizer_scans env req tid →
  tickets s !! tid = Some t →
  ticket_isScanned t = false →
  bookings s !! ticket_bookingId t = Some b →
  rejects env TicketUpdate = false →
  rejects env AttendanceCreate = false →
  attendance s !! newId env AttendanceCreate = None →
  ∃ s',
    run (post_organizer_scan env req) s
      = (Replied (Json 200 (ScanBody true (students s !! booking_studentId b))), s') ∧
    tickets s' =
      <[tid := mkTicket (ticket_id t) (ticket_bookingId t) (ticket_qrCode t)
                        true (Some (now env))]> (tickets s) ∧
    attendance s' =
      <[newId env AttendanceCreate :=
          mkAttendance (newId env AttendanceCreate)
                       (booking_studentId b) (booking_eventId b)]> (attendance s) ∧
    size (attendance s') = S (size (attendance s)) ∧
    bookings s' = bookings s ∧ events s' = events s ∧
    students s' = students s ∧ organizers s' = organizers s ∧ users s' = users s.
Proof.
  intros Hreq Ht Hs Hb Hu Hc Ha.
  exists (attended_store env b (scanned_store env tid t s)).
  split; [by apply scan_unscanned|].
  split_and!; try done. simpl. by apply map_size_insert_None.
Qed.

(** C9 (as amended): the scanner identifies the ticket by its primary key,
    the [ticketId] of the body, and never reads the code minted at booking
    time.  A scan that presents a string that is the id of no ticket is
    answered "Ticket not found", also when that string is the code of a
    ticket; a scan that presents the id of an unscanned ticket succeeds; and
    the id is the one the booking reply carries as [ticket.id]. *)
Theorem scan_looks_up_by_id env req s token :
  organizer_scans env req token →
  (tickets s !! token = None →
     run (post_organizer_scan env req) s = (TicketNotFound, s)) ∧
  (∀ t b,
     tickets s !! token = Some t → ticket_isScanned t = false →
     bookings s !! ticket_bookingId t = Some b →
     rejects env TicketUpdate = false →
     rejects env AttendanceCreate = false →
     attendance s !! newId env AttendanceCreate = None →
     (run (post_organizer_scan env req) s).1
       = Scanned (students s !! booking_studentId b)) ∧
  (∀ env0 req0 s0 b t,
     run (post_bookings env0 req0) s0 = (Booked b t, s) →
     tickets s !! ticket_id t = Some t ∧
     ticket_qrCode t = qrCode (booking_id b) (now env0)).
Proof.
  intros Hreq. split_and!.
  - by apply scan_not_found.
  - intros t b Ht Hs Hb Hu Hc Ha.
    by rewrite (scan_unscanned env req s token t b).
  - intros env0 req0 s0 b t Hrun.
    apply books_cases in Hrun
      as [[_ Hne]|(st & eid & _ & Hb & [[_ [e [=]]]|(Ht & -> & [= -> ->])])].
    + by destruct (Hne b t).
    + simpl. by rewrite lookup_insert_eq.
Qed.

(** * Guest authentication *)

(** C10: the guest handler never reads the request: whatever the body
    holds, the only row it can add to the users table has the role GUEST,
    the only reply it can send carries that user and a token whose payload
    has the user's id and the role GUEST, and it sends it whenever the
    store accepts the insert. *)
Theorem guest_role_is_GUEST env req s :
  (∀ req', run (post_auth_guest env req') s = run (post_auth_guest env req) s) ∧
  (∀ r s',
     run (post_auth_guest env req) s = (Replied r, s') →
     ∃ token user,
       r = Json 200 (AuthBody token user) ∧
       user_role user = "GUEST" ∧
       jwt_payload token = mkClaims (user_id user) "GUEST" ∧
       users s !! user_id user = None ∧
       users s' = <[user_id user := user]> (users s)) ∧
  (∀ o s' k u,
     run (post_auth_guest env req) s = (o, s') →
     users s' !! k = Some u → users s !! k = Some u ∨ user_role u = "GUEST") ∧
  (rejects env UserCreate = false →
   users s !! newId env UserCreate = None →
   ∃ token user s',
     run (post_auth_guest env req) s = (Replied (Json 200 (AuthBody token user)), s')).
Proof.
  split_and!.
  - intros req'. by rewrite !guest_cases.
  - intros r s'. rewrite guest_cases.
    destruct (rejects env UserCreate); [done|].
    destruct (users s !! newId env UserCreate) eqn:Hu; [done|].
    intros [= <- <-]. eexists _, _. split; [done|]. by split_and!.
  - intros o s' k u. rewrite guest_cases.
    destruct (rejects env UserCreate); [intros [= <- <-]; by left|].
    destruct (users s !! newId env UserCreate) eqn:Hu; [intros [= <- <-]; by left|].
    intros [= <- <-]. simpl. rewrite lookup_insert. case_decide.
    + intros [= <-]. by right.
    + by left.
  - intros Hr Hu. rewrite guest_cases, Hr, Hu. by eexists _, _, _.
Qed.

(** * The booking issuer *)

Lemma books_booked_inv env req s b t s' :
  run (post_bookings env req) s = (Booked b t, s') →
  ∃ student eid,
    student_books env req s student eid ∧
    bookings s !! newId env BookingCreate = None ∧
    tickets s !! newId env TicketCreate = None ∧
    b = booking_row env student eid ∧ t = ticket_row env ∧
    s' = ticketed_store env (booked_store env student eid s).
Proof.
  intros Hrun. apply books_cases in Hrun
    as [[_ Hne]|(st & eid & Hreq & Hb & [[_ [e [=]]]|(Ht & -> & [= -> ->])])].
  - by destruct (Hne b t).
  - by exists st, eid.
Qed.

(** A caller with a Student profile gets the booking or an escaped
    exception, never an error reply. *)
Lemma books_student_outcomes env req s student eid o s' :
  student_books env req s student eid →
  run (post_bookings env req) s = (o, s') →
  (∃ b t, o = Booked b t) ∨ (∃ e, o = Unhandled e).
Proof.
  intros Hreq. destruct (student_books_auth _ _ _ _ _ Hreq) as (user & Ha & Hst).
  destruct Hreq as [_ Hb].
  unfold run, post_bookings, bind. rewrite Ha, Hst, Hb. simpl.
  unfold_handler.
  destruct (rejects env BookingCreate); [intros [= <- <-]; eauto|].
  destruct (bookings s !! _); simpl; [intros [= <- <-]; eauto|].
  destruct (rejects env TicketCreate); [intros [= <- <-]; eauto|].
  destruct (tickets s !! _); simpl; intros [= <- <-]; eauto.
Qed.

(** The booking handler never reads the events table. *)
Lemma books_ignores_events env req s f :
  run (post_bookings env req) (set_events f s) =
    ((run (post_bookings env req) s).1, set_events f (run (post_bookings env req) s).2).
Proof.
  unfold_handler. destruct (bearer req); [|done].
  destruct (jwt_verify _ _); [|done]. simpl.
  destruct (head _); [|done].
  destruct (body req !! "eventId"); [|done]. simpl.
  destruct (rejects env BookingCreate); [done|].
  destruct (bookings s !! _); [done|]. simpl.
  destruct (rejects env TicketCreate); [done|].
  by destruct (tickets s !! _).
Qed.

Lemma consistent_one_ticket s k t :
  consistent s → tickets s !! k = Some t →
  count (λ t', bool_decide (ticket_bookingId t' = ticket_bookingId t)) (tickets s) = 1.
Proof.
  intros Hc Ht. apply (count_unique _ _ k t); [done|by apply bool_decide_eq_true|].
  intros k' t' Ht' Heq. apply bool_decide_eq_true in Heq.
  by apply (ticket_per_booking s Hc k' k t' t).
Qed.

(** C3 (as amended): the booking and its ticket are two inserts with
    nothing that undoes the first: when the insert of the booking is
    accepted and the insert of the ticket fails, the exception escapes the
    handler, no reply is sent, and the booking row stays in the store, with
    the tickets table untouched, so that (in a consistent store) no ticket
    refers to it. *)
Theorem booking_not_rolled_back env req s student eid :
  student_books env req s student eid →
  rejects env BookingCreate = false →
  bookings s !! newId env BookingCreate = None →
  rejects env TicketCreate = true ∨ is_Some (tickets s !! newId env TicketCreate) →
  ∃ e s',
    run (post_bookings env req) s = (Unhandled e, s') ∧
    (e = StoreRejected TicketCreate ∨ e = UniqueViolation TicketCreate) ∧
    bookings s' = <[newId env BookingCreate :=
                      mkBooking (newId env BookingCreate) (student_id student) eid "PAID"]>
                    (bookings s) ∧
    tickets s' = tickets s ∧
    (consistent s →
     count (λ t, bool_decide (ticket_bookingId t = newId env BookingCreate)) (tickets s') = 0).
Proof.
  intros Hreq Hb1 Hb2 Hfail.
  destruct (books_ticket_fails env req s student eid Hreq Hb1 Hb2 Hfail) as (e & He & Hrun).
  exists e, (booked_store env student eid s). split_and!; try done.
  intros Hc. simpl. apply count_none. intros k t Ht.
  apply bool_decide_eq_false. intros Heq.
  destruct (ticket_has_booking s Hc k t Ht) as [b Hb]. congruence.
Qed.

(** C4 (as amended): the booking handler never looks the event up.  For a
    caller with a Student profile and an [eventId] that references no event,
    it sends no error reply: if the store rejects the insert of the booking,
    the exception escapes the handler and neither row is created; if the
    store accepts both inserts, the booking, carrying that [eventId], and
    its ticket are created and returned. *)
Theorem booking_event_unchecked env req s student eid :
  student_books env req s student eid →
  events s !! eid = None →
  (rejects env BookingCreate = true →
     run (post_bookings env req) s = (Unhandled (StoreRejected BookingCreate), s)) ∧
  (rejects env BookingCreate = false →
   bookings s !! newId env BookingCreate = None →
   rejects env TicketCreate = false →
   tickets s !! newId env TicketCreate = None →
   ∃ s',
     run (post_bookings env req) s =
       (Booked (mkBooking (newId env BookingCreate) (student_id student) eid "PAID")
               (ticket_row env), s') ∧
     bookings s' !! newId env BookingCreate
       = Some (mkBooking (newId env BookingCreate) (student_id student) eid "PAID") ∧
     tickets s' !! newId env TicketCreate = Some (ticket_row env)) ∧
  (∀ o s', run (post_bookings env req) s = (o, s') →
     (∃ b t, o = Booked b t) ∨ (∃ e, o = Unhandled e)) ∧
  (∀ f, run (post_bookings env req) (set_events f s) =
          ((run (post_bookings env req) s).1,
           set_events f (run (post_bookings env req) s).2)).
Proof.
  intros Hreq _. split_and!.
  - by apply (books_rejected env req s student eid).
  - intros Hb1 Hb2 Ht1 Ht2.
    exists (ticketed_store env (booked_store env student eid s)).
    split; [by apply books_accepted|]. simpl. by rewrite !lookup_insert_eq.
  - intros o s'. by apply (books_student_outcomes env req s student eid).
  - apply books_ignores_events.
Qed.

(** C5: the booking handler has no capacity check.  For a caller with a
    Student profile and any event, when the store accepts the two inserts
    the booking is accepted and a ticket is minted, however many bookings
    the event already has: the number of bookings of the event grows by one,
    also when it had reached the capacity of the event, and it then exceeds
    the capacity.  Whatever the store does, the caller gets no error reply. *)
Theorem booking_ignores_capacity env req s student eid :
  student_books env req s student eid →
  rejects env BookingCreate = false →
  bookings s !! newId env BookingCreate = None →
  rejects env TicketCreate = false →
  tickets s !! newId env TicketCreate = None →
  ∃ b t s',
    run (post_bookings env req) s = (Booked b t, s') ∧
    booking_eventId b = eid ∧ ticket_bookingId t = booking_id b ∧
    bookings s' !! booking_id b = Some b ∧ tickets s' !! ticket_id t = Some t ∧
    count (λ b', bool_decide (booking_eventId b' = eid)) (bookings s')
      = S (count (λ b', bool_decide (booking_eventId b' = eid)) (bookings s)) ∧
    (∀ ev, events s !! eid = Some ev →
       (event_capacity ev
          ≤ Z.of_nat (count (λ b', bool_decide (booking_eventId b' = eid)) (bookings s)))%Z →
       (event_capacity ev
          < Z.of_nat (count (λ b', bool_decide (booking_eventId b' = eid)) (bookings s')))%Z) ∧
    (∀ env' o s'', run (post_bookings env' req) s = (o, s'') →
       student_books env' req s student eid →
       (∃ b' t', o = Booked b' t') ∨ (∃ e, o = Unhandled e)).
Proof.
  intros Hreq Hb1 Hb2 Ht1 Ht2.
  exists (booking_row env student eid), (ticket_row env),
         (ticketed_store env (booked_store env student eid s)).
  assert (count (λ b', bool_decide (booking_eventId b' = eid))
                (bookings (ticketed_store env (booked_store env student eid s)))
          = S (count (λ b', bool_decide (booking_eventId b' = eid)) (bookings s))) as Hcount.
  { simpl. rewrite count_insert_fresh by done. simpl.
    by rewrite bool_decide_eq_true_2. }
  split_and!; try done.
  - by apply books_accepted.
  - simpl. by rewrite lookup_insert_eq.
  - simpl. by rewrite lookup_insert_eq.
  - intros ev _ Hfull. rewrite Hcount. lia.
  - intros env' o s'' Hrun Hreq'.
    by apply (books_student_outcomes env' req s student eid o s'').
Qed.

(** C6: two successful bookings, the second one made at any later point
    of the server's life, are given different ticket codes and different
    booking ids; each of the two bookings has exactly one ticket that
    refers to it, then and later; and no two tickets of the store carry the
    same code. *)
Theorem ticket_codes_unique s env1 req1 b1 t1 s1 calls env2 req2 b2 t2 s2 :
  consistent s →
  run (post_bookings env1 req1) s = (Booked b1 t1, s1) →
  run (post_bookings env2 req2) (serve calls s1) = (Booked b2 t2, s2) →
  ticket_qrCode t1 ≠ ticket_qrCode t2 ∧
  booking_id b1 ≠ booking_id b2 ∧
  ticket_bookingId t1 = booking_id b1 ∧ ticket_bookingId t2 = booking_id b2 ∧
  count (λ t, bool_decide (ticket_bookingId t = booking_id b1)) (tickets s1) = 1 ∧
  count (λ t, bool_decide (ticket_bookingId t = booking_id b1)) (tickets s2) = 1 ∧
  count (λ t, bool_decide (ticket_bookingId t = booking_id b2)) (tickets s2) = 1 ∧
  (∀ k k' t t', tickets s2 !! k = Some t → tickets s2 !! k' = Some t' →
                ticket_qrCode t = ticket_qrCode t' → k = k').
Proof.
  intros Hc Hrun1 Hrun2.
  apply books_booked_inv in Hrun1 as (st1 & e1 & _ & Hb1 & Ht1 & -> & -> & ->).
  apply books_booked_inv in Hrun2 as (st2 & e2 & _ & Hb2 & Ht2 & -> & -> & ->).
  set (s1 := ticketed_store env1 (booked_store env1 st1 e1 s)) in *.
  set (s1' := serve calls s1) in *.
  set (s2 := ticketed_store env2 (booked_store env2 st2 e2 s1')).
  assert (consistent s1) as Hc1 by by apply consistent_ticketed.
  assert (consistent s1') as Hc1' by by apply consistent_serve.
  assert (consistent s2) as Hc2 by by apply consistent_ticketed.
  assert (tickets s1 !! newId env1 TicketCreate = Some (ticket_row env1)) as Hk1.
  { unfold s1. simpl. by rewrite lookup_insert_eq. }
  destruct (tickets_persist_serve calls s1 _ _ Hk1) as (t1' & Hk1' & _ & Hbk & Hq).
  fold s1' in Hk1'.
  assert (newId env1 TicketCreate ≠ newId env2 TicketCreate) as Hne by congruence.
  assert (tickets s2 !! newId env1 TicketCreate = Some t1') as Hk12.
  { unfold s2. simpl. by rewrite lookup_insert_ne. }
  assert (tickets s2 !! newId env2 TicketCreate = Some (ticket_row env2)) as Hk2.
  { unfold s2. simpl. by rewrite lookup_insert_eq. }
  split_and!; try done.
  - intros Heq. apply Hne.
    apply (consistent_codes_distinct s2 _ _ t1' (ticket_row env2)); [done..|].
    congruence.
  - simpl. intros Heq.
    destruct (ticket_has_booking s1' Hc1' _ _ Hk1') as [b Hb].
    simpl in Hbk. congruence.
  - apply (consistent_one_ticket s1 _ (ticket_row env1) Hc1 Hk1).
  - pose proof (consistent_one_ticket s2 _ t1' Hc2 Hk12) as H.
    by rewrite Hbk in H.
  - apply (consistent_one_ticket s2 _ (ticket_row env2) Hc2 Hk2).
  - intros k k' t t'. by apply consistent_codes_distinct.
Qed.

(** * Binary64 arithmetic

    Rounding to nearest never carries a result past a bound that is itself
    a binary64 number: the facts below follow the algorithm of [SpecFloat]
    (shift the mantissa to its exponent, round on the two bits shifted out
    last, shift once more when the rounding carried). *)

Section binary64.
Local Open Scope Z_scope.

Lemma digits2_pos_bounds p :
  2 ^ (Z.pos (digits2_pos p) - 1) ≤ Z.pos p < 2 ^ Z.pos (digits2_pos p).
Proof.
  induction p as [p IH|p IH|]; simpl digits2_pos.
  - rewrite Pos2Z.inj_succ.
    replace (Z.succ (Z.pos (digits2_pos p)) - 1) with (Z.succ (Z.pos (digits2_pos p) - 1)) by lia.
    rewrite !Z.pow_succ_r by lia. lia.
  - rewrite Pos2Z.inj_succ.
    replace (Z.succ (Z.pos (digits2_pos p)) - 1) with (Z.succ (Z.pos (digits2_pos p) - 1)) by lia.
    rewrite !Z.pow_succ_r by lia. lia.
  - simpl. lia.
Qed.

Lemma shifted_1 x : shifted 1 x (shr_1 x).
Proof.
  intros Hx. destruct x as [m r s]. simpl in Hx.
  destruct m as [|p|p]; [| |lia].
  - simpl. split; [done|]. split; [done|]. unfold inexact. simpl.
    destruct r, s; simpl; split; try done; intros [? ?]; done.
  - destruct p as [p|p|]; simpl; unfold inexact; simpl.
    + split; [lia|]. split.
      { change (2 ^ 1) with 2. rewrite Pos2Z.inj_xI.
        apply (Z.div_unique _ _ _ 1); lia. }
      split; [done|]. intros [_ H]. lia.
    + split; [lia|]. split.
      { change (2 ^ 1) with 2. rewrite Pos2Z.inj_xO.
        apply (Z.div_unique _ _ _ 0); lia. }
      destruct r, s; simpl; split; try done; try (intros [? ?]; done).
    + split; [lia|]. split; [done|].
      split; [done|]. intros [_ H]. change (2 ^ 1) with 2 in H. lia.
Qed.

Lemma shifted_trans a b x y z :
  0 ≤ a → 0 ≤ b → shifted a x y → shifted b y z → shifted (a + b) x z.
Proof.
  intros Ha Hb Hxy Hyz Hx.
  destruct (Hxy Hx) as (Hy & Hym & Hyi).
  destruct (Hyz Hy) as (Hz & Hzm & Hzi).
  split; [done|].
  assert (0 < 2 ^ a) by (apply Z.pow_pos_nonneg; lia).
  assert (0 < 2 ^ b) by (apply Z.pow_pos_nonneg; lia).
  split.
  - rewrite Hzm, Hym, Z.pow_add_r by lia. rewrite Z.div_div by lia. done.
  - rewrite Hzi, Hyi, Z.pow_add_r by lia. split.
    + intros [[Hi ->] ->]. split; [done|]. ring.
    + intros [Hi Hm].
      assert (shr_m y = 2 ^ b * shr_m z) as Hy'.
      { rewrite Hym, Hm, <-Z.mul_assoc, Z.mul_comm, Z.div_mul by lia. done. }
      split; [split; [done|]|done].
      rewrite Hm, Hy'. ring.
Qed.

Lemma shifted_iter p x : shifted (Z.pos p) x (SpecFloat.iter_pos shr_1 p x).
Proof.
  revert x. induction p as [p IH|p IH|]; intros x; simpl.
  - rewrite Pos2Z.inj_xI.
    replace (2 * Z.pos p + 1) with (1 + (Z.pos p + Z.pos p)) by lia.
    apply (shifted_trans _ _ _ (shr_1 x)); [lia|lia|apply shifted_1|].
    apply (shifted_trans _ _ _ (SpecFloat.iter_pos shr_1 p (shr_1 x))); [lia|lia|apply IH|apply IH].
  - rewrite Pos2Z.inj_xO.
    replace (2 * Z.pos p) with (Z.pos p + Z.pos p) by lia.
    apply (shifted_trans _ _ _ (SpecFloat.iter_pos shr_1 p x)); [lia|lia|apply IH|apply IH].
  - apply shifted_1.
Qed.

Lemma round_nearest_even_le m l :
  m ≤ round_nearest_even m l ≤ m + (if l is loc_Exact then 0 else 1).
Proof.
  destruct l as [|[]]; simpl; try lia.
  destruct (Z.even m); lia.
Qed.

Lemma loc_of_shr_record_exact mrs :
  loc_of_shr_record mrs = loc_Exact ↔ inexact mrs = false.
Proof. destruct mrs as [m [] []]; unfold inexact; simpl; split; done. Qed.

Lemma loc_of_shr_record_of_loc m l :
  loc_of_shr_record (shr_record_of_loc m l) = l ∧ shr_m (shr_record_of_loc m l) = m.
Proof. by destruct l as [|[]]. Qed.

Lemma below_mono m m' e c k : m' ≤ m → below m e c k → below m' e c k.
Proof. intros Hm [He Hle]. split; lia. Qed.

Lemma target_below m e c k :
  0 ≤ m → 0 < c < 2 ^ 53 → -1074 ≤ k → below m e c k →
  fexp 53 1024 (Zdigits2 m + e) ≤ k.
Proof.
  intros Hm Hc Hk [He Hle]. unfold fexp, emin.
  destruct m as [|p|p]; [simpl; lia| |lia]. simpl Zdigits2.
  destruct (digits2_pos_bounds p) as [Hd _].
  assert (0 < 2 ^ (k - e)) by (apply Z.pow_pos_nonneg; lia).
  assert (2 ^ (Z.pos (digits2_pos p) - 1) < 2 ^ (53 + (k - e))) as Hlt.
  { rewrite Z.pow_add_r by lia. nia. }
  apply Z.pow_lt_mono_r_iff in Hlt; lia.
Qed.

Lemma shr_fexp_below m e l c k :
  0 ≤ m → 0 < c < 2 ^ 53 → -1074 ≤ k →
  below (m + (if l is loc_Exact then 0 else 1)) e c k →
  ∀ mrs e', shr_fexp 53 1024 m e l = (mrs, e') →
    0 ≤ shr_m mrs ≤ round_nearest_even (shr_m mrs) (loc_of_shr_record mrs) ∧
    below (round_nearest_even (shr_m mrs) (loc_of_shr_record mrs)) e' c k.
Proof.
  intros Hm Hc Hk Hb mrs e'. unfold shr_fexp, shr.
  assert (below m e c k) as Hb0 by (eapply below_mono; [|done]; destruct l; lia).
  pose proof (target_below m e c k Hm Hc Hk Hb0) as Ht.
  destruct (loc_of_shr_record_of_loc m l) as [Hl Hrm].
  destruct (fexp 53 1024 (Zdigits2 m + e) - e) as [|p|p] eqn:Hn.
  - intros [= <- <-]. rewrite Hl, Hrm.
    pose proof (round_nearest_even_le m l). split; [lia|].
    eapply below_mono; [|exact Hb]. lia.
  - intros [= <- <-].
    destruct (shifted_iter p (shr_record_of_loc m l)) as (H0 & Hdiv & Hex); [lia|].
    set (mrs := SpecFloat.iter_pos shr_1 p (shr_record_of_loc m l)) in *.
    rewrite Hrm in Hdiv, Hex.
    pose proof (round_nearest_even_le (shr_m mrs) (loc_of_shr_record mrs)) as Hr.
    split; [lia|]. destruct Hb as [He Hle]. split; [lia|].
    assert (0 < 2 ^ Z.pos p) by (apply Z.pow_pos_nonneg; lia).
    assert (c * 2 ^ (k - e) = 2 ^ Z.pos p * (c * 2 ^ (k - (e + Z.pos p)))) as Hc'.
    { replace (k - e) with (Z.pos p + (k - (e + Z.pos p))) by lia.
      rewrite Z.pow_add_r by lia. ring. }
    set (C := c * 2 ^ (k - (e + Z.pos p))) in *.
    destruct (inexact mrs) eqn:Hi.
    + assert (shr_m mrs < C); [|destruct (loc_of_shr_record mrs); lia].
      rewrite Hdiv. apply Z.div_lt_upper_bound; [done|].
      destruct l as [|cmp]; [|lia].
      assert (m ≠ 2 ^ Z.pos p * C); [|lia].
      intros Heq. enough (true = false) by done.
      apply Hex. split; [done|]. rewrite Hdiv, Heq, Z.mul_comm, Z.div_mul by lia. ring.
    + apply loc_of_shr_record_exact in Hi. rewrite Hi in Hr |- *. simpl.
      rewrite Hdiv. apply Z.div_le_upper_bound; [done|].
      destruct l; lia.
  - intros [= <- <-]. rewrite Hl, Hrm.
    pose proof (round_nearest_even_le m l). split; [lia|].
    eapply below_mono; [|exact Hb]. lia.
Qed.

Lemma binary_round_aux_below mx ex lx c k :
  0 ≤ mx → 0 < c < 2 ^ 53 → -1074 ≤ k ≤ 971 →
  below (mx + (if lx is loc_Exact then 0 else 1)) ex c k →
  at_most c k (binary_round_aux 53 1024 false mx ex lx).
Proof.
  intros Hm Hc Hk Hb. unfold binary_round_aux.
  destruct (shr_fexp 53 1024 mx ex lx) as [mrs' e'] eqn:H1.
  destruct (shr_fexp_below mx ex lx c k Hm Hc ltac:(lia) Hb mrs' e' H1) as [Hm' Hb'].
  set (m1 := round_nearest_even (shr_m mrs') (loc_of_shr_record mrs')) in *.
  destruct (shr_fexp 53 1024 m1 e' loc_Exact) as [mrs'' e''] eqn:H2.
  destruct (shr_fexp_below m1 e' loc_Exact c k ltac:(lia) Hc ltac:(lia)
              ltac:(by rewrite Z.add_0_r) mrs'' e'' H2) as [Hm'' Hb''].
  assert (below (shr_m mrs'') e'' c k) as Hb3 by (eapply below_mono; [|done]; lia).
  destruct (shr_m mrs'') as [|m|m]; simpl; [done| |lia].
  destruct Hb3 as [He ?].
  assert ((e'' <=? 1024 - 53) = true) as -> by (apply Z.leb_le; lia).
  done.
Qed.

Lemma new_location_exact nb k :
  (if new_location nb k is loc_Exact then 0 else 1) = (if k =? 0 then 0 else 1).
Proof.
  unfold new_location, new_location_even, new_location_odd.
  destruct (Z.even nb); by destruct (k =? 0).
Qed.

Lemma b64_div_le_one m1 e1 m2 e2 E :
  E ≤ e1 → E ≤ e2 → Z.pos m1 * 2 ^ (e1 - E) ≤ Z.pos m2 * 2 ^ (e2 - E) →
  at_most 1 0 (b64_div (S754_finite false m1 e1) (S754_finite false m2 e2)).
Proof.
  intros H1 H2 Hle. unfold b64_div, SFdiv, SFdiv_core_binary. simpl Zdigits2. simpl xorb.
  set (d1 := Z.pos (digits2_pos m1)). set (d2 := Z.pos (digits2_pos m2)).
  destruct (digits2_pos_bounds m1) as [Hd1 _].
  destruct (digits2_pos_bounds m2) as [_ Hd2]. fold d1 in Hd1. fold d2 in Hd2.
  assert (0 < d1) by done. assert (0 < d2) by done.
  assert (0 < 2 ^ (e1 - E)) by (apply Z.pow_pos_nonneg; lia).
  assert (0 < 2 ^ (e2 - E)) by (apply Z.pow_pos_nonneg; lia).
  assert (d1 + e1 - (d2 + e2) ≤ 0) as Hd.
  { assert (2 ^ (d1 - 1 + (e1 - E)) < 2 ^ (d2 + (e2 - E))) as Hlt.
    { rewrite !Z.pow_add_r by lia. nia. }
    apply Z.pow_lt_mono_r_iff in Hlt; lia. }
  set (e' := Z.min (fexp 53 1024 (d1 + e1 - (d2 + e2))) (e1 - e2)).
  assert (e' ≤ 0 ∧ e' ≤ e1 - e2) as [He' Hs] by (unfold e', fexp, emin; lia).
  set (s := e1 - e2 - e').
  set (m' := match s with 0 => Z.pos m1 | Z.pos _ => Z.shiftl (Z.pos m1) s | Z.neg _ => 0 end).
  assert (m' = Z.pos m1 * 2 ^ s) as Hm'.
  { unfold m'. destruct s as [|p|p] eqn:Hp; [simpl; lia| |lia].
    rewrite Z.shiftl_mul_pow2; lia. }
  clearbody m'.
  assert (0 < 2 ^ s) by (apply Z.pow_pos_nonneg; lia).
  assert (0 < 2 ^ (- e')) by (apply Z.pow_pos_nonneg; lia).
  assert (m' ≤ Z.pos m2 * 2 ^ (- e')) as Hm.
  { apply (Z.mul_le_mono_pos_r _ _ (2 ^ (e2 - E))); [done|].
    rewrite Hm'.
    replace (Z.pos m1 * 2 ^ s * 2 ^ (e2 - E)) with (Z.pos m1 * 2 ^ (e1 - E) * 2 ^ (- e')).
    - nia.
    - rewrite <-!Z.mul_assoc, <-!Z.pow_add_r by lia. do 2 f_equal. unfold s. lia. }
  pose proof (Z_div_mod m' (Z.pos m2) ltac:(lia)) as Hdm.
  destruct (Z.div_eucl m' (Z.pos m2)) as [q r]. destruct Hdm as [Hq Hr].
  assert (0 ≤ q) by nia.
  apply binary_round_aux_below; [done|lia|lia|].
  split; [done|]. rewrite Z.sub_0_l, Z.mul_1_l.
  rewrite new_location_exact.
  destruct (Z.eqb_spec r 0) as [->|Hr0].
  - assert (q ≤ 2 ^ (- e')); [|lia].
    apply (Z.mul_le_mono_pos_l _ _ (Z.pos m2)); lia.
  - assert (q < 2 ^ (- e')); [|lia].
    apply (Z.mul_lt_mono_pos_l (Z.pos m2)); lia.
Qed.

Lemma b64_mul_100 x : at_most 1 0 x → at_most 25 2 (b64_mul x (b64_of_Z 100)).
Proof.
  change (b64_of_Z 100) with (S754_finite false 7036874417766400 (-46)).
  destruct x as [s| | |s m e]; simpl; try done; [by intros ->|].
  intros [-> Hb]. destruct Hb as [He Hm]. simpl xorb.
  apply binary_round_aux_below; [lia|lia|lia|].
  rewrite Z.add_0_r. split; [lia|].
  rewrite Pos2Z.inj_mul.
  replace (2 - (e + -46)) with (48 + (0 - e)) by lia.
  rewrite Z.pow_add_r by lia.
  assert (0 < 2 ^ (0 - e)) by (apply Z.pow_pos_nonneg; lia).
  change (Z.pos 7036874417766400) with (25 * 2 ^ 48). nia.
Qed.

Lemma binary_round_aux_fits s m e :
  fexp 53 1024 (Z.pos (digits2_pos m) + e) ≤ e → e ≤ 971 →
  binary_round_aux 53 1024 s (Z.pos m) e loc_Exact = S754_finite s m e.
Proof.
  intros Hf He.
  assert (∀ l, shr_fexp 53 1024 (Z.pos m) e l = (shr_record_of_loc (Z.pos m) l, e)) as Hshr.
  { intros l. unfold shr_fexp, shr. simpl Zdigits2.
    destruct (fexp 53 1024 (Z.pos (digits2_pos m) + e) - e) eqn:Hn; [done|lia|done]. }
  unfold binary_round_aux. rewrite Hshr.
  cbn [shr_m shr_record_of_loc round_nearest_even loc_of_shr_record].
  rewrite Hshr. cbn [shr_m shr_record_of_loc].
  assert ((e <=? 1024 - 53) = true) as -> by (apply Z.leb_le; lia). done.
Qed.

Lemma pos_iter_xO p k : Z.pos (Pos.iter xO p k) = Z.pos p * 2 ^ Z.pos k.
Proof.
  induction k as [|k IH] using Pos.peano_ind; [simpl; lia|].
  rewrite Pos.iter_succ, Pos2Z.inj_xO, IH, Pos2Z.inj_succ, Z.pow_succ_r by lia. ring.
Qed.

(** A count below 2^53 is a binary64 number: the conversion is exact. *)
Lemma b64_of_Z_exact p :
  Z.pos p < 2 ^ 53 →
  ∃ m e, b64_of_Z (Z.pos p) = S754_finite false m e ∧ -53 ≤ e ∧
         Z.pos m * 2 ^ (e + 53) = Z.pos p * 2 ^ 53.
Proof.
  intros Hp. unfold b64_of_Z, binary_normalize, binary_round, shl_align.
  destruct (digits2_pos_bounds p) as [Hd1 Hd2].
  set (d := Z.pos (digits2_pos p)) in *.
  assert (0 < d) by done.
  assert (d ≤ 53) as Hd.
  { assert (2 ^ (d - 1) < 2 ^ 53) as Hlt by lia.
    apply Z.pow_lt_mono_r_iff in Hlt; lia. }
  assert (fexp 53 1024 (d + 0) = d - 53) as -> by (unfold fexp, emin; lia).
  destruct (d - 53 - 0) as [|k|k] eqn:Hk; [|lia|].
  - exists p, 0. split; [|split; [lia|done]].
    apply binary_round_aux_fits; [|lia]. fold d. unfold fexp, emin. lia.
  - exists (Pos.iter xO p k), (d - 53).
    assert (Z.pos (Pos.iter xO p k) < 2 ^ 53) as Hlt.
    { rewrite pos_iter_xO. replace 53 with (d + Z.pos k) by lia.
      rewrite Z.pow_add_r by lia.
      assert (0 < 2 ^ Z.pos k) by (apply Z.pow_pos_nonneg; lia). nia. }
    split; [|split; [lia|]].
    + apply binary_round_aux_fits; [|lia].
      destruct (digits2_pos_bounds (Pos.iter xO p k)) as [Hk1 _].
      assert (2 ^ (Z.pos (digits2_pos (Pos.iter xO p k)) - 1) < 2 ^ 53) as Hlt' by lia.
      apply Z.pow_lt_mono_r_iff in Hlt'; [|lia|lia].
      unfold fexp, emin. lia.
    + rewrite pos_iter_xO, <-Z.mul_assoc, <-Z.pow_add_r by lia.
      do 2 f_equal. lia.
Qed.

Lemma at_most_value c k x :
  0 ≤ c → at_most c k x →
  b64_finite x = true ∧ (0 <= b64_value x)%Q ∧ (b64_value x <= inject_Z c * 2 ^ k)%Q.
Proof.
  intros Hc.
  assert (0 < 2 ^ k)%Q as Hk by (by apply Qpower_0_lt).
  assert (0 <= inject_Z c)%Q as Hc0 by (unfold Qle; simpl; lia).
  destruct x as [s| | |s m e]; simpl; try done.
  - intros ->. split; [done|]. split; [apply Qle_refl|].
    apply Qmult_le_0_compat; [done|by apply Qlt_le_weak].
  - intros [-> [He Hm]]. split; [done|].
    assert (0 < 2 ^ e)%Q as Hpos by (by apply Qpower_0_lt).
    assert (0 < inject_Z (Z.pos m))%Q as Hm0 by (unfold Qlt; simpl; lia).
    rewrite Qmult_1_l. split.
    + apply Qmult_le_0_compat; by apply Qlt_le_weak.
    + apply (Qle_trans _ (inject_Z (c * 2 ^ (k - e)) * 2 ^ e)).
      * apply Qmult_le_compat_r; [by rewrite <-Zle_Qle|by apply Qlt_le_weak].
      * rewrite inject_Z_mult, Zpower_Qpower by lia.
        rewrite <-Qmult_assoc, <-Qpower_plus by done.
        replace (k - e + e) with k by lia. apply Qle_refl.
Qed.

Lemma attendanceRate_at_most na nb :
  (na ≤ nb)%nat → Z.of_nat nb < 2 ^ 53 → at_most 25 2 (attendanceRate na nb).
Proof.
  intros Hle Hnb. unfold attendanceRate. case_bool_decide as H0; [|done].
  apply b64_mul_100.
  destruct (Z.of_nat nb) as [|pb|pb] eqn:Hb; [lia| |lia].
  destruct (b64_of_Z_exact pb Hnb) as (m2 & e2 & -> & He2 & Hv2).
  destruct (Z.of_nat na) as [|pa|pa] eqn:Ha; [done| |lia].
  destruct (b64_of_Z_exact pa ltac:(lia)) as (m1 & e1 & -> & He1 & Hv1).
  apply (b64_div_le_one _ _ _ _ (-53)); [lia|lia|].
  replace (e1 - -53) with (e1 + 53) by lia.
  replace (e2 - -53) with (e2 + 53) by lia. lia.
Qed.

Lemma attendanceRate_range na nb :
  (na ≤ nb)%nat → Z.of_nat nb < 2 ^ 53 →
  b64_finite (attendanceRate na nb) = true ∧
  (0 <= b64_value (attendanceRate na nb))%Q ∧ (b64_value (attendanceRate na nb) <= 100)%Q.
Proof.
  intros Hle Hnb.
  destruct (at_most_value 25 2 _ ltac:(lia) (attendanceRate_at_most na nb Hle Hnb))
    as (Hf & H0 & H100).
  done.
Qed.

Lemma attendanceRate_no_bookings na : attendanceRate na 0 = b64_of_Z 0.
Proof. done. Qed.

Lemma attendanceRate_bookings na nb :
  (0 < nb)%nat →
  attendanceRate na nb
  = b64_mul (b64_div (b64_of_Z (Z.of_nat na)) (b64_of_Z (Z.of_nat nb))) (b64_of_Z 100).
Proof. intros H. unfold attendanceRate. by rewrite bool_decide_eq_true_2. Qed.

(** Scenario of the specification: 10 bookings, 4 of them attended. *)
Lemma attendanceRate_scenario : attendanceRate 4 10 = b64_of_Z 40.
Proof. vm_compute. reflexivity. Qed.

End binary64.

(** * The stats aggregator *)

(** In a consistent store the attendance of any set of events is bounded by
    their bookings. *)
Lemma attended_le_booked s (P : string → bool) :
  consistent s →
  (count (λ a, P (attendance_eventId a)) (attendance s)
   ≤ count (λ b, P (booking_eventId b)) (bookings s))%nat.
Proof.
  intros Hc.
  etrans; [apply (attendance_scanned s Hc P)|].
  etrans; [|apply (tickets_booked s Hc P)].
  apply count_mono. intros k t _ H. by apply andb_prop in H as [_ H].
Qed.


(** * Two scans in flight *)

(** One scan advancing alone is the handler. *)
Lemma scan_advance_alone env req s :
  let '(t1, s1) := scan_advance env req Start s in
  let '(t2, s2) := scan_advance env req t1 s1 in
  let '(t3, s3) := scan_advance env req t2 s2 in
  t3 = Finished (run (post_organizer_scan env req) s).1 ∧
  s3 = (run (post_organizer_scan env req) s).2.
Proof.
  unfold scan_advance, scan_segment, run, post_organizer_scan, bind, authenticateToken.
  destruct (bearer req); [|done].
  destruct (jwt_verify _ _); [|done]. simpl.
  case_bool_decide; [done|]. simpl.
  unfold ticket_findUnique.
  destruct (body req !! "ticketId") as [tid|]; [|done]. simpl.
  unfold_handler.
  destruct (tickets s !! tid) as [t|] eqn:Ht; [|done]. simpl.
  destruct (ticket_isScanned t); [done|]. simpl.
  destruct (rejects env TicketUpdate); [done|].
  rewrite Ht. simpl.
  destruct (bookings s !! ticket_bookingId t); [|done]. simpl.
  destruct (rejects env AttendanceCreate); [done|].
  by destruct (attendance s !! _).
Qed.

Lemma advance_start env req s tid t :
  organizer_scans env req tid →
  tickets s !! tid = Some t → ticket_isScanned t = false →
  scan_advance env req Start s = (Found (include_ticket s t), s).
Proof.
  intros Hreq Ht Hs. destruct (organizer_scans_auth _ _ _ s Hreq) as (user & Ha & Hr).
  destruct Hreq as [_ Hb].
  unfold scan_advance, scan_segment, bind. rewrite Ha, Hr, Hb. simpl.
  unfold_handler. rewrite Ht. simpl. by rewrite Hs.
Qed.

Lemma advance_start_scanned env req s tid t :
  organizer_scans env req tid →
  tickets s !! tid = Some t → ticket_isScanned t = true →
  scan_advance env req Start s = (Finished AlreadyScanned, s).
Proof.
  intros Hreq Ht Hs. destruct (organizer_scans_auth _ _ _ s Hreq) as (user & Ha & Hr).
  destruct Hreq as [_ Hb].
  unfold scan_advance, scan_segment, bind. rewrite Ha, Hr, Hb. simpl.
  unfold_handler. rewrite Ht. simpl. by rewrite Hs.
Qed.

Lemma advance_found env req s tid t ticket :
  organizer_scans env req tid →
  tickets s !! tid = Some t →
  rejects env TicketUpdate = false →
  scan_advance env req (Found ticket) s = (Updated ticket, scanned_store env tid t s).
Proof.
  intros [_ Hb] Ht Hu.
  unfold scan_advance, scan_segment. unfold_handler. rewrite Hb, Hu. simpl.
  by rewrite Ht.
Qed.

Lemma advance_updated env req s t b :
  bookings s !! ticket_bookingId t = Some b →
  rejects env AttendanceCreate = false →
  ∀ s', attendance s' !! newId env AttendanceCreate = None →
  scan_advance env req (Updated (include_ticket s t)) s'
    = (Finished (Scanned (students s !! booking_studentId b)), attended_store env b s').
Proof.
  intros Hb Hc s' Ha.
  unfold scan_advance, scan_segment, include_ticket. simpl. rewrite Hb. simpl.
  unfold_handler. by rewrite Hc, Ha.
Qed.

Lemma advance_finished env req o s :
  scan_advance env req (Finished o) s = (Finished o, s).
Proof. done. Qed.

Lemma schedule1_A envA reqA envB reqB ta tb s ta' s' :
  scan_advance envA reqA ta s = (ta', s') →
  schedule1 envA reqA envB reqB (mkSystem ta tb s) ScanA = mkSystem ta' tb s'.
Proof. intros H. unfold schedule1. simpl. by rewrite H. Qed.

Lemma schedule1_B envA reqA envB reqB ta tb s tb' s' :
  scan_advance envB reqB tb s = (tb', s') →
  schedule1 envA reqA envB reqB (mkSystem ta tb s) ScanB = mkSystem ta tb' s'.
Proof. intros H. unfold schedule1. simpl. by rewrite H. Qed.

Lemma complete_length sched : complete sched = true → length sched = 6%nat.
Proof.
  unfold complete. intros H. apply andb_prop in H as [HA HB].
  apply bool_decide_eq_true in HA, HB.
  assert (∀ l : list Who,
            length l = (length (filter (λ w, is_A w = true) l)
                        + length (filter (λ w, is_A w = false) l))%nat) as Hsplit.
  { induction l as [|[] l IH]; simpl; [done|..];
      rewrite ?filter_cons_True, ?filter_cons_False by done; simpl; lia. }
  rewrite (Hsplit sched). lia.
Qed.

Ltac scan_side :=
  solve [ eassumption
        | simpl; rewrite ?lookup_insert_eq; reflexivity
        | simpl; rewrite ?lookup_insert_ne by congruence; eassumption
        | simpl; eassumption
        | reflexivity ].

Ltac advance_by :=
  first [ eapply advance_start; scan_side
        | eapply advance_start_scanned; scan_side
        | eapply advance_found; scan_side
        | eapply advance_updated; scan_side
        | apply advance_finished ].

Ltac advance1 :=
  first [ erewrite schedule1_A by advance_by
        | erewrite schedule1_B by advance_by ].

(** C8 (as amended): the lookup and the update of a scan are two separate
    store calls, and nothing serialises two scans of the same ticket.  For
    two scans of an unscanned ticket in flight together, with a store that
    accepts their writes: in every interleaving in which both lookups happen
    before either update, both scans answer success and two Attendance rows
    are created; in every other interleaving exactly one scan answers
    success, the other answers "Ticket already scanned", and one Attendance
    row is created. *)
Theorem concurrent_scans envA reqA envB reqB s tid t b sched :
  organizer_scans envA reqA tid →
  organizer_scans envB reqB tid →
  tickets s !! tid = Some t →
  ticket_isScanned t = false →
  bookings s !! ticket_bookingId t = Some b →
  rejects envA TicketUpdate = false → rejects envA AttendanceCreate = false →
  rejects envB TicketUpdate = false → rejects envB AttendanceCreate = false →
  attendance s !! newId envA AttendanceCreate = None →
  attendance s !! newId envB AttendanceCreate = None →
  newId envA AttendanceCreate ≠ newId envB AttendanceCreate →
  complete sched = true →
  let sys := interleave envA reqA envB reqB sched s in
  let ok := Finished (Scanned (students s !! booking_studentId b)) in
  if both_read_first sched
  then taskA sys = ok ∧ taskB sys = ok ∧
       size (attendance (store sys)) = S (S (size (attendance s)))
  else ((taskA sys = ok ∧ taskB sys = Finished AlreadyScanned) ∨
        (taskA sys = Finished AlreadyScanned ∧ taskB sys = ok)) ∧
       size (attendance (store sys)) = S (size (attendance s)).
Proof.
  intros HA HB Ht Hs Hb HuA HcA HuB HcB HaA HaB Hne Hsched.
  pose proof (complete_length sched Hsched) as Hlen.
  destruct sched as [|w1 [|w2 [|w3 [|w4 [|w5 [|w6 [|w7 sched]]]]]]]; try done.
  clear Hlen.
  destruct w1, w2, w3, w4, w5, w6; try (by vm_compute in Hsched);
    clear Hsched; unfold interleave; cbn [fold_left both_read_first].
  all: repeat advance1.
  all: cbn [taskA taskB store]; simpl.
  all: rewrite ?map_size_insert_None
         by (rewrite ?lookup_insert_ne by congruence; done).
  all: split_and?; try done.
  all: by left + by right.
Qed.

(** * The claims on the scenario *)

Lemma demo_store_consistent : consistent demo_store.
Proof. by apply (consistent_tables empty_store), consistent_empty. Qed.

Lemma full_store_consistent : consistent full_store.
Proof.
  assert (full_store =
          ticketed_store (mkEnv 1600000000000 (demo_ids "0") (λ _, false) "supersecret")
            (booked_store (mkEnv 1600000000000 (demo_ids "0") (λ _, false) "supersecret")
               (mkStudent "s1" "u1") "e1"
               (set_events (λ _, {[ "e1" := mkEvent "e1" "o1" 1 299 "APPROVED" ]})
                  demo_store))) as -> by by vm_compute.
  apply consistent_ticketed; [|done..].
  by apply (consistent_tables empty_store), consistent_empty.
Qed.

Lemma organizer_scans_t1 n : organizer_scans (demo_env n) scan_t1 "t1".
Proof. split; [|done]. by exists (mkClaims "u2" "ORGANIZER"). Qed.

Lemma student_books_e1 env s :
  JWT_SECRET env = "supersecret" → students s = students demo_store →
  student_books env book_e1 s (mkStudent "s1" "u1") "e1".
Proof.
  intros Hk Hs. split; [|done]. exists (mkClaims "u1" "STUDENT").
  unfold caller. rewrite Hk, Hs. done.
Qed.

(** C1, on the scenario: the organizer scans the booked ticket twice. *)
Lemma scan_exactly_once_witness :
  organizer_scans (demo_env "1") scan_t1 "t1" ∧
  run (post_organizer_scan (demo_env "1") scan_t1) booked_demo
    = (Scanned (Some (mkStudent "s1" "u1")), scanned_demo) ∧
  run (post_organizer_scan (demo_env "2") scan_t1) scanned_demo
    = (AlreadyScanned, scanned_demo) ∧
  size (attendance scanned_demo) = S (size (attendance booked_demo)).
Proof.
  pose proof (scan_exactly_once (demo_env "1") scan_t1 booked_demo "t1"
                (organizer_scans_t1 "1")) as [_ Htwice].
  assert (run (post_organizer_scan (demo_env "1") scan_t1) booked_demo
          = (Scanned (Some (mkStudent "s1" "u1")), scanned_demo)) as Hfirst
    by (vm_compute; reflexivity).
  destruct (Htwice _ _ (demo_env "2") scan_t1 Hfirst (organizer_scans_t1 "2"))
    as (t & b & _ & _ & _ & _ & Hsecond & _ & _ & Hsize).
  split; [apply organizer_scans_t1|]. split; [exact Hfirst|].
  split; [exact Hsecond|exact Hsize].
Defined.

(** C2, on the scenario: the first scan of the booked ticket. *)
Lemma scan_unscanned_succeeds_witness :
  ∃ s', run (post_organizer_scan (demo_env "1") scan_t1) booked_demo
          = (Replied (Json 200 (ScanBody true (Some (mkStudent "s1" "u1")))), s') ∧
        tickets s' !! "t1"
          = Some (mkTicket "t1" "b1" "TICKET-b1-1700000000000" true (Some 1700000000000%N)) ∧
        attendance s' !! "a1" = Some (mkAttendance "a1" "s1" "e1") ∧
        size (attendance s') = 1%nat.
Proof.
  destruct (scan_unscanned_succeeds (demo_env "1") scan_t1 booked_demo "t1"
              (mkTicket "t1" "b1" "TICKET-b1-1700000000000" false None)
              (mkBooking "b1" "s1" "e1" "PAID"))
    as (s' & Hrun & Ht & Ha & Hsize & _).
  - apply organizer_scans_t1.
  - vm_compute; reflexivity.
  - reflexivity.
  - vm_compute; reflexivity.
  - reflexivity.
  - reflexivity.
  - vm_compute; reflexivity.
  - exists s'. split; [exact Hrun|].
    split; [by rewrite Ht, lookup_insert_eq|].
    split; [by rewrite Ha, lookup_insert_eq|].
    rewrite Hsize. reflexivity.
Defined.

(** C3, as stated, fails: the store rejects the insert of the ticket, the
    request ends with that exception, and the booking [b1], absent before,
    is in the store, with no ticket at all. *)
Lemma booking_orphaned_counterexample :
  (run (post_bookings ticket_rejecting_env book_e1) demo_store).1
    = Unhandled (StoreRejected TicketCreate) ∧
  bookings demo_store !! "b1" = None ∧
  bookings (run (post_bookings ticket_rejecting_env book_e1) demo_store).2 !! "b1"
    = Some (mkBooking "b1" "s1" "e1" "PAID") ∧
  tickets (run (post_bookings ticket_rejecting_env book_e1) demo_store).2 = ∅.
Proof. split_and!; vm_compute; reflexivity. Qed.

(** C3 as amended, on the scenario. *)
Lemma booking_not_rolled_back_witness :
  ∃ e s',
    run (post_bookings ticket_rejecting_env book_e1) demo_store = (Unhandled e, s') ∧
    bookings s' !! "b1" = Some (mkBooking "b1" "s1" "e1" "PAID") ∧
    tickets s' = tickets demo_store.
Proof.
  destruct (booking_not_rolled_back ticket_rejecting_env book_e1 demo_store
              (mkStudent "s1" "u1") "e1")
    as (e & s' & Hrun & _ & Hb & Ht & _).
  - apply student_books_e1; reflexivity.
  - reflexivity.
  - vm_compute; reflexivity.
  - left. reflexivity.
  - exists e, s'. split; [exact Hrun|]. split; [|exact Ht].
    rewrite Hb. apply lookup_insert_eq.
Defined.

(** C4, as stated, fails: no event has the id ["no-such-event"]; with a
    store that accepts the inserts the booking is accepted and its ticket
    minted, and with a store that rejects the insert of the booking the
    request ends with the store's exception, without any reply. *)
Lemma booking_missing_event_counterexample :
  events demo_store !! "no-such-event" = None ∧
  (run (post_bookings (demo_env "1") book_missing) demo_store).1
    = Booked (mkBooking "b1" "s1" "no-such-event" "PAID")
             (mkTicket "t1" "b1" "TICKET-b1-1700000000000" false None) ∧
  bookings (run (post_bookings (demo_env "1") book_missing) demo_store).2 !! "b1"
    = Some (mkBooking "b1" "s1" "no-such-event" "PAID") ∧
  tickets (run (post_bookings (demo_env "1") book_missing) demo_store).2 !! "t1"
    = Some (mkTicket "t1" "b1" "TICKET-b1-1700000000000" false None) ∧
  (run (post_bookings booking_rejecting_env book_missing) demo_store).1
    = Unhandled (StoreRejected BookingCreate).
Proof. split_and!; vm_compute; reflexivity. Qed.

Lemma student_books_missing env :
  JWT_SECRET env = "supersecret" →
  student_books env book_missing demo_store (mkStudent "s1" "u1") "no-such-event".
Proof.
  intros Hk. split; [|done]. exists (mkClaims "u1" "STUDENT").
  unfold caller. rewrite Hk. done.
Qed.

(** C4 as amended, on the scenario: with a store that rejects the insert
    and with one that accepts it. *)
Lemma booking_event_unchecked_witness :
  events demo_store !! "no-such-event" = None ∧
  run (post_bookings booking_rejecting_env book_missing) demo_store
    = (Unhandled (StoreRejected BookingCreate), demo_store) ∧
  ∃ s', run (post_bookings (demo_env "1") book_missing) demo_store
          = (Booked (mkBooking "b1" "s1" "no-such-event" "PAID")
                    (mkTicket "t1" "b1" "TICKET-b1-1700000000000" false None), s').
Proof.
  assert (events demo_store !! "no-such-event" = None) as Hev by reflexivity.
  split; [exact Hev|]. split.
  - destruct (booking_event_unchecked booking_rejecting_env book_missing demo_store
                (mkStudent "s1" "u1") "no-such-event") as [Hrej _].
    + apply student_books_missing. reflexivity.
    + exact Hev.
    + apply Hrej. reflexivity.
  - destruct (booking_event_unchecked (demo_env "1") book_missing demo_store
                (mkStudent "s1" "u1") "no-such-event") as (_ & Hacc & _).
    + apply student_books_missing. reflexivity.
    + exact Hev.
    + destruct Hacc as (s' & Hrun & _); [reflexivity..|].
      exists s'. exact Hrun.
Defined.

(** C5, on an event of capacity 1 that already has one booking. *)
Lemma booking_ignores_capacity_witness :
  events full_store !! "e1" = Some (mkEvent "e1" "o1" 1 299 "APPROVED") ∧
  count (λ b', bool_decide (booking_eventId b' = "e1")) (bookings full_store) = 1%nat ∧
  ∃ b t s',
    run (post_bookings (demo_env "1") book_e1) full_store = (Booked b t, s') ∧
    count (λ b', bool_decide (booking_eventId b' = "e1")) (bookings s') = 2%nat ∧
    (1 < Z.of_nat (count (λ b', bool_decide (booking_eventId b' = "e1")) (bookings s')))%Z.
Proof.
  assert (events full_store !! "e1" = Some (mkEvent "e1" "o1" 1 299 "APPROVED"))
    as Hev by reflexivity.
  assert (count (λ b', bool_decide (booking_eventId b' = "e1")) (bookings full_store) = 1%nat)
    as Hone by (vm_compute; reflexivity).
  split; [exact Hev|]. split; [exact Hone|].
  destruct (booking_ignores_capacity (demo_env "1") book_e1 full_store
              (mkStudent "s1" "u1") "e1")
    as (b & t & s' & Hrun & _ & _ & _ & _ & Hcount & Hover & _).
  - apply student_books_e1; reflexivity.
  - reflexivity.
  - vm_compute; reflexivity.
  - reflexivity.
  - vm_compute; reflexivity.
  - exists b, t, s'. split; [exact Hrun|]. split.
    + rewrite Hcount, Hone. reflexivity.
    + apply (Hover _ Hev). rewrite Hone. reflexivity.
Defined.

(** C6, on the scenario: the two bookings of [demo_calls]. *)
Lemma ticket_codes_unique_witness :
  consistent demo_store ∧
  "TICKET-b1-1700000000000" ≠ "TICKET-b2-1700000000000" ∧
  count (λ t, bool_decide (ticket_bookingId t = "b1")) (tickets served_demo) = 1%nat ∧
  count (λ t, bool_decide (ticket_bookingId t = "b2")) (tickets served_demo) = 1%nat.
Proof.
  split; [apply demo_store_consistent|].
  destruct (ticket_codes_unique demo_store
              (demo_env "1") book_e1
              (mkBooking "b1" "s1" "e1" "PAID")
              (mkTicket "t1" "b1" "TICKET-b1-1700000000000" false None)
              booked_demo
              [ mkCall OrganizerScan (demo_env "1") scan_t1;
                mkCall OrganizerScan (demo_env "2") scan_t1 ]
              (demo_env "2") book_e1
              (mkBooking "b2" "s1" "e1" "PAID")
              (mkTicket "t2" "b2" "TICKET-b2-1700000000000" false None)
              served_demo)
    as (Hcodes & _ & _ & _ & _ & H1 & H2 & _).
  - apply demo_store_consistent.
  - vm_compute; reflexivity.
  - vm_compute; reflexivity.
  - split; [exact Hcodes|]. split; [exact H1|exact H2].
Defined.



(** C8, as stated, fails: both scans read the ticket before either marks
    it, both answer success, and the attendance table, empty before, holds
    two rows for the one ticket. *)
Lemma concurrent_scans_counterexample :
  taskA (interleave (demo_env "1") scan_t1 (demo_env "2") scan_t1 reads_first booked_demo)
    = Finished (Scanned (Some (mkStudent "s1" "u1"))) ∧
  taskB (interleave (demo_env "1") scan_t1 (demo_env "2") scan_t1 reads_first booked_demo)
    = Finished (Scanned (Some (mkStudent "s1" "u1"))) ∧
  attendance booked_demo = ∅ ∧
  attendance (store (interleave (demo_env "1") scan_t1 (demo_env "2") scan_t1
                       reads_first booked_demo))
    = {[ "a1" := mkAttendance "a1" "s1" "e1"; "a2" := mkAttendance "a2" "s1" "e1" ]}.
Proof. split_and!; vm_compute; reflexivity. Qed.

(** C8 as amended, on the scenario. *)
Lemma concurrent_scans_witness :
  complete reads_first = true ∧
  taskA (interleave (demo_env "1") scan_t1 (demo_env "2") scan_t1 reads_first booked_demo)
    = Finished (Scanned (Some (mkStudent "s1" "u1"))) ∧
  taskB (interleave (demo_env "1") scan_t1 (demo_env "2") scan_t1 reads_first booked_demo)
    = Finished (Scanned (Some (mkStudent "s1" "u1"))) ∧
  size (attendance (store (interleave (demo_env "1") scan_t1 (demo_env "2") scan_t1
                             reads_first booked_demo))) = 2%nat.
Proof.
  split; [reflexivity|].
  exact (concurrent_scans (demo_env "1") scan_t1 (demo_env "2") scan_t1 booked_demo "t1"
           (mkTicket "t1" "b1" "TICKET-b1-1700000000000" false None)
           (mkBooking "b1" "s1" "e1" "PAID") reads_first
           (organizer_scans_t1 "1") (organizer_scans_t1 "2")
           eq_refl eq_refl eq_refl eq_refl eq_refl eq_refl eq_refl eq_refl eq_refl
           ltac:(discriminate) eq_refl).
Defined.

(** C9, as stated, fails: the ticket [t1] is unscanned and its code is
    ["TICKET-b1-1700000000000"]; a scan that presents the code is answered
    "Ticket not found" and changes nothing. *)
Lemma scan_by_code_counterexample :
  tickets booked_demo !! "t1"
    = Some (mkTicket "t1" "b1" "TICKET-b1-1700000000000" false None) ∧
  body scan_code_t1 !! "ticketId" = Some "TICKET-b1-1700000000000" ∧
  run (post_organizer_scan (demo_env "1") scan_code_t1) booked_demo
    = (TicketNotFound, booked_demo).
Proof. split_and!; vm_compute; reflexivity. Qed.

(** C9 as amended, on the scenario. *)
Lemma scan_looks_up_by_id_witness :
  organizer_scans (demo_env "1") scan_code_t1 "TICKET-b1-1700000000000" ∧
  tickets booked_demo !! "TICKET-b1-1700000000000" = None ∧
  run (post_organizer_scan (demo_env "1") scan_code_t1) booked_demo
    = (TicketNotFound, booked_demo).
Proof.
  assert (organizer_scans (demo_env "1") scan_code_t1 "TICKET-b1-1700000000000") as Hreq.
  { split; [|reflexivity]. exists (mkClaims "u2" "ORGANIZER"). split; reflexivity. }
  assert (tickets booked_demo !! "TICKET-b1-1700000000000" = None) as Hnone
    by (vm_compute; reflexivity).
  split; [exact Hreq|]. split; [exact Hnone|].
  destruct (scan_looks_up_by_id (demo_env "1") scan_code_t1 booked_demo
              "TICKET-b1-1700000000000" Hreq) as [Hmiss _].
  exact (Hmiss Hnone).
Defined.

(** C10, on the scenario: a body that asks for the ADMIN role. *)
Lemma guest_role_is_GUEST_witness :
  run (post_auth_guest (demo_env "1") guest_as_admin) demo_store
    = run (post_auth_guest (demo_env "1") (mkRequest None ∅)) demo_store ∧
  ∃ token user s',
    run (post_auth_guest (demo_env "1") guest_as_admin) demo_store
      = (Replied (Json 200 (AuthBody token user)), s') ∧
    user_role user = "GUEST" ∧ claims_role (jwt_payload token) = "GUEST".
Proof.
  destruct (guest_role_is_GUEST (demo_env "1") guest_as_admin demo_store)
    as (Hany & Hreply & _ & Hsends).
  split; [symmetry; apply Hany|].
  destruct Hsends as (token & user & s' & Hrun); [reflexivity|vm_compute; reflexivity|].
  destruct (Hreply _ _ Hrun) as (token' & user' & Hr & Hrole & Hpayload & _).
  exists token', user', s'. split; [by rewrite Hrun, Hr|].
  split; [exact Hrole|]. by rewrite Hpayload.
Defined.

(** * Further properties of the handlers *)

Lemma findMany_none {A} (P : A → bool) (m : gmap string A) :
  (∀ k v, m !! k = Some v → P v = false) → findMany P m = [].
Proof.
  intros HP. apply length_zero_iff_nil. exact (count_none P m HP).
Qed.

Lemma findMany_elem {A} (P : A → bool) (m : gmap string A) v :
  v ∈ findMany P m ↔ P v = true ∧ ∃ k, m !! k = Some v.
Proof.
  unfold findMany. rewrite list_elem_of_filter, list_elem_of_fmap. split.
  - intros [HP ([k v'] & -> & Hin)]. split; [done|].
    exists k. by apply elem_of_map_to_list.
  - intros [HP [k Hk]]. split; [done|].
    exists (k, v). split; [done|]. by apply elem_of_map_to_list.
Qed.

Lemma caller_authenticates env req s user :
  caller env req = Some user → authenticateToken env req s = (Next user, s).
Proof.
  unfold caller, authenticateToken. destruct (bearer req); [|done]. by intros ->.
Qed.

(** X1: the three routes behind [authenticateToken] answer 401 to a
    request without a token and 403 to a request whose token was not signed
    with the server's key, and write nothing. *)
Theorem authenticated_routes_gate r env req s :
  r ≠ AuthGuest →
  (bearer req = None →
     run (handle r env req) s = (Replied (SendStatus 401), s)) ∧
  (∀ token, bearer req = Some token → jwt_key token ≠ JWT_SECRET env →
     run (handle r env req) s = (Replied (SendStatus 403), s)).
Proof.
  intros Hr. split.
  - intros Hb. destruct r; try done; simpl;
      unfold run, post_organizer_scan, post_bookings, get_organizer_stats,
        bind, authenticateToken; by rewrite Hb.
  - intros token Hb Hk.
    assert (jwt_verify token (JWT_SECRET env) = None) as Hv.
    { unfold jwt_verify. by case_decide. }
    destruct r; try done; simpl;
      unfold run, post_organizer_scan, post_bookings, get_organizer_stats,
        bind, authenticateToken; by rewrite Hb, Hv.
Qed.

Lemma scan_wrong_role env req s user :
  caller env req = Some user →
  claims_role user ≠ "ORGANIZER" →
  run (post_organizer_scan env req) s = (Replied (SendStatus 403), s).
Proof.
  intros Hc Hr. unfold run, post_organizer_scan, bind.
  rewrite (caller_authenticates env req s user Hc).
  by rewrite bool_decide_eq_true_2.
Qed.

Lemma books_without_profile env req s user :
  caller env req = Some user →
  (∀ k st, students s !! k = Some st → student_userId st ≠ claims_id user) →
  run (post_bookings env req) s = (Replied (Json 400 (ErrorBody "Not a student")), s).
Proof.
  intros Hc Hno. unfold run, post_bookings, bind.
  rewrite (caller_authenticates env req s user Hc).
  unfold student_findUnique, bind, get_store, ret. simpl.
  rewrite findMany_none; [done|].
  intros k st Hk. apply bool_decide_eq_false. by apply (Hno k).
Qed.

(** X2: a scan by an authenticated caller whose role is not ORGANIZER is
    answered 403 and writes nothing, whatever the body and the store. *)
Theorem scan_requires_organizer_role env req s user :
  caller env req = Some user →
  claims_role user ≠ "ORGANIZER" →
  run (post_organizer_scan env req) s = (Replied (SendStatus 403), s).
Proof. apply scan_wrong_role. Qed.

(** X3: a booking request by an authenticated caller that has no Student
    profile is answered 400 "Not a student" and writes nothing, whatever
    the event and the role in the token. *)
Theorem booking_requires_student_profile env req s user :
  caller env req = Some user →
  (∀ k st, students s !! k = Some st → student_userId st ≠ claims_id user) →
  run (post_bookings env req) s = (Replied (Json 400 (ErrorBody "Not a student")), s).
Proof. apply books_without_profile. Qed.

(** X4: the booking handler reads the id of the caller and never the role:
    two requests with the same body whose tokens carry the same id get the
    same result. *)
Theorem booking_ignores_role env req1 req2 s user1 user2 :
  caller env req1 = Some user1 →
  caller env req2 = Some user2 →
  claims_id user1 = claims_id user2 →
  body req1 = body req2 →
  run (post_bookings env req1) s = run (post_bookings env req2) s.
Proof.
  intros H1 H2 Hid Hb. unfold run, post_bookings, bind.
  rewrite (caller_authenticates env req1 s user1 H1).
  rewrite (caller_authenticates env req2 s user2 H2).
  by rewrite Hid, Hb.
Qed.

Lemma revenue_fold (l : list Booking) (acc : Z) :
  fold_left (λ acc curr, acc + 100)%Z l acc = (acc + 100 * Z.of_nat (length l))%Z.
Proof.
  revert acc. induction l as [|b l IH]; intros acc; simpl; [lia|].
  rewrite IH. lia.
Qed.

(** X5: in every stats reply the revenue is 100 for each booking of the
    organizer's events, whatever the prices of the events, and the number of
    events is the number of events the organizer owns. *)
Theorem stats_revenue_flat env req s totalEvents totalRegistrations totalRevenue rate s' :
  run (get_organizer_stats env req) s
    = (Replied (Json 200 (StatsBody totalEvents totalRegistrations totalRevenue rate)), s') →
  totalRevenue = (100 * Z.of_nat totalRegistrations)%Z ∧
  ∃ user organizer,
    caller env req = Some user ∧
    head (findMany (λ o, bool_decide (organizer_userId o = claims_id user))
                   (organizers s)) = Some organizer ∧
    totalEvents = count (λ e, bool_decide (event_organizerId e = organizer_id organizer))
                        (events s).
Proof.
  unfold caller. unfold_handler.
  destruct (bearer req); [|done].
  destruct (jwt_verify _ _) as [user|]; [|done]. simpl.
  destruct (head _) as [organizer|] eqn:Ho; [|done].
  intros [= <- <- <- <- <-]. split.
  - rewrite revenue_fold. lia.
  - by exists user, organizer.
Qed.

(** X6: the stats handler never writes, whatever the request, and answers
    403 to an authenticated caller that has no Organizer profile. *)
Theorem stats_read_only env req s :
  (run (get_organizer_stats env req) s).2 = s ∧
  (∀ user,
     caller env req = Some user →
     (∀ k o, organizers s !! k = Some o → organizer_userId o ≠ claims_id user) →
     (run (get_organizer_stats env req) s).1 = Replied (SendStatus 403)).
Proof.
  split; [apply stats_reads|].
  intros user Hc Hno. unfold run, get_organizer_stats, bind.
  rewrite (caller_authenticates env req s user Hc).
  unfold organizer_findUnique, bind, get_store, ret. simpl.
  rewrite findMany_none; [done|].
  intros k o Hk. apply bool_decide_eq_false. by apply (Hno k).
Qed.

(** X7: when the store accepts the update of a scan and then refuses the
    insert of the Attendance row, the exception escapes the handler and the
    ticket stays marked as scanned without any Attendance row; every later
    scan of the ticket is then answered "Ticket already scanned", so the
    attendance is never recorded. *)
Theorem scan_attendance_lost env req s tid t b :
  organizer_scans env req tid →
  tickets s !! tid = Some t →
  ticket_isScanned t = false →
  bookings s !! ticket_bookingId t = Some b →
  rejects env TicketUpdate = false →
  rejects env AttendanceCreate = true ∨ is_Some (attendance s !! newId env AttendanceCreate) →
  ∃ e s',
    run (post_organizer_scan env req) s = (Unhandled e, s') ∧
    tickets s' !! tid = Some (mark_scanned env t) ∧
    attendance s' = attendance s ∧
    ∀ env2 req2, organizer_scans env2 req2 tid →
      run (post_organizer_scan env2 req2) s' = (AlreadyScanned, s').
Proof.
  intros Hreq Ht Hs Hb Hu Hfail.
  destruct (organizer_scans_auth _ _ _ s Hreq) as (user & Ha & Hr).
  assert (∃ e, run (post_organizer_scan env req) s
                 = (Unhandled e, scanned_store env tid t s)) as [e Hrun].
  { destruct Hreq as [_ Hbody].
    unfold run, post_organizer_scan, bind. rewrite Ha, Hr, Hbody. simpl.
    unfold_handler. rewrite Ht. simpl. rewrite Hs, Hu, Ht. simpl.
    rewrite Hb. simpl.
    destruct (rejects env AttendanceCreate); [by eexists|].
    destruct Hfail as [?|[a Hsome]]; [done|]. rewrite Hsome. by eexists. }
  exists e, (scanned_store env tid t s). split; [done|].
  assert (tickets (scanned_store env tid t s) !! tid = Some (mark_scanned env t)) as Hmark.
  { simpl. by rewrite lookup_insert_eq. }
  split_and!; try done.
  intros env2 req2 Hreq2.
  by apply (scan_scanned env2 req2 _ tid (mark_scanned env t)).
Qed.

(** X8: a store with no booking, no ticket and no Attendance row, as the
    seed script leaves it, is consistent whatever its users, students,
    organizers and events; and every store the four routes can reach from a
    consistent store is consistent: in particular, for every set of events,
    it has at most as many Attendance rows as bookings. *)
Theorem reachable_store_consistent s calls (P : string → bool) :
  (bookings s = ∅ → tickets s = ∅ → attendance s = ∅ → consistent s) ∧
  (consistent s →
   consistent (serve calls s) ∧
   (count (λ a, P (attendance_eventId a)) (attendance (serve calls s))
    ≤ count (λ b, P (booking_eventId b)) (bookings (serve calls s)))%nat).
Proof.
  split.
  - intros Hb Ht Ha. by apply (consistent_tables empty_store), consistent_empty.
  - intros Hs.
    assert (consistent (serve calls s)) as Hc by by apply consistent_serve.
    split; [done|]. by apply attended_le_booked.
Qed.

Lemma serve_ind (R : Store → Store → Prop) :
  (∀ s, R s s) →
  (∀ s1 s2 s3, R s1 s2 → R s2 s3 → R s1 s3) →
  (∀ c s, R s (serve1 s c)) →
  ∀ calls s, R s (serve calls s).
Proof.
  intros Hrefl Htrans Hstep calls. induction calls as [|c calls IH]; intros s; simpl.
  - apply Hrefl.
  - eapply Htrans; [apply Hstep|apply IH].
Qed.

(** Every way one call can change the store. *)
Lemma serve1_cases c s :
  serve1 s c = s ∨
  (∃ tid t, tickets s !! tid = Some t ∧ ticket_isScanned t = false ∧
     (serve1 s c = scanned_store (call_env c) tid t s ∨
      ∃ b, attendance s !! newId (call_env c) AttendanceCreate = None ∧
           serve1 s c = attended_store (call_env c) b (scanned_store (call_env c) tid t s))) ∨
  (∃ student eid, bookings s !! newId (call_env c) BookingCreate = None ∧
     (serve1 s c = booked_store (call_env c) student eid s ∨
      (tickets s !! newId (call_env c) TicketCreate = None ∧
       serve1 s c = ticketed_store (call_env c)
                      (booked_store (call_env c) student eid s)))) ∨
  (users s !! newId (call_env c) UserCreate = None ∧
   serve1 s c = set_users (insert (newId (call_env c) UserCreate)
                             (mkUser (newId (call_env c) UserCreate) "GUEST" None)) s).
Proof.
  unfold serve1, handle. destruct (call_route c).
  - destruct (run (post_organizer_scan _ _) s) as [o s'] eqn:Hrun. simpl.
    apply scan_cases in Hrun
      as [[-> _]|(tid & t & _ & Ht & Hs & [[-> _]|(b & Hb & Ha & -> & _)])].
    + by left.
    + right; left. exists tid, t. eauto.
    + right; left. exists tid, t. split_and!; [done..|]. right. by exists b.
  - rewrite guest_cases. destruct (rejects _ _); [by left|].
    destruct (users s !! _) eqn:Hu; [by left|]. by right; right; right.
  - destruct (run (post_bookings _ _) s) as [o s'] eqn:Hrun. simpl.
    apply books_cases in Hrun
      as [[-> _]|(st & eid & _ & Hb & [[-> _]|(Ht & -> & _)])].
    + by left.
    + right; right; left. exists st, eid. eauto.
    + right; right; left. exists st, eid. eauto.
  - left. apply stats_reads.
Qed.

(** X9: a ticket that is scanned is never written again: whatever calls
    follow, its row stays exactly as it is, flag and timestamp included. *)
Theorem scanned_ticket_frozen calls s k t :
  tickets s !! k = Some t →
  ticket_isScanned t = true →
  tickets (serve calls s) !! k = Some t.
Proof.
  intros Ht Hs. revert Ht.
  apply (serve_ind (λ s s', tickets s !! k = Some t → tickets s' !! k = Some t)).
  - done.
  - intros s1 s2 s3 H12 H23 H1. by apply H23, H12.
  - intros c s0 Hk.
    destruct (serve1_cases c s0)
      as [->|[(tid & t' & Ht' & Hs' & [->|(b & _ & ->)])
             |[(st & eid & Hb & [->|(Hfresh & ->)])|[_ ->]]]];
      simpl; try done.
    + rewrite lookup_insert_ne; [done|]. intros ->. congruence.
    + rewrite lookup_insert_ne; [done|]. intros ->. congruence.
    + rewrite lookup_insert_ne; [done|]. intros Heq. congruence.
Qed.

(** X10: the four routes only ever add rows to the bookings, attendance
    and users tables: a row that is there stays there unchanged, whatever
    calls follow; and they never write the students, organizers and events
    tables. *)
Theorem tables_append_only calls s :
  (∀ k b, bookings s !! k = Some b → bookings (serve calls s) !! k = Some b) ∧
  (∀ k a, attendance s !! k = Some a → attendance (serve calls s) !! k = Some a) ∧
  (∀ k u, users s !! k = Some u → users (serve calls s) !! k = Some u) ∧
  students (serve calls s) = students s ∧
  organizers (serve calls s) = organizers s ∧
  events (serve calls s) = events s.
Proof.
  apply (serve_ind (λ s s',
    (∀ k b, bookings s !! k = Some b → bookings s' !! k = Some b) ∧
    (∀ k a, attendance s !! k = Some a → attendance s' !! k = Some a) ∧
    (∀ k u, users s !! k = Some u → users s' !! k = Some u) ∧
    students s' = students s ∧ organizers s' = organizers s ∧ events s' = events s)).
  - done.
  - intros s1 s2 s3 (Hb & Ha & Hu & Hs & Ho & He) (Hb' & Ha' & Hu' & Hs' & Ho' & He').
    split_and!; [by eauto..|congruence|congruence|congruence].
  - intros c s0.
    destruct (serve1_cases c s0)
      as [->|[(tid & t' & Ht' & Hs' & [->|(b & Hfresh & ->)])
             |[(st & eid & Hb & [->|(Hfresh & ->)])|[Hfresh ->]]]];
      simpl; split_and!; try done;
      intros k x Hk; (rewrite lookup_insert_ne; [done|]); congruence.
Qed.

(** X11: the token a guest is given opens neither the scanner nor, for a
    user without a Student profile, the booking route: a scan with it is
    answered 403, a booking with it 400 "Not a student". *)
Theorem guest_token_is_refused env req s token user s' :
  run (post_auth_guest env req) s = (Replied (Json 200 (AuthBody token user)), s') →
  ∀ env2 b s2,
    JWT_SECRET env2 = JWT_SECRET env →
    run (post_organizer_scan env2 (mkRequest (Some token) b)) s2
      = (Replied (SendStatus 403), s2) ∧
    ((∀ k st, students s2 !! k = Some st → student_userId st ≠ user_id user) →
     run (post_bookings env2 (mkRequest (Some token) b)) s2
       = (Replied (Json 400 (ErrorBody "Not a student")), s2)).
Proof.
  rewrite guest_cases.
  destruct (rejects env UserCreate); [done|].
  destruct (users s !! _); [done|].
  intros [= <- <- <-] env2 b s2 Hk.
  assert (caller env2 (mkRequest (Some (jwt_sign (mkClaims (newId env UserCreate) "GUEST")
                                           (JWT_SECRET env) (now env))) b)
          = Some (mkClaims (newId env UserCreate) "GUEST")) as Hc.
  { unfold caller, jwt_verify. simpl. rewrite Hk. by case_decide. }
  split.
  - by apply (scan_wrong_role _ _ _ _ Hc).
  - intros Hno. by apply (books_without_profile _ _ _ _ Hc).
Qed.

(** X12: a ticket code determines the booking id and the time it was made
    from: two codes are equal only if both are. *)
Theorem qrCode_injective b1 b2 ms1 ms2 :
  qrCode b1 ms1 = qrCode b2 ms2 → b1 = b2 ∧ ms1 = ms2.
Proof.
  intros H. pose proof (qrCode_inj _ _ _ _ H) as ->. split; [done|].
  unfold qrCode in H.
  apply (inj (String.append "TICKET-")) in H.
  apply (inj (String.append b2)) in H.
  apply (inj (String.append "-")) in H.
  by apply (inj pretty) in H.
Qed.

(** X13: booking, then scanning.  When a booking succeeds and an
    organizer then scans the ticket under the id the booking reply carries,
    with a store that accepts the writes, the scan succeeds, returns the
    student of the booking, and records an attendance of that student at the
    booked event. *)
Theorem book_then_scan env req s student eid env2 req2 :
  student_books env req s student eid →
  rejects env BookingCreate = false →
  bookings s !! newId env BookingCreate = None →
  rejects env TicketCreate = false →
  tickets s !! newId env TicketCreate = None →
  organizer_scans env2 req2 (newId env TicketCreate) →
  rejects env2 TicketUpdate = false →
  rejects env2 AttendanceCreate = false →
  attendance s !! newId env2 AttendanceCreate = None →
  ∃ b t s1 s2,
    run (post_bookings env req) s = (Booked b t, s1) ∧
    organizer_scans env2 req2 (ticket_id t) ∧
    run (post_organizer_scan env2 req2) s1
      = (Scanned (students s !! student_id student), s2) ∧
    attendance s2 !! newId env2 AttendanceCreate
      = Some (mkAttendance (newId env2 AttendanceCreate) (student_id student) eid) ∧
    tickets s2 !! ticket_id t
      = Some (mkTicket (ticket_id t) (booking_id b) (ticket_qrCode t) true (Some (now env2))).
Proof.
  intros Hreq Hb1 Hb2 Ht1 Ht2 Hreq2 Hu Hc Ha.
  set (s1 := ticketed_store env (booked_store env student eid s)).
  exists (booking_row env student eid), (ticket_row env), s1,
         (attended_store env2 (booking_row env student eid)
            (scanned_store env2 (newId env TicketCreate) (ticket_row env) s1)).
  split; [by apply books_accepted|]. split; [done|]. split.
  - apply (scan_unscanned env2 req2 s1 _ (ticket_row env) (booking_row env student eid));
      try done.
    + simpl. by rewrite lookup_insert_eq.
    + simpl. by rewrite lookup_insert_eq.
  - simpl. by rewrite !lookup_insert_eq.
Qed.

(** X14: a scan writes at most the ticket named in its body and one
    Attendance row: every other ticket, and every booking, user, student,
    organizer and event, is left as it was, and no Attendance row is changed
    or removed. *)
Theorem scan_frame env req s o s' :
  run (post_organizer_scan env req) s = (o, s') →
  (∀ k, body req !! "ticketId" ≠ Some k → tickets s' !! k = tickets s !! k) ∧
  (∀ k a, attendance s !! k = Some a → attendance s' !! k = Some a) ∧
  bookings s' = bookings s ∧ users s' = users s ∧ students s' = students s ∧
  organizers s' = organizers s ∧ events s' = events s.
Proof.
  intros Hrun. apply scan_cases in Hrun
    as [[-> _]|(tid & t & [_ Hbody] & Ht & Hs & [[-> _]|(b & Hb & Ha & -> & _)])].
  - done.
  - simpl. split_and!; try done.
    intros k Hk. rewrite lookup_insert_ne; [done|]. congruence.
  - simpl. split_and!; try done.
    + intros k Hk. rewrite lookup_insert_ne; [done|]. congruence.
    + intros k a Hk. rewrite lookup_insert_ne; [done|]. congruence.
Qed.

(** X15: two scans in flight for two different unscanned tickets do not
    disturb each other: in every interleaving of their store calls both
    answer success, both tickets end up scanned and two Attendance rows are
    added. *)
Theorem concurrent_scans_of_two_tickets envA reqA envB reqB s tidA tA bA tidB tB bB sched :
  organizer_scans envA reqA tidA →
  organizer_scans envB reqB tidB →
  tidA ≠ tidB →
  tickets s !! tidA = Some tA → ticket_isScanned tA = false →
  tickets s !! tidB = Some tB → ticket_isScanned tB = false →
  bookings s !! ticket_bookingId tA = Some bA →
  bookings s !! ticket_bookingId tB = Some bB →
  rejects envA TicketUpdate = false → rejects envA AttendanceCreate = false →
  rejects envB TicketUpdate = false → rejects envB AttendanceCreate = false →
  attendance s !! newId envA AttendanceCreate = None →
  attendance s !! newId envB AttendanceCreate = None →
  newId envA AttendanceCreate ≠ newId envB AttendanceCreate →
  complete sched = true →
  let sys := interleave envA reqA envB reqB sched s in
  taskA sys = Finished (Scanned (students s !! booking_studentId bA)) ∧
  taskB sys = Finished (Scanned (students s !! booking_studentId bB)) ∧
  tickets (store sys) !! tidA = Some (mark_scanned envA tA) ∧
  tickets (store sys) !! tidB = Some (mark_scanned envB tB) ∧
  size (attendance (store sys)) = S (S (size (attendance s))).
Proof.
  intros HA HB Hne HtA HsA HtB HsB HbA HbB HuA HcA HuB HcB HaA HaB Hida Hsched.
  pose proof (complete_length sched Hsched) as Hlen.
  destruct sched as [|w1 [|w2 [|w3 [|w4 [|w5 [|w6 [|w7 sched]]]]]]]; try done.
  clear Hlen.
  destruct w1, w2, w3, w4, w5, w6; try (by vm_compute in Hsched);
    clear Hsched; unfold interleave; cbn [fold_left].
  all: repeat advance1.
  all: cbn [taskA taskB store]; simpl.
  all: rewrite ?map_size_insert_None
         by (rewrite ?lookup_insert_ne by congruence; done).
  all: split_and!; try done.
  all: rewrite ?lookup_insert_eq, ?(lookup_insert_ne _ tidA tidB),
         ?(lookup_insert_ne _ tidB tidA), ?lookup_insert_eq by congruence; done.
Qed.

(** * One-time passwords *)

Ltac unfold_action :=
  unfold perform, post_auth_otp_send, post_auth_otp_verify, get_events, get_event,
    post_events, on_chat_message, oTPLog_create, oTPLog_findFirst, user_findUnique,
    event_create, chatMessage_create, models_generateContent, insert_row,
    act_bind, act_ret, answer, raise, get_server, update.

Lemma pretty_N_go_digits (k : nat) : ∀ n s,
  (n < 10 ^ N.of_nat k)%N →
  (k = 0%nat ∨ (10 ^ N.of_nat (k - 1) ≤ n)%N) →
  String.length (pretty_N_go n s) = (k + String.length s)%nat.
Proof.
  induction k as [|k IH]; intros n s Hlt Hge.
  - change (10 ^ N.of_nat 0)%N with 1%N in Hlt. clear Hge.
    assert (n = 0%N) as -> by lia. by rewrite pretty_N_go_0.
  - destruct Hge as [|Hge]; [done|].
    replace (S k - 1)%nat with k in Hge by lia.
    assert (0 < 10 ^ N.of_nat k)%N as Hpow by (apply N.neq_0_lt_0, N.pow_nonzero; lia).
    rewrite Nat2N.inj_succ, N.pow_succ_r' in Hlt.
    set (p := (10 ^ N.of_nat k)%N) in *.
    rewrite pretty_N_go_step by lia.
    rewrite IH.
    + simpl. lia.
    + apply N.Div0.div_lt_upper_bound. fold p. lia.
    + destruct k as [|k]; [by left|right].
      replace (S k - 1)%nat with k by lia.
      apply N.div_le_lower_bound; [lia|].
      unfold p in Hge. rewrite Nat2N.inj_succ, N.pow_succ_r' in Hge. lia.
Qed.

Lemma pretty_N_six (n : N) :
  (100000 ≤ n)%N → (n < 1000000)%N → String.length (pretty n) = 6%nat.
Proof.
  intros Hge Hlt. unfold pretty, pretty_N. case_decide; [lia|].
  apply (pretty_N_go_digits 6 n ""); [exact Hlt|right; exact Hge].
Qed.

Lemma otp_draw_range (r : Q) :
  (0 <= r)%Q → (r < 1)%Q →
  (100000 ≤ Qfloor (100000 + r * 900000)%Q < 1000000)%Z.
Proof.
  intros H0 H1. split.
  - assert (Qfloor (inject_Z 100000) ≤ Qfloor (100000 + r * 900000)%Q)%Z as H.
    { apply Qfloor_resp_le. unfold inject_Z. lra. }
    by rewrite Qfloor_Z in H.
  - rewrite Zlt_Qlt. eapply Qle_lt_trans; [apply Qfloor_le|]. unfold inject_Z. lra.
Qed.

(** X16: when [Math.random()] draws a number in [0, 1), the one-time
    password is the decimal writing of an integer between 100000 and 999999:
    it always has six digits and never starts with 0. *)
Theorem otp_has_six_digits amb :
  (0 <= random amb)%Q → (random amb < 1)%Q →
  ∃ n : N, new_otp amb = pretty n ∧ (100000 ≤ n)%N ∧ (n ≤ 999999)%N ∧
           String.length (new_otp amb) = 6%nat.
Proof.
  intros H0 H1. destruct (otp_draw_range (random amb) H0 H1) as [Hge Hlt].
  unfold new_otp. destruct (Qfloor _) as [|z|z] eqn:Hz; [lia| |lia].
  exists (Npos z). change (pretty (Z.pos z)) with (pretty (Npos z)).
  split_and!; [done|lia|lia|]. apply pretty_N_six; lia.
Qed.

Lemma findMany_insert_fresh {A} (P : A → bool) (m : gmap string A) k v :
  m !! k = None →
  findMany P (<[k:=v]> m) ≡ₚ (if P v then [v] else []) ++ findMany P m.
Proof.
  intros Hk. unfold findMany. rewrite map_to_list_insert by done.
  rewrite fmap_cons, filter_cons. simpl. by destruct (P v).
Qed.

Lemma later_log_some l ls : is_Some (foldr later_log None (l :: ls)).
Proof. simpl. destruct (foldr later_log None ls) as [b|]; simpl; [|eauto]. case_match; eauto. Qed.

Lemma verify_rejects amb req w :
  findMany (otp_matches amb req) (oTPLog w) = [] →
  perform (post_auth_otp_verify amb req) w
    = (Answered (Plain (Json 400 (ErrorBody "Invalid or expired OTP"))), w).
Proof.
  intros Hnone. unfold_action. fold (otp_matches amb req). by rewrite Hnone.
Qed.

Lemma verify_known_user amb req w l ls p user :
  findMany (otp_matches amb req) (oTPLog w) = l :: ls →
  body req !! "phone" = Some p →
  head (findMany (λ u, bool_decide (user_phone u = Some p)) (users (db w))) = Some user →
  perform (post_auth_otp_verify amb req) w
    = (Answered (Plain (Json 200 (AuthBody
         (jwt_sign (mkClaims (user_id user) (user_role user)) (JWT_SECRET (amb_env amb))
                   (now (amb_env amb)))
         user))), w).
Proof.
  intros Hl Hp Hu. unfold_action. fold (otp_matches amb req). rewrite Hl.
  destruct (later_log_some l ls) as [b ->]. rewrite Hp. simpl. by rewrite Hu.
Qed.

Lemma verify_new_user amb req w l ls p :
  findMany (otp_matches amb req) (oTPLog w) = l :: ls →
  body req !! "phone" = Some p →
  head (findMany (λ u, bool_decide (user_phone u = Some p)) (users (db w))) = None →
  rejects (amb_env amb) UserCreate = false →
  users (db w) !! newId (amb_env amb) UserCreate = None →
  perform (post_auth_otp_verify amb req) w
    = (Answered (Plain (Json 200 (AuthBody
         (jwt_sign (mkClaims (newId (amb_env amb) UserCreate) "STUDENT")
                   (JWT_SECRET (amb_env amb)) (now (amb_env amb)))
         (mkUser (newId (amb_env amb) UserCreate) "STUDENT" (Some p))))),
       set_db (set_users (insert (newId (amb_env amb) UserCreate)
                            (mkUser (newId (amb_env amb) UserCreate) "STUDENT" (Some p)))) w).
Proof.
  intros Hl Hp Hu Hr Hfresh. unfold_action. fold (otp_matches amb req). rewrite Hl.
  destruct (later_log_some l ls) as [b ->]. rewrite Hp. simpl. rewrite Hu.
  unfold lift. unfold_handler. by rewrite Hr, Hfresh.
Qed.

(** Every way a verify request can end. *)
Lemma verify_cases amb req w e w' :
  perform (post_auth_otp_verify amb req) w = (e, w') →
  oTPLog w' = oTPLog w ∧ chatMessage w' = chatMessage w ∧
  ((db w' = db w ∧ ∀ token user, e ≠ Answered (Plain (Json 200 (AuthBody token user)))) ∨
   ∃ p user,
     body req !! "phone" = Some p ∧
     findMany (otp_matches amb req) (oTPLog w) ≠ [] ∧
     e = Answered (Plain (Json 200 (AuthBody
           (jwt_sign (mkClaims (user_id user) (user_role user)) (JWT_SECRET (amb_env amb))
                     (now (amb_env amb)))
           user))) ∧
     ((head (findMany (λ u, bool_decide (user_phone u = Some p)) (users (db w))) = Some user ∧
       w' = w) ∨
      (head (findMany (λ u, bool_decide (user_phone u = Some p)) (users (db w))) = None ∧
       user = mkUser (newId (amb_env amb) UserCreate) "STUDENT" (Some p) ∧
       users (db w) !! user_id user = None ∧
       db w' = set_users (insert (user_id user) user) (db w)))).
Proof.
  unfold_action. fold (otp_matches amb req).
  destruct (findMany (otp_matches amb req) (oTPLog w)) as [|l ls] eqn:Hl; simpl.
  { intros [= <- <-]. split_and!; try done. by left. }
  fold (foldr later_log None ls). destruct (later_log_some l ls) as [b Hb].
  simpl in Hb. rewrite Hb.
  destruct (body req !! "phone") as [p|] eqn:Hp; simpl.
  2:{ intros [= <- <-]. split_and!; try done. by left. }
  destruct (head _) as [user|] eqn:Hu; simpl.
  { intros [= <- <-]. split_and!; try done. right. exists p, user.
    split_and!; try done. by left. }
  unfold lift. unfold_handler.
  destruct (rejects (amb_env amb) UserCreate); simpl.
  { intros [= <- <-]. split_and!; try done. by left. }
  destruct (users (db w) !! _) eqn:Hfresh; simpl.
  { intros [= <- <-]. split_and!; try done. by left. }
  intros [= <- <-]. split_and!; try done. right.
  exists p, (mkUser (newId (amb_env amb) UserCreate) "STUDENT" (Some p)).
  split_and!; try done. by right.
Qed.

Lemma findMany_nil_inv {A} (P : A → bool) (m : gmap string A) k v :
  findMany P m = [] → m !! k = Some v → P v = false.
Proof.
  intros Hnil Hk. destruct (P v) eqn:HP; [|done].
  assert (v ∈ findMany P m) as Hin by (apply findMany_elem; eauto).
  rewrite Hnil in Hin. by apply not_elem_of_nil in Hin.
Qed.

Lemma head_findMany {A} (P : A → bool) (m : gmap string A) v :
  head (findMany P m) = Some v → P v = true ∧ ∃ k, m !! k = Some v.
Proof. intros H. apply findMany_elem. by apply head_Some_elem_of. Qed.

Lemma head_findMany_none {A} (P : A → bool) (m : gmap string A) :
  head (findMany P m) = None → findMany P m = [].
Proof. by destruct (findMany P m). Qed.

(** After the insert of the only row that satisfies [P], it is the row
    that a lookup by [P] finds. *)
Lemma findMany_insert_only {A} (P : A → bool) (m : gmap string A) k v :
  m !! k = None → findMany P m = [] → P v = true →
  findMany P (<[k:=v]> m) = [v].
Proof.
  intros Hk Hnil HP. apply Permutation_singleton_r.
  rewrite findMany_insert_fresh by done. by rewrite HP, Hnil.
Qed.

(** X17: a password that was sent opens the session for five minutes and
    not longer.  After a send for a phone that had no password pending, a
    verify with that phone and the password sent succeeds when the clock is
    before the time of the send plus 300000 ms, provided the store accepts
    the insert of the user if there is none yet, and is answered 400
    "Invalid or expired OTP" from that instant on. *)
Theorem otp_send_then_verify amb1 req1 amb2 req2 w p :
  body req1 !! "phone" = Some p →
  refuses amb1 OTPLogCreate = false →
  oTPLog w !! generated amb1 OTPLogCreate = None →
  (∀ k l, oTPLog w !! k = Some l → oTPLog_phone l ≠ p) →
  body req2 !! "phone" = Some p →
  body req2 !! "otp" = Some (new_otp amb1) →
  rejects (amb_env amb2) UserCreate = false →
  users (db w) !! newId (amb_env amb2) UserCreate = None →
  ∃ w1,
    perform (post_auth_otp_send amb1 req1) w = (Answered (MessageJson "OTP sent"), w1) ∧
    ((now (amb_env amb2) < now (amb_env amb1) + 300000)%N →
       ∃ token user w2,
         perform (post_auth_otp_verify amb2 req2) w1
           = (Answered (Plain (Json 200 (AuthBody token user))), w2) ∧
         user_phone user = Some p ∧
         jwt_payload token = mkClaims (user_id user) (user_role user)) ∧
    ((now (amb_env amb1) + 300000 ≤ now (amb_env amb2))%N →
       perform (post_auth_otp_verify amb2 req2) w1
         = (Answered (Plain (Json 400 (ErrorBody "Invalid or expired OTP"))), w1)).
Proof.
  intros Hp1 Hacc Hfresh Hnone Hp2 Hotp Hurej Hufresh.
  set (row := mkOTPLog (generated amb1 OTPLogCreate) p (new_otp amb1)
                (now (amb_env amb1) + 5 * 60 * 1000)%N (now (amb_env amb1))).
  set (w1 := set_oTPLog (insert (generated amb1 OTPLogCreate) row) w).
  exists w1.
  assert (findMany (otp_matches amb2 req2) (oTPLog w) = []) as Hold.
  { apply findMany_none. intros k l Hk. unfold otp_matches. rewrite Hp2. simpl.
    rewrite bool_decide_eq_false_2; [done|]. by apply (Hnone k). }
  assert (otp_matches amb2 req2 row
          = (now (amb_env amb2) <? now (amb_env amb1) + 300000)%N) as Hrow.
  { unfold otp_matches. rewrite Hp2, Hotp. simpl.
    by rewrite !bool_decide_eq_true_2. }
  split_and!.
  - unfold_action. by rewrite Hp1, Hacc, Hfresh.
  - intros Hlt.
    assert (findMany (otp_matches amb2 req2) (oTPLog w1) = [row]) as Hnew.
    { apply findMany_insert_only; [done..|]. rewrite Hrow. by apply N.ltb_lt. }
    destruct (head (findMany (λ u, bool_decide (user_phone u = Some p)) (users (db w1))))
      as [user|] eqn:Hu.
    + exists (jwt_sign (mkClaims (user_id user) (user_role user)) (JWT_SECRET (amb_env amb2))
                       (now (amb_env amb2))),
             user, w1.
      split; [by apply (verify_known_user amb2 req2 w1 row [] p)|].
      split; [|done]. apply head_findMany in Hu as [Hu _].
      by apply bool_decide_eq_true in Hu.
    + eexists _, _, _. split; [by apply (verify_new_user amb2 req2 w1 row [] p)|]. done.
  - intros Hge. apply verify_rejects.
    apply Permutation_nil_r.
    unfold w1. simpl. rewrite findMany_insert_fresh by done.
    rewrite Hold, Hrow. by rewrite (proj2 (N.ltb_ge _ _)).
Qed.

(** X18: a verify request is answered 400 "Invalid or expired OTP", and
    nothing is written, when every logged password is for another phone, is
    another password, or has an expiry that is not after the clock. *)
Theorem otp_verify_without_match amb req w p otp :
  body req !! "phone" = Some p →
  body req !! "otp" = Some otp →
  (∀ k l, oTPLog w !! k = Some l →
     oTPLog_phone l ≠ p ∨ oTPLog_otp l ≠ otp ∨
     (oTPLog_expiresAt l ≤ now (amb_env amb))%N) →
  perform (post_auth_otp_verify amb req) w
    = (Answered (Plain (Json 400 (ErrorBody "Invalid or expired OTP"))), w).
Proof.
  intros Hp Ho Hno. apply verify_rejects, findMany_none.
  intros k l Hk. unfold otp_matches. rewrite Hp, Ho. simpl.
  destruct (Hno k l Hk) as [H|[H|H]].
  - by rewrite (bool_decide_eq_false_2 _ H).
  - rewrite (bool_decide_eq_false_2 _ H). apply andb_false_intro1, andb_false_r.
  - rewrite (proj2 (N.ltb_ge _ _) H). apply andb_false_r.
Qed.

(** X19: a verify never consumes the password.  It leaves the log table
    as it is, and after a verify that succeeded the same request succeeds
    again, for the same user and without any write, as long as the
    passwords it matched have not expired; the token of the replay is
    signed over the same id and role, at the time of the replay. *)
Theorem otp_can_be_replayed amb req w token user w' amb' :
  perform (post_auth_otp_verify amb req) w
    = (Answered (Plain (Json 200 (AuthBody token user))), w') →
  (∀ k l, oTPLog w !! k = Some l → otp_matches amb req l = true →
          (now (amb_env amb') < oTPLog_expiresAt l)%N) →
  oTPLog w' = oTPLog w ∧
  perform (post_auth_otp_verify amb' req) w'
    = (Answered (Plain (Json 200 (AuthBody
         (jwt_sign (jwt_payload token) (JWT_SECRET (amb_env amb')) (now (amb_env amb')))
         user))), w').
Proof.
  intros Hrun Hvalid.
  destruct (verify_cases amb req w _ _ Hrun) as (Hlog & _ & [[_ Hne]|Hok]).
  { by destruct (Hne token user). }
  split; [done|].
  destruct Hok as (p & user' & Hp & Hmatch & [= -> ->] & Huser).
  assert (∃ l ls, findMany (otp_matches amb' req) (oTPLog w') = l :: ls) as (l' & ls' & Hl').
  { destruct (findMany (otp_matches amb req) (oTPLog w)) as [|l ls] eqn:Hl; [done|].
    assert (l ∈ findMany (otp_matches amb req) (oTPLog w)) as Hin
      by (rewrite Hl; apply list_elem_of_here).
    apply findMany_elem in Hin as [Hm [k Hk]].
    assert (l ∈ findMany (otp_matches amb' req) (oTPLog w')) as Hin'.
    { apply findMany_elem. rewrite Hlog. split; [|eauto].
      pose proof (Hvalid k l Hk Hm) as Hlt.
      unfold otp_matches in *. apply andb_prop in Hm as [Hm _]. rewrite Hm. simpl.
      by apply N.ltb_lt. }
    destruct (findMany (otp_matches amb' req) (oTPLog w')); [|eauto].
    by apply not_elem_of_nil in Hin'. }
  simpl.
  apply (verify_known_user amb' req w' l' ls' p); [done..|].
  destruct Huser as [[Hu ->]|(Hu & Hnew & Hfresh & Hdb)]; [done|].
  rewrite Hdb. simpl. rewrite findMany_insert_only; [done..| |].
  - by apply head_findMany_none.
  - rewrite Hnew. simpl. by apply bool_decide_eq_true.
Qed.

(** X20: the user of a successful verify.  The reply carries a user whose
    phone is the phone of the request and a token for that user's id and
    role.  When a user with the phone exists, it is that user, whatever its
    role, and nothing is written; otherwise no user had the phone, and the
    user is a new row with the role STUDENT. *)
Theorem otp_verify_user amb req w token user w' :
  perform (post_auth_otp_verify amb req) w
    = (Answered (Plain (Json 200 (AuthBody token user))), w') →
  ∃ p,
    body req !! "phone" = Some p ∧
    user_phone user = Some p ∧
    token = jwt_sign (mkClaims (user_id user) (user_role user)) (JWT_SECRET (amb_env amb))
                     (now (amb_env amb)) ∧
    (((∃ k, users (db w) !! k = Some user) ∧ w' = w) ∨
     ((∀ k u, users (db w) !! k = Some u → user_phone u ≠ Some p) ∧
      user_role user = "STUDENT" ∧
      users (db w) !! user_id user = None ∧
      users (db w') = <[user_id user := user]> (users (db w)))).
Proof.
  intros Hrun.
  destruct (verify_cases amb req w _ _ Hrun) as (_ & _ & [[_ Hne]|Hok]).
  { by destruct (Hne token user). }
  destruct Hok as (p & user' & Hp & _ & [= -> ->] & Huser).
  exists p. split; [done|].
  destruct Huser as [[Hu ->]|(Hu & Hnew & Hfresh & Hdb)].
  - apply head_findMany in Hu as [HP Hk].
    apply bool_decide_eq_true in HP. split_and!; [done..|]. by left.
  - split_and!; [by rewrite Hnew|done|]. right. split_and!.
    + intros k u Hk Hphone.
      pose proof (findMany_nil_inv _ _ k u (head_findMany_none _ _ Hu) Hk) as HP.
      by apply bool_decide_eq_false in HP.
    + by rewrite Hnew.
    + done.
    + by rewrite Hdb.
Qed.

(** * Events *)

Lemma set_db_same w : set_db (λ _, db w) w = w.
Proof. by destruct w. Qed.

Lemma lift_next {A} (h : Handler A) w a :
  h (db w) = (Next a, db w) → lift h w = (Continue a, w).
Proof. intros H. unfold lift. by rewrite H, set_db_same. Qed.

Lemma lift_exit {A} (h : Handler A) w o :
  h (db w) = (Exit o, db w) → lift h w = (Done (ending_of o), w).
Proof. intros H. unfold lift. by rewrite H, set_db_same. Qed.

(** Every way a create-event request can end. *)
Lemma post_events_cases amb req data w e w' :
  perform (post_events amb req data) w = (e, w') →
  (w' = w ∧ ∀ event, e ≠ Answered (EventJson event)) ∨
  ∃ user organizer capacity price,
    caller (amb_env amb) req = Some user ∧
    claims_role user = "ORGANIZER" ∧
    head (findMany (λ o, bool_decide (organizer_userId o = claims_id user))
                   (organizers (db w))) = Some organizer ∧
    organizer_isApproved organizer = true ∧
    data_capacity data = Some capacity ∧ data_price data = Some price ∧
    events (db w) !! default (generated amb EventCreate) (data_id data) = None ∧
    e = Answered (EventJson
          (mkEvent (default (generated amb EventCreate) (data_id data))
                   (organizer_id organizer) capacity price "PENDING")) ∧
    w' = nested_writes data (default (generated amb EventCreate) (data_id data))
           (set_db (set_events
              (insert (default (generated amb EventCreate) (data_id data))
                 (mkEvent (default (generated amb EventCreate) (data_id data))
                          (organizer_id organizer) capacity price "PENDING"))) w).
Proof.
  unfold perform, post_events, act_bind, caller.
  destruct (bearer req) as [token|] eqn:Hb.
  2:{ rewrite (lift_exit _ w (Replied (SendStatus 401)));
        [|by unfold authenticateToken; rewrite Hb].
      intros [= <- <-]. by left. }
  destruct (jwt_verify token (JWT_SECRET (amb_env amb))) as [user|] eqn:Hv.
  2:{ rewrite (lift_exit _ w (Replied (SendStatus 403)));
        [|by unfold authenticateToken; rewrite Hb, Hv].
      intros [= <- <-]. by left. }
  rewrite (lift_next _ w user); [|by unfold authenticateToken; rewrite Hb, Hv].
  case_bool_decide as Hrole; [intros [= <- <-]; by left|].
  rewrite (lift_next _ w
             (head (findMany (λ o, bool_decide (organizer_userId o = claims_id user))
                             (organizers (db w))))); [|done].
  destruct (head _) as [organizer|] eqn:Ho; [|intros [= <- <-]; by left].
  destruct (organizer_isApproved organizer) eqn:Happ; simpl;
    [|intros [= <- <-]; by left].
  unfold event_create.
  destruct (data_capacity data) as [capacity|]; [|intros [= <- <-]; by left].
  destruct (data_price data) as [price|]; [|intros [= <- <-]; by left].
  unfold_action.
  destruct (refuses amb EventCreate); [intros [= <- <-]; by left|].
  destruct (events (db w) !! _) eqn:Hfresh; [intros [= <- <-]; by left|].
  intros [= <- <-]. right. exists user, organizer, capacity, price.
  by split_and!.
Qed.

(** X21: whatever the body of a create-event request holds, an event that
    is created is PENDING and belongs to the caller's own Organizer profile;
    and one is created only for a caller with the ORGANIZER role whose
    profile is approved.  Its id was free, and when the body has scalar
    fields only, the events table gains this row and nothing else. *)
Theorem created_event_is_pending amb req data w event w' :
  perform (post_events amb req data) w = (Answered (EventJson event), w') →
  event_status event = "PENDING" ∧
  ∃ user organizer,
    caller (amb_env amb) req = Some user ∧
    claims_role user = "ORGANIZER" ∧
    head (findMany (λ o, bool_decide (organizer_userId o = claims_id user))
                   (organizers (db w))) = Some organizer ∧
    organizer_isApproved organizer = true ∧
    event_organizerId event = organizer_id organizer ∧
    events (db w) !! event_id event = None ∧
    (data_relations data = None →
     events (db w') = <[event_id event := event]> (events (db w))).
Proof.
  intros Hrun. apply post_events_cases in Hrun
    as [[_ Hne]|(user & organizer & capacity & price & Hc & Hr & Ho & Ha & _ & _ & Hf
                 & [= ->] & ->)].
  { by destruct (Hne event). }
  split; [done|]. exists user, organizer. split_and!; [done..|].
  intros Hscalar. unfold nested_writes. by rewrite Hscalar.
Qed.

(** X22: a create-event request by an authenticated caller is answered
    403, and writes nothing, when the caller's role is not ORGANIZER, and
    403 "Organizer not approved" when the role is ORGANIZER and the caller
    has no Organizer profile or one that is not approved. *)
Theorem create_event_gate amb req data w user :
  caller (amb_env amb) req = Some user →
  (claims_role user ≠ "ORGANIZER" →
     perform (post_events amb req data) w = (Answered (Plain (SendStatus 403)), w)) ∧
  (claims_role user = "ORGANIZER" →
   (∀ organizer,
      head (findMany (λ o, bool_decide (organizer_userId o = claims_id user))
                     (organizers (db w))) = Some organizer →
      organizer_isApproved organizer = false) →
   perform (post_events amb req data) w
     = (Answered (Plain (Json 403 (ErrorBody "Organizer not approved"))), w)).
Proof.
  intros Hc.
  assert (lift (authenticateToken (amb_env amb) req) w = (Continue user, w)) as Hauth
    by by apply lift_next, caller_authenticates.
  split.
  - intros Hr. unfold perform, post_events, act_bind. rewrite Hauth.
    by rewrite bool_decide_eq_true_2.
  - intros Hr Hno. unfold perform, post_events, act_bind. rewrite Hauth.
    rewrite bool_decide_eq_false_2 by (by intros H; apply H).
    rewrite (lift_next _ w
               (head (findMany (λ o, bool_decide (organizer_userId o = claims_id user))
                               (organizers (db w))))); [|done].
    destruct (head _) as [organizer|] eqn:Ho; [|done].
    by rewrite (Hno organizer eq_refl).
Qed.

(** X23: the list of events holds exactly the events whose status is
    APPROVED, each with its organizer and the number of its bookings; the
    route takes no token and writes nothing. *)
Theorem events_list_only_approved w :
  ∃ l,
    perform get_events w = (Answered (EventsJson l), w) ∧
    ∀ x, x ∈ l ↔
      ∃ k e, events (db w) !! k = Some e ∧ event_status e = "APPROVED" ∧
             x = mkEventIncl e
                   (include_organizer (db w) <$> organizers (db w) !! event_organizerId e)
                   (count (λ b, bool_decide (booking_eventId b = event_id e))
                          (bookings (db w))).
Proof.
  eexists. split; [done|]. intros x. rewrite list_elem_of_fmap. split.
  - intros (e & -> & Hin). apply findMany_elem in Hin as [Hs [k Hk]].
    apply bool_decide_eq_true in Hs. by exists k, e.
  - intros (k & e & Hk & Hs & ->). exists e. split; [done|].
    apply findMany_elem. split; [by apply bool_decide_eq_true|eauto].
Qed.

(** X24: an event that was just created, from a body with scalar fields
    only, is not in the list of events, which is the list of before up to
    the order, but the route by id returns it, PENDING as it is; and the
    route by id answers null, not an error, for an id that no event has. *)
Theorem created_event_listing amb req data w event w' :
  perform (post_events amb req data) w = (Answered (EventJson event), w') →
  data_relations data = None →
  (∃ l l',
     perform get_events w = (Answered (EventsJson l), w) ∧
     perform get_events w' = (Answered (EventsJson l'), w') ∧
     l' ≡ₚ l ∧ ∀ x, x ∈ l' → ev x ≠ event) ∧
  perform (get_event (event_id event)) w'
    = (Answered (EventOrNull (Some (include_event (db w') event))), w') ∧
  (∀ id, events (db w') !! id = None →
     perform (get_event id) w' = (Answered (EventOrNull None), w')).
Proof.
  intros Hrun Hscalar. apply post_events_cases in Hrun
    as [[_ Hne]|(user & organizer & capacity & price & _ & _ & _ & _ & _ & _ & Hf
                 & [= ->] & ->)].
  { by destruct (Hne event). }
  unfold nested_writes. rewrite Hscalar.
  split_and!.
  - eexists _, _. split; [done|]. split; [done|]. simpl. split.
    + rewrite findMany_insert_fresh by done. simpl. reflexivity.
    + intros x Hx. apply list_elem_of_fmap in Hx as (e & -> & Hin).
      apply findMany_elem in Hin as [Hs _]. apply bool_decide_eq_true in Hs.
      simpl. intros ->. done.
  - unfold_action. simpl. by rewrite lookup_insert_eq.
  - intros id Hid. unfold_action. by rewrite Hid.
Qed.

(** * The chat listener *)

(** X25: a chat message whose two inserts the store accepts and that the
    model answers adds exactly two rows for the sender, first the message
    with the role "user", then the reply with the role "assistant", and
    emits the reply: the text of the model, or "I'm sorry, I couldn't
    process that." when that text is undefined or empty. *)
Theorem chat_reply_stored_and_emitted amb data w text :
  refuses amb ChatUserCreate = false →
  refuses amb ChatAssistantCreate = false →
  chatMessage w !! generated amb ChatUserCreate = None →
  chatMessage w !! generated amb ChatAssistantCreate = None →
  generated amb ChatUserCreate ≠ generated amb ChatAssistantCreate →
  generateContent amb (chat_message data) = Some text →
  ∃ reply w',
    perform (on_chat_message amb data) w = (Answered (Emit reply), w') ∧
    (reply = "I'm sorry, I couldn't process that." ↔
       text = None ∨ text = Some "" ∨ text = Some "I'm sorry, I couldn't process that.") ∧
    (∀ t, text = Some t → t ≠ "" → reply = t) ∧
    chatMessage w' =
      <[generated amb ChatAssistantCreate :=
          mkChatMessage (generated amb ChatAssistantCreate) (chat_userId data)
                        reply "assistant"]>
      (<[generated amb ChatUserCreate :=
          mkChatMessage (generated amb ChatUserCreate) (chat_userId data)
                        (chat_message data) "user"]> (chatMessage w)) ∧
    size (chatMessage w') = S (S (size (chatMessage w))) ∧
    db w' = db w ∧ oTPLog w' = oTPLog w.
Proof.
  intros Hr1 Hr2 Hf1 Hf2 Hne Hgen.
  exists (text_or_apology text). eexists. split.
  { unfold_action. rewrite Hr1, Hf1, Hgen. simpl. rewrite Hr2.
    by rewrite lookup_insert_ne, Hf2. }
  split_and!; try done.
  - destruct text as [[|c t]|]; simpl.
    + split; [intros _; by right; left|done].
    + split; [intros H; rewrite H; by right; right|intros [H|[H|H]]; congruence].
    + split; [intros _; by left|done].
  - intros t -> Ht. by destruct t.
  - simpl. rewrite !map_size_insert_None; [done..|]. by rewrite lookup_insert_ne.
Qed.

(** X26: when the call to the model fails, the exception escapes the
    listener: nothing is emitted and no apology is stored, while the row of
    the user's message, inserted before the call, stays. *)
Theorem chat_model_failure amb data w :
  refuses amb ChatUserCreate = false →
  chatMessage w !! generated amb ChatUserCreate = None →
  generateContent amb (chat_message data) = None →
  ∃ w',
    perform (on_chat_message amb data) w = (Errored ModelFailure, w') ∧
    chatMessage w' =
      <[generated amb ChatUserCreate :=
          mkChatMessage (generated amb ChatUserCreate) (chat_userId data)
                        (chat_message data) "user"]> (chatMessage w) ∧
    db w' = db w ∧ oTPLog w' = oTPLog w.
Proof.
  intros Hr Hf Hgen. eexists. split.
  { unfold_action. by rewrite Hr, Hf, Hgen. }
  done.
Qed.

(** * The whole server *)

Lemma serve_core_db c w :
  db (serve_core c w).2 = serve1 (db w) c ∧
  oTPLog (serve_core c w).2 = oTPLog w ∧
  chatMessage (serve_core c w).2 = chatMessage w.
Proof.
  unfold serve_core, serve1, perform, act_bind, lift, run, answer.
  by destruct (handle _ _ _ (db w)) as [[r|o] s'].
Qed.

(** What one incoming request or message can do to the tables, when it
    hands no relation fields to Prisma. *)
Lemma receive1_cases i w :
  scalar_only i →
  (∃ c, i = Core c ∧ db (receive1 w i) = serve1 (db w) c ∧
        oTPLog (receive1 w i) = oTPLog w ∧ chatMessage (receive1 w i) = chatMessage w) ∨
  ((∀ c, i ≠ Core c) ∧
   bookings (db (receive1 w i)) = bookings (db w) ∧
   tickets (db (receive1 w i)) = tickets (db w) ∧
   attendance (db (receive1 w i)) = attendance (db w) ∧
   students (db (receive1 w i)) = students (db w) ∧
   organizers (db (receive1 w i)) = organizers (db w)).
Proof.
  destruct i as [c|amb req|amb req| |id|amb req data|amb data]; simpl; intros Hscalar.
  - left. exists c. split; [done|]. apply serve_core_db.
  - right. split; [done|]. unfold_action.
    destruct (body req !! "phone"); [|done].
    destruct (refuses amb OTPLogCreate); [done|].
    by destruct (oTPLog w !! _).
  - right. split; [done|].
    destruct (perform (post_auth_otp_verify amb req) w) as [e w'] eqn:Hrun. simpl.
    destruct (verify_cases amb req w e w' Hrun)
      as (_ & _ & [[-> _]|(p & user & _ & _ & _ & [[_ ->]|(_ & _ & _ & ->)])]); done.
  - right. done.
  - right. done.
  - right. split; [done|].
    destruct (perform (post_events amb req data) w) as [e w'] eqn:Hrun. simpl.
    destruct (post_events_cases amb req data w e w' Hrun)
      as [[-> _]|(user & organizer & capacity & price & _ & _ & _ & _ & _ & _ & _ & _ & ->)];
      [done|].
    unfold nested_writes. by rewrite Hscalar.
  - right. split; [done|]. unfold_action.
    destruct (refuses amb ChatUserCreate); [done|].
    destruct (chatMessage w !! _); [done|]. simpl.
    destruct (generateContent amb _); [|done]. simpl.
    destruct (refuses amb ChatAssistantCreate); [done|].
    by destruct (_ !! _).
Qed.

(** X27: the consistency of the bookings, tickets and attendance tables
    is kept by everything the server can receive, in any order, as long as
    no create-event request carries relation fields in its body: the four
    routes of the workflow, the two one-time-password routes, the three
    event routes and the chat listener. *)
Theorem server_keeps_consistency l w :
  Forall scalar_only l → consistent (db w) → consistent (db (receive l w)).
Proof.
  revert w. induction l as [|i l IH]; intros w Hl Hc; simpl; [done|].
  apply Forall_cons in Hl as [Hi Hl].
  apply IH; [done|].
  destruct (receive1_cases i w Hi)
    as [(c & _ & -> & _)|(_ & Hb & Ht & Ha & _)].
  - by apply consistent_serve1.
  - by apply (consistent_tables (db w)).
Qed.

(** X28: the one-time-password routes, the event routes, for a
    create-event body with scalar fields only, and the chat listener never
    write a booking, a ticket, an Attendance row, a student or an
    organizer; and the four routes of the workflow never write the password
    log or the chat messages. *)
Theorem routes_keep_to_their_tables i w :
  ((∀ c, i ≠ Core c) → scalar_only i →
   bookings (db (receive1 w i)) = bookings (db w) ∧
   tickets (db (receive1 w i)) = tickets (db w) ∧
   attendance (db (receive1 w i)) = attendance (db w) ∧
   students (db (receive1 w i)) = students (db w) ∧
   organizers (db (receive1 w i)) = organizers (db w)) ∧
  (∀ c, i = Core c →
   oTPLog (receive1 w i) = oTPLog w ∧ chatMessage (receive1 w i) = chatMessage w).
Proof.
  split.
  - intros Hne Hi.
    destruct (receive1_cases i w Hi) as [(c & -> & _)|(_ & H)]; [|done].
    by destruct (Hne c).
  - intros c ->. simpl. by destruct (serve_core_db c w) as (_ & Ho & Hm).
Qed.

(** * The further properties on the scenario *)

(** X1, on the scenario: a scan without a token. *)
Lemma authenticated_routes_gate_witness :
  run (post_organizer_scan (demo_env "1") (mkRequest None {[ "ticketId" := "t1" ]}))
      booked_demo
    = (Replied (SendStatus 401), booked_demo).
Proof.
  destruct (authenticated_routes_gate OrganizerScan (demo_env "1")
              (mkRequest None {[ "ticketId" := "t1" ]}) booked_demo) as [Hnone _].
  - discriminate.
  - exact (Hnone eq_refl).
Defined.

(** X2, on the scenario: the student scans the ticket. *)
Lemma scan_requires_organizer_role_witness :
  run (post_organizer_scan (demo_env "1")
         (mkRequest (Some student_token) {[ "ticketId" := "t1" ]})) booked_demo
    = (Replied (SendStatus 403), booked_demo).
Proof.
  apply (scan_requires_organizer_role _ _ _ (mkClaims "u1" "STUDENT")).
  - reflexivity.
  - discriminate.
Defined.

(** X3, on the scenario: the organizer, who has no Student profile, books. *)
Lemma booking_requires_student_profile_witness :
  run (post_bookings (demo_env "1") (mkRequest (Some organizer_token) {[ "eventId" := "e1" ]}))
      demo_store
    = (Replied (Json 400 (ErrorBody "Not a student")), demo_store).
Proof.
  apply (booking_requires_student_profile _ _ _ (mkClaims "u2" "ORGANIZER")).
  - reflexivity.
  - intros k st Hk. unfold demo_store in Hk. simpl in Hk.
    apply lookup_singleton_Some in Hk as [_ <-]. discriminate.
Defined.

(** X4, on the scenario: the student's id under the ORGANIZER role. *)
Lemma booking_ignores_role_witness :
  run (post_bookings (demo_env "1") book_e1) demo_store
    = run (post_bookings (demo_env "1")
             (mkRequest (Some student_as_organizer_token) {[ "eventId" := "e1" ]}))
          demo_store.
Proof.
  apply (booking_ignores_role _ _ _ _ (mkClaims "u1" "STUDENT") (mkClaims "u1" "ORGANIZER"));
    reflexivity.
Defined.

(** X5, on the scenario: two bookings of an event priced 299. *)
Lemma stats_revenue_flat_witness :
  run (get_organizer_stats (demo_env "3") stats_o1) served_demo
    = (Replied (Json 200 (StatsBody 1 2 200 (b64_of_Z 50))), served_demo) ∧
  200%Z = (100 * Z.of_nat 2)%Z.
Proof.
  assert (run (get_organizer_stats (demo_env "3") stats_o1) served_demo
          = (Replied (Json 200 (StatsBody 1 2 200 (b64_of_Z 50))), served_demo)) as Hrun
    by (vm_compute; reflexivity).
  split; [exact Hrun|].
  exact (proj1 (stats_revenue_flat _ _ _ _ _ _ _ _ Hrun)).
Defined.

(** X6, on the scenario: the student asks for the stats. *)
Lemma stats_read_only_witness :
  run (get_organizer_stats (demo_env "1") (mkRequest (Some student_token) ∅)) served_demo
    = (Replied (SendStatus 403), served_demo).
Proof.
  destruct (stats_read_only (demo_env "1") (mkRequest (Some student_token) ∅) served_demo)
    as [Hsame Hgate].
  rewrite (surjective_pairing (run _ _)), Hsame.
  rewrite (Hgate (mkClaims "u1" "STUDENT")); [reflexivity|reflexivity|].
  intros k o Hk.
  assert (organizers served_demo = {[ "o1" := mkOrganizer "o1" "u2" true ]}) as Ho
    by (vm_compute; reflexivity).
  rewrite Ho in Hk. apply lookup_singleton_Some in Hk as [_ <-]. discriminate.
Defined.

(** X7, on the scenario: the insert of the Attendance row is rejected. *)
Lemma scan_attendance_lost_witness :
  ∃ e s',
    run (post_organizer_scan attendance_rejecting_env scan_t1) booked_demo = (Unhandled e, s') ∧
    attendance s' = attendance booked_demo ∧
    run (post_organizer_scan (demo_env "2") scan_t1) s' = (AlreadyScanned, s').
Proof.
  destruct (scan_attendance_lost attendance_rejecting_env scan_t1 booked_demo "t1"
              (mkTicket "t1" "b1" "TICKET-b1-1700000000000" false None)
              (mkBooking "b1" "s1" "e1" "PAID"))
    as (e & s' & Hrun & _ & Ha & Hnext).
  - split; [|reflexivity]. exists (mkClaims "u2" "ORGANIZER"). split; reflexivity.
  - vm_compute; reflexivity.
  - reflexivity.
  - vm_compute; reflexivity.
  - reflexivity.
  - left. reflexivity.
  - exists e, s'. split; [exact Hrun|]. split; [exact Ha|].
    apply Hnext, organizer_scans_t1.
Defined.

(** X8, on the scenario: from the seeded store, after two bookings and a
    scan. *)
Lemma reachable_store_consistent_witness :
  size (bookings served_demo) = 2%nat ∧
  size (attendance served_demo) = 1%nat ∧
  consistent served_demo ∧
  (count (λ a, bool_decide (attendance_eventId a = "e1")) (attendance served_demo)
   ≤ count (λ b, bool_decide (booking_eventId b = "e1")) (bookings served_demo))%nat.
Proof.
  split; [vm_compute; reflexivity|]. split; [vm_compute; reflexivity|].
  destruct (reachable_store_consistent demo_store demo_calls
              (λ e, bool_decide (e = "e1"))) as [Hseed Hserve].
  apply Hserve, Hseed; reflexivity.
Defined.

(** X9, on the scenario: the scanned ticket after the calls that follow. *)
Lemma scanned_ticket_frozen_witness :
  tickets served_demo !! "t1"
    = Some (mkTicket "t1" "b1" "TICKET-b1-1700000000000" true (Some 1700000000000%N)).
Proof.
  apply (scanned_ticket_frozen
           [ mkCall OrganizerScan (demo_env "2") scan_t1;
             mkCall Bookings (demo_env "2") book_e1 ] scanned_demo).
  - vm_compute; reflexivity.
  - reflexivity.
Defined.

(** X10, on the scenario: the first booking after the calls that follow. *)
Lemma tables_append_only_witness :
  bookings served_demo !! "b1" = Some (mkBooking "b1" "s1" "e1" "PAID") ∧
  events served_demo = events booked_demo.
Proof.
  destruct (tables_append_only
              [ mkCall OrganizerScan (demo_env "1") scan_t1;
                mkCall OrganizerScan (demo_env "2") scan_t1;
                mkCall Bookings (demo_env "2") book_e1 ] booked_demo)
    as (Hb & _ & _ & _ & _ & He).
  split; [|exact He]. apply Hb. vm_compute; reflexivity.
Defined.

(** X11, on the scenario: a guest tries to scan. *)
Lemma guest_token_is_refused_witness :
  run (post_organizer_scan (demo_env "2")
         (mkRequest (Some (jwt_sign (mkClaims "g1" "GUEST") "supersecret" 1700000000000))
                    {[ "ticketId" := "t1" ]})) booked_demo
    = (Replied (SendStatus 403), booked_demo).
Proof.
  refine (proj1 (guest_token_is_refused (demo_env "1") guest_as_admin demo_store
                   (jwt_sign (mkClaims "g1" "GUEST") "supersecret" 1700000000000)
                   (mkUser "g1" "GUEST" None)
                   (set_users (insert "g1" (mkUser "g1" "GUEST" None)) demo_store)
                   _ (demo_env "2") {[ "ticketId" := "t1" ]} booked_demo eq_refl)).
  vm_compute; reflexivity.
Defined.

(** X12, on the scenario. *)
Lemma qrCode_injective_witness :
  qrCode "b1" 1700000000000 = "TICKET-b1-1700000000000" ∧
  "b1" = "b1" ∧ 1700000000000%N = 1700000000000%N.
Proof.
  split; [vm_compute; reflexivity|].
  exact (qrCode_injective "b1" "b1" 1700000000000 1700000000000 eq_refl).
Defined.

(** X13, on the scenario: the student books, the organizer scans. *)
Lemma book_then_scan_witness :
  ∃ b t s1 s2,
    run (post_bookings (demo_env "1") book_e1) demo_store = (Booked b t, s1) ∧
    run (post_organizer_scan (demo_env "1") scan_t1) s1
      = (Scanned (Some (mkStudent "s1" "u1")), s2) ∧
    attendance s2 !! "a1" = Some (mkAttendance "a1" "s1" "e1").
Proof.
  destruct (book_then_scan (demo_env "1") book_e1 demo_store (mkStudent "s1" "u1") "e1"
              (demo_env "1") scan_t1)
    as (b & t & s1 & s2 & Hbook & _ & Hscan & Hatt & _).
  - apply student_books_e1; reflexivity.
  - reflexivity.
  - reflexivity.
  - reflexivity.
  - reflexivity.
  - apply organizer_scans_t1.
  - reflexivity.
  - reflexivity.
  - reflexivity.
  - exists b, t, s1, s2. split; [exact Hbook|]. split; [exact Hscan|exact Hatt].
Defined.

(** X14, on the scenario: the scan of [t1] and the ticket [t2]. *)
Lemma scan_frame_witness :
  tickets (run (post_organizer_scan (demo_env "3") scan_t1) two_tickets_demo).2 !! "t2"
    = tickets two_tickets_demo !! "t2" ∧
  bookings (run (post_organizer_scan (demo_env "3") scan_t1) two_tickets_demo).2
    = bookings two_tickets_demo.
Proof.
  destruct (scan_frame (demo_env "3") scan_t1 two_tickets_demo _ _
              (surjective_pairing _)) as (Ht & _ & Hb & _).
  split; [|exact Hb]. apply Ht. discriminate.
Defined.

(** X15, on the scenario: the two tickets are scanned together. *)
Lemma concurrent_scans_of_two_tickets_witness :
  taskA (interleave (demo_env "3") scan_t1 (demo_env "4") scan_t2 reads_first
           two_tickets_demo)
    = Finished (Scanned (Some (mkStudent "s1" "u1"))) ∧
  taskB (interleave (demo_env "3") scan_t1 (demo_env "4") scan_t2 reads_first
           two_tickets_demo)
    = Finished (Scanned (Some (mkStudent "s1" "u1"))) ∧
  size (attendance (store (interleave (demo_env "3") scan_t1 (demo_env "4") scan_t2
                             reads_first two_tickets_demo))) = 2%nat.
Proof.
  destruct (concurrent_scans_of_two_tickets (demo_env "3") scan_t1 (demo_env "4") scan_t2
              two_tickets_demo
              "t1" (mkTicket "t1" "b1" "TICKET-b1-1700000000000" false None)
              (mkBooking "b1" "s1" "e1" "PAID")
              "t2" (mkTicket "t2" "b2" "TICKET-b2-1700000000000" false None)
              (mkBooking "b2" "s1" "e1" "PAID") reads_first)
    as (HA & HB & _ & _ & Hsize).
  - apply organizer_scans_t1.
  - split; [|reflexivity]. exists (mkClaims "u2" "ORGANIZER"). split; reflexivity.
  - discriminate.
  - vm_compute; reflexivity.
  - reflexivity.
  - vm_compute; reflexivity.
  - reflexivity.
  - vm_compute; reflexivity.
  - vm_compute; reflexivity.
  - reflexivity.
  - reflexivity.
  - reflexivity.
  - reflexivity.
  - vm_compute; reflexivity.
  - vm_compute; reflexivity.
  - discriminate.
  - reflexivity.
  - split; [exact HA|]. split; [exact HB|exact Hsize].
Defined.

(** X16, on the scenario: the draw is 1/2. *)
Lemma otp_has_six_digits_witness :
  new_otp (demo_ambient "1" 1000) = "550000" ∧
  String.length (new_otp (demo_ambient "1" 1000)) = 6%nat.
Proof.
  split; [vm_compute; reflexivity|].
  destruct (otp_has_six_digits (demo_ambient "1" 1000)) as (n & _ & _ & _ & Hlen).
  - discriminate.
  - reflexivity.
  - exact Hlen.
Defined.

(** X17, on the scenario: the password sent at 1000 is verified one
    millisecond before, and at, its expiry. *)
Lemma otp_send_then_verify_witness :
  ∃ w1,
    perform (post_auth_otp_send (demo_ambient "1" 1000) otp_send_req) demo_server
      = (Answered (MessageJson "OTP sent"), w1) ∧
    (∃ token user w2,
       perform (post_auth_otp_verify (demo_ambient "2" 300999) otp_verify_req) w1
         = (Answered (Plain (Json 200 (AuthBody token user))), w2)) ∧
    perform (post_auth_otp_verify (demo_ambient "2" 301000) otp_verify_req) w1
      = (Answered (Plain (Json 400 (ErrorBody "Invalid or expired OTP"))), w1).
Proof.
  assert (∀ ms,
    ∃ w1,
      perform (post_auth_otp_send (demo_ambient "1" 1000) otp_send_req) demo_server
        = (Answered (MessageJson "OTP sent"), w1) ∧
      ((ms < 1000 + 300000)%N →
         ∃ token user w2,
           perform (post_auth_otp_verify (demo_ambient "2" ms) otp_verify_req) w1
             = (Answered (Plain (Json 200 (AuthBody token user))), w2) ∧
           user_phone user = Some "+911234567890" ∧
           jwt_payload token = mkClaims (user_id user) (user_role user)) ∧
      ((1000 + 300000 ≤ ms)%N →
         perform (post_auth_otp_verify (demo_ambient "2" ms) otp_verify_req) w1
           = (Answered (Plain (Json 400 (ErrorBody "Invalid or expired OTP"))), w1))) as H.
  { intros ms.
    apply (otp_send_then_verify (demo_ambient "1" 1000) otp_send_req
             (demo_ambient "2" ms) otp_verify_req demo_server "+911234567890").
    - reflexivity.
    - reflexivity.
    - reflexivity.
    - intros k l Hk. unfold demo_server in Hk. simpl in Hk.
      by rewrite lookup_empty in Hk.
    - reflexivity.
    - vm_compute; reflexivity.
    - reflexivity.
    - vm_compute; reflexivity. }
  destruct (H 300999%N) as (w1 & Hsend & Hok & _).
  destruct (H 301000%N) as (w1' & Hsend' & _ & Hlate).
  assert (w1' = w1) as -> by congruence.
  exists w1. split; [exact Hsend|]. split.
  - destruct Hok as (token & user & w2 & Hrun & _); [reflexivity|].
    by exists token, user, w2.
  - apply Hlate. discriminate.
Defined.

(** X18, on the scenario: no password was ever sent. *)
Lemma otp_verify_without_match_witness :
  perform (post_auth_otp_verify (demo_ambient "2" 2000) otp_verify_req) demo_server
    = (Answered (Plain (Json 400 (ErrorBody "Invalid or expired OTP"))), demo_server).
Proof.
  apply (otp_verify_without_match _ _ _ "+911234567890" "550000").
  - reflexivity.
  - reflexivity.
  - intros k l Hk. unfold demo_server in Hk. simpl in Hk.
      by rewrite lookup_empty in Hk.
Defined.

Lemma otp_sent_demo_log :
  oTPLog otp_sent_demo
    = {[ "otp1" := mkOTPLog "otp1" "+911234567890" "550000" 301000 1000 ]}.
Proof. vm_compute; reflexivity. Qed.

(** X19, on the scenario: the password is verified at 2000 and again at
    300999; the two tokens differ in the time of their signature. *)
Lemma otp_can_be_replayed_witness :
  ∃ user w',
    perform (post_auth_otp_verify (demo_ambient "2" 2000) otp_verify_req) otp_sent_demo
      = (Answered (Plain (Json 200 (AuthBody
           (mkJwt "supersecret" (mkClaims "g2" "STUDENT") 2) user))), w') ∧
    perform (post_auth_otp_verify (demo_ambient "3" 300999) otp_verify_req) w'
      = (Answered (Plain (Json 200 (AuthBody
           (mkJwt "supersecret" (mkClaims "g2" "STUDENT") 300) user))), w').
Proof.
  eexists _, _.
  assert (perform (post_auth_otp_verify (demo_ambient "2" 2000) otp_verify_req) otp_sent_demo
          = (Answered (Plain (Json 200 (AuthBody
               (mkJwt "supersecret" (mkClaims "g2" "STUDENT") 2)
               (mkUser "g2" "STUDENT" (Some "+911234567890"))))),
             set_db (set_users (insert "g2" (mkUser "g2" "STUDENT" (Some "+911234567890"))))
                    otp_sent_demo)) as Hrun by (vm_compute; reflexivity).
  split; [exact Hrun|].
  refine (proj2 (otp_can_be_replayed (demo_ambient "2" 2000) otp_verify_req otp_sent_demo
                   _ _ _ (demo_ambient "3" 300999) Hrun _)).
  intros k l Hk _. rewrite otp_sent_demo_log in Hk.
  apply lookup_singleton_Some in Hk as [_ <-]. reflexivity.
Defined.

(** X20, on the scenario: the phone is new, the user is a STUDENT. *)
Lemma otp_verify_user_witness :
  ∃ token user w',
    perform (post_auth_otp_verify (demo_ambient "2" 2000) otp_verify_req) otp_sent_demo
      = (Answered (Plain (Json 200 (AuthBody token user))), w') ∧
    user_phone user = Some "+911234567890" ∧
    token = jwt_sign (mkClaims (user_id user) (user_role user)) "supersecret" 2000.
Proof.
  assert (perform (post_auth_otp_verify (demo_ambient "2" 2000) otp_verify_req) otp_sent_demo
          = (Answered (Plain (Json 200 (AuthBody
               (jwt_sign (mkClaims "g2" "STUDENT") "supersecret" 2000)
               (mkUser "g2" "STUDENT" (Some "+911234567890"))))),
             set_db (set_users (insert "g2" (mkUser "g2" "STUDENT" (Some "+911234567890"))))
                    otp_sent_demo)) as Hrun by (vm_compute; reflexivity).
  destruct (otp_verify_user _ _ _ _ _ _ Hrun) as (p & _ & _ & Htoken & _).
  eexists _, _, _. split; [exact Hrun|]. split; [reflexivity|exact Htoken].
Defined.

Lemma demo_event_created :
  perform (post_events (demo_ambient "7" 5) create_event_req new_event_data) demo_server
    = (Answered (EventJson (mkEvent "e7" "o1" 50 0 "PENDING")),
       set_db (set_events (insert "e7" (mkEvent "e7" "o1" 50 0 "PENDING"))) demo_server).
Proof. vm_compute; reflexivity. Qed.

(** X21, on the scenario: the body asks for the status APPROVED and for
    the organizer [o9]. *)
Lemma created_event_is_pending_witness :
  data_status new_event_data = Some "APPROVED" ∧
  data_organizerId new_event_data = Some "o9" ∧
  data_relations new_event_data = None ∧
  event_status (mkEvent "e7" "o1" 50 0 "PENDING") = "PENDING" ∧
  (∃ organizer,
     organizers (db demo_server) !! "o1" = Some organizer ∧
     event_organizerId (mkEvent "e7" "o1" 50 0 "PENDING") = organizer_id organizer) ∧
  events (db (perform (post_events (demo_ambient "7" 5) create_event_req new_event_data)
                      demo_server).2)
    = <["e7" := mkEvent "e7" "o1" 50 0 "PENDING"]> (events (db demo_server)).
Proof.
  split; [reflexivity|]. split; [reflexivity|]. split; [reflexivity|].
  destruct (created_event_is_pending _ _ _ _ _ _ demo_event_created)
    as (Hstatus & user & organizer & _ & _ & Ho & _ & Hid & _ & Hrows).
  split; [exact Hstatus|].
  split; [exists (mkOrganizer "o1" "u2" true); split; reflexivity|].
  rewrite demo_event_created. exact (Hrows eq_refl).
Defined.

(** X22, on the scenario: the student tries to create an event. *)
Lemma create_event_gate_witness :
  perform (post_events (demo_ambient "7" 5) (mkRequest (Some student_token) ∅)
             new_event_data) demo_server
    = (Answered (Plain (SendStatus 403)), demo_server).
Proof.
  destruct (create_event_gate (demo_ambient "7" 5) (mkRequest (Some student_token) ∅)
              new_event_data demo_server (mkClaims "u1" "STUDENT")) as [Hrole _].
  - reflexivity.
  - apply Hrole. discriminate.
Defined.

(** X24, on the scenario: the created event is returned by id. *)
Lemma created_event_listing_witness :
  ∃ w',
    perform (post_events (demo_ambient "7" 5) create_event_req new_event_data) demo_server
      = (Answered (EventJson (mkEvent "e7" "o1" 50 0 "PENDING")), w') ∧
    perform (get_event "e7") w'
      = (Answered (EventOrNull
           (Some (include_event (db w') (mkEvent "e7" "o1" 50 0 "PENDING")))), w') ∧
    perform (get_event "e8") w' = (Answered (EventOrNull None), w').
Proof.
  eexists. split; [exact demo_event_created|].
  destruct (created_event_listing _ _ _ _ _ _ demo_event_created eq_refl)
    as (_ & Hget & Hnull).
  split; [exact Hget|]. apply Hnull. vm_compute; reflexivity.
Defined.

(** X25, on the scenario: the model answers ["Hello"]. *)
Lemma chat_reply_stored_and_emitted_witness :
  ∃ w',
    perform (on_chat_message (demo_ambient "1" 5) chat_hello) demo_server
      = (Answered (Emit "Hello"), w') ∧
    size (chatMessage w') = 2%nat.
Proof.
  destruct (chat_reply_stored_and_emitted (demo_ambient "1" 5) chat_hello demo_server
              (Some "Hello"))
    as (reply & w' & Hrun & _ & Htext & _ & Hsize & _).
  - reflexivity.
  - reflexivity.
  - reflexivity.
  - reflexivity.
  - discriminate.
  - reflexivity.
  - exists w'. split; [|exact Hsize].
    rewrite Hrun. rewrite (Htext "Hello" eq_refl); [reflexivity|discriminate].
Defined.

(** X26, on the scenario: the model fails. *)
Lemma chat_model_failure_witness :
  ∃ w',
    perform (on_chat_message failing_model_ambient chat_hello) demo_server
      = (Errored ModelFailure, w') ∧
    chatMessage w' !! "m1" = Some (mkChatMessage "m1" "u1" "Hi" "user").
Proof.
  destruct (chat_model_failure failing_model_ambient chat_hello demo_server)
    as (w' & Hrun & Hrows & _).
  - reflexivity.
  - reflexivity.
  - reflexivity.
  - exists w'. split; [exact Hrun|]. rewrite Hrows. apply lookup_insert_eq.
Defined.

(** X27, on the scenario: a request of each kind. *)
Lemma server_keeps_consistency_witness :
  Forall scalar_only demo_incoming ∧
  consistent (db demo_server) ∧ consistent (db (receive demo_incoming demo_server)).
Proof.
  assert (Forall scalar_only demo_incoming) as Hl
    by (repeat constructor).
  split; [exact Hl|]. split; [apply demo_store_consistent|].
  apply server_keeps_consistency; [exact Hl|apply demo_store_consistent].
Defined.

(** X28, on the scenario: a created event and a booking. *)
Lemma routes_keep_to_their_tables_witness :
  bookings (db (receive1 demo_server
                  (PostEvents (demo_ambient "7" 5) create_event_req new_event_data)))
    = bookings (db demo_server) ∧
  chatMessage (receive1 demo_server (Core (mkCall Bookings (demo_env "1") book_e1)))
    = chatMessage demo_server.
Proof.
  split.
  - destruct (routes_keep_to_their_tables
                (PostEvents (demo_ambient "7" 5) create_event_req new_event_data)
                demo_server) as [H _].
    apply H; [discriminate|reflexivity].
  - destruct (routes_keep_to_their_tables
                (Core (mkCall Bookings (demo_env "1") book_e1)) demo_server) as [_ H].
    exact (proj2 (H _ eq_refl)).
Defined.
